(** * RtMidi: the input queue, the backend input handlers and error reporting

    A shallow embedding of the realtime MIDI input path of RtMidi:
    - [MidiInApi::getMessage] and the ring-buffer push that closes each
      backend handler (the input queue);
    - [midiInputCallback] (Windows MM), the body of the event loop of
      [alsaMidiHandler] (ALSA) and the body of the event loop of
      [jackProcessIn] (JACK);
    - [MidiApi::error].

    Unsigned machine integers are [Z] values with the wrap-around written
    out, bytes are [Z] values in [0, 256), [double] is a binary64 float. *)

From Stdlib Require Import ZArith Lia Bool Ascii String Floats.
From Stdlib Require Import DecimalString DecimalN.
From stdpp Require Import base list.

Set Warnings "-inexact-float".
Local Open Scope Z_scope.

(** ** Machine arithmetic *)

(** [unsigned int] and [DWORD] arithmetic is modulo 2^32, [unsigned long
    long] and [jack_time_t] arithmetic modulo 2^64. *)
Definition wrap32 (z : Z) : Z := z mod 2 ^ 32.
Definition wrap64 (z : Z) : Z := z mod 2 ^ 64.

(** Conversion of an unsigned integer to [double]: round to nearest, ties to
    even. *)
Definition double_of_Z (z : Z) : float :=
  SF2Prim (binary_normalize prec emax z 0 false).

(** The newline character of the diagnostics. *)
Definition nl : string := String "010"%char EmptyString.

(** A non-zero value in a C condition. *)
Definition truthy (z : Z) : bool := negb (z =? 0).

(** ** Messages, the queue and the data shared with the handlers *)

(** [MidiInApi::MidiMessage]: the bytes and the delta-time in seconds. *)
Record MidiMessage := mkMidiMessage {
  bytes : list Z;
  timeStamp : float
}.

(** Modelled from the spec: the default constructor of [MidiMessage], declared
    in RtMidi.h (not among the sources); a message starts with no bytes and a
    delta-time of 0.0. *)
Definition MidiMessage_new : MidiMessage := mkMidiMessage [] 0%float.

Global Instance MidiMessage_inhabited : Inhabited MidiMessage :=
  populate MidiMessage_new.

(** [MidiInApi::MidiQueue]: [front] is the next slot to pop, [back] the next
    slot to push, [size] the number of occupied slots; all [unsigned int]. *)
Record MidiQueue := mkMidiQueue {
  front : Z;
  back : Z;
  size : Z;
  ringSize : Z;
  ring : list MidiMessage
}.

(** Modelled from the spec: the queue as [MidiInApi::MidiInApi] leaves it. The
    constructor of [MidiQueue] is declared in RtMidi.h (not among the sources);
    the queue starts empty, and the constructor of [MidiInApi] allocates
    [queueSizeLimit] default-constructed slots. *)
Definition MidiQueue_new (queueSizeLimit : Z) : MidiQueue :=
  mkMidiQueue 0 0 0 queueSizeLimit
    (replicate (Z.to_nat queueSizeLimit) MidiMessage_new).

(** What a handler or a call leaves behind for the outside world. *)
Inductive RtMidiErrorType :=
  | WARNING | DEBUG_WARNING | UNSPECIFIED | NO_DEVICES_FOUND
  | MEMORY_ERROR | INVALID_PARAMETER | DRIVER_ERROR | THREAD_ERROR.

Inductive Event :=
  | UserCallback (deltatime : float) (message : list Z)
  | ErrorCallback (type : RtMidiErrorType) (errorText : string)
  | Cerr (text : string)
  | AddBuffer (dwUser : Z).

(** [MidiInApi::RtMidiInData], without the pointers to the user callback and
    to the backend data: the callback's invocations are recorded as
    [UserCallback] events, the backend data is passed next to this record. *)
Record RtMidiInData := mkRtMidiInData {
  queue : MidiQueue;
  ignoreFlags : Z;
  doInput : bool;
  firstMessage : bool;
  usingCallback : bool;
  continueSysex : bool
}.

(** Modelled from the spec: the default constructor of [RtMidiInData],
    declared in RtMidi.h (not among the sources): a fresh connection has
    [firstMessage] set and no callback. The ignore flags are a parameter. *)
Definition RtMidiInData_new (queueSizeLimit flags : Z) : RtMidiInData :=
  mkRtMidiInData (MidiQueue_new queueSizeLimit) flags false true false false.

Definition set_queue (q : MidiQueue) (d : RtMidiInData) : RtMidiInData :=
  mkRtMidiInData q (ignoreFlags d) (doInput d) (firstMessage d)
    (usingCallback d) (continueSysex d).

Definition set_firstMessage (b : bool) (d : RtMidiInData) : RtMidiInData :=
  mkRtMidiInData (queue d) (ignoreFlags d) (doInput d) b
    (usingCallback d) (continueSysex d).

(** ** The ring-buffer push

    The three handlers end with the same lines:
<<
      if ( data->queue.size < data->queue.ringSize ) {
        data->queue.ring[data->queue.back++] = message;
        if ( data->queue.back == data->queue.ringSize )
          data->queue.back = 0;
        data->queue.size++;
      }
      else
        std::cerr << "\n<who>: message queue limit reached!!\n\n";
>>
    The result carries [true] when the message was stored. A store outside the
    array is undefined in C++; here it leaves the array as it is. *)
Definition queue_push (who : string) (q : MidiQueue) (message : MidiMessage)
  : MidiQueue * bool * list Event :=
  if size q <? ringSize q then
    let ring' := <[Z.to_nat (back q) := message]> (ring q) in
    let back1 := wrap32 (back q + 1) in
    let back' := if back1 =? ringSize q then 0 else back1 in
    (mkMidiQueue (front q) back' (wrap32 (size q + 1)) (ringSize q) ring',
     true, [])
  else
    (q, false,
     [Cerr (nl ++ who ++ ": message queue limit reached!!" ++ nl ++ nl)%string]).

(** The end of every handler: the user callback when one is set, the queue
    otherwise. *)
Definition deliver (who : string) (data : RtMidiInData) (message : MidiMessage)
  : RtMidiInData * list Event :=
  if usingCallback data then
    (data, [UserCallback (timeStamp message) (bytes message)])
  else
    let '(q, _, out) := queue_push who (queue data) message in
    (set_queue q data, out).

(** ** Error reporting: [MidiApi::error] *)

(** [RtMidiError]: the exception [MidiApi::error] throws. *)
Record RtMidiError := mkRtMidiError {
  what : string;
  getType : RtMidiErrorType
}.

(** How a call ends. *)
Inductive Completion :=
  | Returns
  | Throws (e : RtMidiError).

(** The user's error callback is code outside the library. It is modelled by
    what it does to the object that reports the error: the calls to
    [MidiApi::error] it makes on that object while it runs, in order, as a
    function of the arguments it receives. *)
Definition RtMidiErrorCallback : Type :=
  RtMidiErrorType -> string -> list (RtMidiErrorType * string).

(** The members of [MidiApi] that error reporting reads and writes. *)
Record MidiApi := mkMidiApi {
  connected_ : bool;
  errorString_ : string;
  errorCallback_ : option RtMidiErrorCallback;
  firstErrorOccurred_ : bool
}.

(** [MidiApi::MidiApi]. *)
Definition MidiApi_new : MidiApi := mkMidiApi false EmptyString None false.

(** [MidiApi::setErrorCallback]; a null pointer is [None]. *)
Definition setErrorCallback (errorCallback : option RtMidiErrorCallback)
  (self : MidiApi) : MidiApi :=
  mkMidiApi (connected_ self) (errorString_ self) errorCallback
    (firstErrorOccurred_ self).

Definition set_firstErrorOccurred (b : bool) (self : MidiApi) : MidiApi :=
  mkMidiApi (connected_ self) (errorString_ self) (errorCallback_ self) b.

Definition set_errorString (s : string) (self : MidiApi) : MidiApi :=
  mkMidiApi (connected_ self) s (errorCallback_ self)
    (firstErrorOccurred_ self).

(** The body of a running callback: its calls to [report], one after the
    other; an exception that leaves one of them leaves the callback. *)
Fixpoint run_callback
  (report : MidiApi -> RtMidiErrorType -> string ->
            option (MidiApi * list Event * Completion))
  (self : MidiApi) (calls : list (RtMidiErrorType * string))
  : option (MidiApi * list Event * Completion) :=
  match calls with
  | [] => Some (self, [], Returns)
  | (type, errorString) :: rest =>
      match report self type errorString with
      | None => None
      | Some (self1, out1, Throws e) => Some (self1, out1, Throws e)
      | Some (self1, out1, Returns) =>
          match run_callback report self1 rest with
          | None => None
          | Some (self2, out2, c) => Some (self2, out1 ++ out2, c)
          end
      end
  end.

(** [MidiApi::error]. [debug] stands for the macro [__RTMIDI_DEBUG__]. The
    callback may call [error] again, so the definition is by recursion on a
    bound [fuel] on the depth of such calls; [None] means the bound was
    reached. *)
Fixpoint error (debug : bool) (fuel : nat) (self : MidiApi)
  (type : RtMidiErrorType) (errorString : string)
  : option (MidiApi * list Event * Completion) :=
  match fuel with
  | O => None
  | S fuel' =>
      match errorCallback_ self with
      | Some errorCallback =>
          if firstErrorOccurred_ self then Some (self, [], Returns)
          else
            let self1 := set_firstErrorOccurred true self in
            let errorMessage := errorString in
            match run_callback (error debug fuel') self1
                    (errorCallback type errorMessage) with
            | None => None
            | Some (self2, out, Throws e) =>
                Some (self2, ErrorCallback type errorMessage :: out, Throws e)
            | Some (self2, out, Returns) =>
                Some (set_firstErrorOccurred false self2,
                      ErrorCallback type errorMessage :: out, Returns)
            end
      | None =>
          let line := Cerr (nl ++ errorString ++ nl ++ nl)%string in
          match type with
          | WARNING => Some (self, [line], Returns)
          | DEBUG_WARNING =>
              Some (self, if debug then [line] else [], Returns)
          | _ => Some (self, [line], Throws (mkRtMidiError errorString type))
          end
      end
  end.

(** ** Polling: [MidiInApi::getMessage] *)

(** A [MidiInApi] object: its [MidiApi] base and [inputData_]. *)
Record MidiInApi := mkMidiInApi {
  base : MidiApi;
  inputData_ : RtMidiInData
}.

(** [MidiInApi::MidiInApi]. *)
Definition MidiInApi_new (queueSizeLimit flags : Z) : MidiInApi :=
  mkMidiInApi MidiApi_new (RtMidiInData_new queueSizeLimit flags).

(** [MidiInApi::getMessage]. The result carries the returned delta-time and
    the contents of [*message] at the end of the call. A read outside the
    array is undefined in C++; here it reads a default message. *)
Definition getMessage (debug : bool) (fuel : nat) (self : MidiInApi)
  : option (MidiInApi * (float * list Z) * list Event * Completion) :=
  let message : list Z := [] in
  if usingCallback (inputData_ self) then
    let errorString :=
      "RtMidiIn::getNextMessage: a user callback is currently set for this port."%string in
    match error debug fuel (set_errorString errorString (base self))
            WARNING errorString with
    | None => None
    | Some (base', out, c) =>
        Some (mkMidiInApi base' (inputData_ self), (0%float, message), out, c)
    end
  else
    let q := queue (inputData_ self) in
    if size q =? 0 then Some (self, (0%float, message), [], Returns)
    else
      let slot := ring q !!! Z.to_nat (front q) in
      let message := bytes slot in
      let deltaTime := timeStamp slot in
      let size' := wrap32 (size q - 1) in
      let front1 := wrap32 (front q + 1) in
      let front' := if front1 =? ringSize q then 0 else front1 in
      let q' := mkMidiQueue front' (back q) size' (ringSize q) (ring q) in
      Some (mkMidiInApi (base self) (set_queue q' (inputData_ self)),
            (deltaTime, message), [], Returns).

(** ** Windows MM: [midiInputCallback] *)

Module WinMM.

(** The part of a [MIDIHDR] the callback reads: the recorded bytes (as
    unsigned values), their count and the index of the buffer. *)
Record MIDIHDR := mkMIDIHDR {
  lpData : list Z;
  dwBytesRecorded : Z;
  dwUser : Z
}.

(** [WinMidiData]: [lastTime] is a [DWORD]. The sysex buffers are the
    headers the driver hands back, so [sysexBuffer[sysex->dwUser]] is the
    header the callback receives. *)
Record WinMidiData := mkWinMidiData {
  lastTime : Z;
  message : MidiMessage
}.

(** [inputStatus] together with what [midiMessage] holds for it: a packed
    short message for [MIM_DATA], a pointer to a header for the other two.
    For these the result of [midiInAddBuffer], should it be called, comes
    with the input. *)
Inductive Input :=
  | MIM_DATA (midiMessage : Z)
  | MIM_LONGDATA (sysex : MIDIHDR) (addBufferResult : Z)
  | MIM_LONGERROR (sysex : MIDIHDR) (addBufferResult : Z)
  | MIM_other.

Definition MMSYSERR_NOERROR : Z := 0.

Definition set_message (m : MidiMessage) (a : WinMidiData) : WinMidiData :=
  mkWinMidiData (lastTime a) m.

Definition push_back (bs : list Z) (m : MidiMessage) : MidiMessage :=
  mkMidiMessage (bytes m ++ bs) (timeStamp m).

Definition clear (m : MidiMessage) : MidiMessage :=
  mkMidiMessage [] (timeStamp m).

(** The cast [(int)] of a [DWORD]. *)
Definition int_of_DWORD (z : Z) : Z := if z <? 2 ^ 31 then z else z - 2 ^ 32.

(** Byte [i] of the packed message in memory (little-endian). *)
Definition byte_at (midiMessage : Z) (i : nat) : Z :=
  Z.land (Z.shiftr midiMessage (8 * Z.of_nat i)) 255.

(** "Calculate time stamp." *)
Definition stamp (data : RtMidiInData) (apiData : WinMidiData)
  (timestamp : Z) : RtMidiInData * WinMidiData :=
  let '(data1, ts) :=
    if firstMessage data then (set_firstMessage false data, 0%float)
    else (data,
          (double_of_Z (wrap32 (timestamp - lastTime apiData)) * 0.001)%float)
  in
  (data1, mkWinMidiData timestamp (mkMidiMessage (bytes (message apiData)) ts)).

(** The number of bytes of a short message with the given status byte, or
    [None] where the callback returns because the message is ignored. *)
Definition short_length (flags status : Z) : option nat :=
  if status <? 192 then Some 3%nat
  else if status <? 224 then Some 2%nat
  else if status <? 240 then Some 3%nat
  else if status =? 241 then
    if truthy (Z.land flags 2) then None else Some 2%nat
  else if status =? 242 then Some 3%nat
  else if status =? 243 then Some 2%nat
  else if (status =? 248) && truthy (Z.land flags 2) then None
  else if (status =? 254) && truthy (Z.land flags 4) then None
  else Some 1%nat.

(** The callback up to the point where it either returns early ([None]) or
    goes on to hand [apiData->message] over ([Some]). *)
Definition midiInputCallback_assemble (data : RtMidiInData)
  (apiData : WinMidiData) (input : Input) (timestamp : Z)
  : RtMidiInData * WinMidiData * list Event * option MidiMessage :=
  match input with
  | MIM_other => (data, apiData, [], None)
  | MIM_DATA midiMessage =>
      let '(data1, apiData1) := stamp data apiData timestamp in
      let status := Z.land midiMessage 255 in
      if negb (truthy (Z.land status 128)) then (data1, apiData1, [], None)
      else
        match short_length (ignoreFlags data1) status with
        | None => (data1, apiData1, [], None)
        | Some nBytes =>
            let m := push_back (map (byte_at midiMessage) (seq 0 nBytes))
                       (message apiData1) in
            (data1, set_message m apiData1, [], Some m)
        end
  | MIM_LONGDATA sysex result | MIM_LONGERROR sysex result =>
      let '(data1, apiData1) := stamp data apiData timestamp in
      let longerror :=
        match input with MIM_LONGERROR _ _ => true | _ => false end in
      let ignoring := truthy (Z.land (ignoreFlags data1) 1) in
      let m :=
        if negb ignoring && negb longerror then
          push_back
            (take (Z.to_nat (int_of_DWORD (dwBytesRecorded sysex)))
               (lpData sysex))
            (message apiData1)
        else message apiData1 in
      let apiData2 := set_message m apiData1 in
      if 0 <? dwBytesRecorded sysex then
        let out :=
          AddBuffer (dwUser sysex) ::
          (if result =? MMSYSERR_NOERROR then []
           else [Cerr (nl ++ "RtMidiIn::midiInputCallback: error sending sysex to Midi device!!" ++ nl ++ nl)%string]) in
        if ignoring then (data1, apiData2, out, None)
        else (data1, apiData2, out, Some m)
      else (data1, apiData2, [], None)
  end.

(** [midiInputCallback]: a message that got through is delivered and the
    byte vector cleared for the next one. *)
Definition midiInputCallback (data : RtMidiInData) (apiData : WinMidiData)
  (input : Input) (timestamp : Z)
  : RtMidiInData * WinMidiData * list Event :=
  match midiInputCallback_assemble data apiData input timestamp with
  | (data1, apiData1, out, None) => (data1, apiData1, out)
  | (data1, apiData1, out, Some m) =>
      let '(data2, out2) := deliver "RtMidiIn" data1 m in
      (data2, set_message (clear m) apiData1, out ++ out2)
  end.

(** [MidiInWinMM::initialize] clears the byte vector; [lastTime] is not
    initialised there and is a parameter. *)
Definition WinMidiData_new (lastTime0 : Z) : WinMidiData :=
  mkWinMidiData lastTime0 MidiMessage_new.

End WinMM.

(** ** ALSA: the event loop of [alsaMidiHandler] *)

Module Alsa.

(** The event types the handler tells apart; every other type takes the
    [default] label of the switch. *)
Inductive snd_seq_event_type :=
  | SND_SEQ_EVENT_PORT_SUBSCRIBED
  | SND_SEQ_EVENT_PORT_UNSUBSCRIBED
  | SND_SEQ_EVENT_QFRAME
  | SND_SEQ_EVENT_TICK
  | SND_SEQ_EVENT_CLOCK
  | SND_SEQ_EVENT_SENSING
  | SND_SEQ_EVENT_SYSEX
  | SND_SEQ_EVENT_default.

(** What the handler reads of an event [ev]: its type, the length
    [ev->data.ext.len], the value of
    [( ev->time.time.tv_sec * 1000000 ) + ( ev->time.time.tv_nsec/1000 )] as
    an [unsigned long long], and the bytes [snd_midi_event_decode] writes
    for it into a buffer that is large enough ([nBytes] is their number; a
    decoding that fails or yields nothing is the empty list). *)
Record snd_seq_event := mk_snd_seq_event {
  type : snd_seq_event_type;
  ext_len : Z;
  time : Z;
  decoded : list Z
}.

(** [AlsaMidiData]: [lastTime] is an [unsigned long long]. *)
Record AlsaMidiData := mkAlsaMidiData {
  bufferSize : Z;
  lastTime : Z
}.

(** The local variables of the handler that live across iterations. *)
Record Locals := mkLocals {
  continueSysex : bool;
  message : MidiMessage
}.

(** [std::vector::back]; the handler calls it on a vector that is not
    empty. *)
Definition vector_back (v : list Z) : Z := default 0 (last v).

(** The locals on entry to the loop. *)
Definition Locals_new : Locals := mkLocals false MidiMessage_new.

(** The switch on [ev->type]: the new buffer size and [doDecode]. The
    allocation of a larger buffer is taken to succeed. *)
Definition select (flags : Z) (apiData : AlsaMidiData) (ev : snd_seq_event)
  : AlsaMidiData * bool :=
  match type ev with
  | SND_SEQ_EVENT_PORT_SUBSCRIBED => (apiData, false)
  | SND_SEQ_EVENT_PORT_UNSUBSCRIBED => (apiData, false)
  | SND_SEQ_EVENT_QFRAME => (apiData, negb (truthy (Z.land flags 2)))
  | SND_SEQ_EVENT_TICK => (apiData, negb (truthy (Z.land flags 2)))
  | SND_SEQ_EVENT_CLOCK => (apiData, negb (truthy (Z.land flags 2)))
  | SND_SEQ_EVENT_SENSING => (apiData, negb (truthy (Z.land flags 4)))
  | SND_SEQ_EVENT_SYSEX =>
      if truthy (Z.land flags 1) then (apiData, false)
      else if bufferSize apiData <? ext_len ev then
        (mkAlsaMidiData (ext_len ev) (lastTime apiData), true)
      else (apiData, true)
  | SND_SEQ_EVENT_default => (apiData, true)
  end.

(** "Calculate the time stamp", method 2. *)
Definition stamp (data : RtMidiInData) (apiData : AlsaMidiData)
  (m : MidiMessage) (ev : snd_seq_event)
  : RtMidiInData * AlsaMidiData * MidiMessage :=
  let m0 := mkMidiMessage (bytes m) 0%float in
  let time0 := time ev in
  let lastTime0 := time0 in
  let time1 := wrap64 (time0 - lastTime apiData) in
  let apiData1 := mkAlsaMidiData (bufferSize apiData) lastTime0 in
  if firstMessage data then (set_firstMessage false data, apiData1, m0)
  else (data, apiData1,
        mkMidiMessage (bytes m) (double_of_Z time1 * 0.000001)%float).

(** One iteration of the loop for an event that was read, up to the test
    [if ( message.bytes.size() == 0 || continueSysex ) continue;]: the
    result carries the message when the iteration goes on to deliver it. *)
Definition alsaMidiHandler_assemble (data : RtMidiInData)
  (apiData : AlsaMidiData) (loc : Locals) (ev : snd_seq_event)
  : RtMidiInData * AlsaMidiData * Locals * option MidiMessage :=
  let m0 :=
    if continueSysex loc then message loc
    else mkMidiMessage [] (timeStamp (message loc)) in
  let '(apiData1, doDecode) := select (ignoreFlags data) apiData ev in
  let '(data2, apiData2, loc2) :=
    if doDecode && (0 <? Z.of_nat (length (decoded ev))) then
      let m1 :=
        if continueSysex loc then
          mkMidiMessage (bytes m0 ++ decoded ev) (timeStamp m0)
        else mkMidiMessage (decoded ev) (timeStamp m0) in
      let continue' :=
        match type ev with
        | SND_SEQ_EVENT_SYSEX => negb (vector_back (bytes m1) =? 247)
        | _ => false
        end in
      if continue' then (data, apiData1, mkLocals true m1)
      else
        let '(data', apiData', m2) := stamp data apiData1 m1 ev in
        (data', apiData', mkLocals false m2)
    else (data, apiData1, mkLocals (continueSysex loc) m0) in
  let m := message loc2 in
  if (length (bytes m) =? 0)%nat || continueSysex loc2 then
    (data2, apiData2, loc2, None)
  else (data2, apiData2, loc2, Some m).

(** One iteration of the loop for an event that was read. *)
Definition alsaMidiHandler_event (data : RtMidiInData)
  (apiData : AlsaMidiData) (loc : Locals) (ev : snd_seq_event)
  : RtMidiInData * AlsaMidiData * Locals * list Event :=
  match alsaMidiHandler_assemble data apiData loc ev with
  | (data1, apiData1, loc1, None) => (data1, apiData1, loc1, [])
  | (data1, apiData1, loc1, Some m) =>
      let '(data2, out) := deliver "MidiInAlsa" data1 m in
      (data2, apiData1, loc1, out)
  end.

(** The loop over the events that are read, with what each iteration
    hands over. *)
Fixpoint alsaMidiHandler_feed (data : RtMidiInData) (apiData : AlsaMidiData)
  (loc : Locals) (evs : list snd_seq_event)
  : RtMidiInData * AlsaMidiData * Locals * list (option MidiMessage) :=
  match evs with
  | [] => (data, apiData, loc, [])
  | ev :: rest =>
      let '(data1, apiData1, loc1, r) :=
        alsaMidiHandler_assemble data apiData loc ev in
      let data2 :=
        match r with
        | Some m => fst (deliver "MidiInAlsa" data1 m)
        | None => data1
        end in
      let '(data3, apiData3, loc3, rs) :=
        alsaMidiHandler_feed data2 apiData1 loc1 rest in
      (data3, apiData3, loc3, r :: rs)
  end.


End Alsa.

(** ** JACK: the event loop of [jackProcessIn] *)

Module Jack.

(** [JackMidiData]: [lastTime] is a [jack_time_t], 64 bits unsigned. *)
Record JackMidiData := mkJackMidiData {
  lastTime : Z
}.

(** One iteration of the loop up to the delivery: [event] holds the
    [event.size] bytes of [event.buffer], [time] is what [jack_get_time]
    returns in this iteration. *)
Definition jackProcessIn_assemble (rtData : RtMidiInData)
  (jData : JackMidiData) (event : list Z) (time : Z)
  : RtMidiInData * JackMidiData * MidiMessage :=
  let message := mkMidiMessage event (timeStamp MidiMessage_new) in
  let '(rtData1, message1) :=
    if firstMessage rtData then (set_firstMessage false rtData, message)
    else (rtData,
          mkMidiMessage (bytes message)
            (double_of_Z (wrap64 (time - lastTime jData)) * 0.000001)%float)
  in
  (rtData1, mkJackMidiData time, message1).

(** One iteration of the loop. *)
Definition jackProcessIn_event (rtData : RtMidiInData) (jData : JackMidiData)
  (event : list Z) (time : Z)
  : RtMidiInData * JackMidiData * list Event :=
  let '(rtData1, jData1, message) :=
    jackProcessIn_assemble rtData jData event time in
  if negb (continueSysex rtData1) then
    let '(rtData2, out) := deliver "MidiInJack" rtData1 message in
    (rtData2, jData1, out)
  else (rtData1, jData1, []).

(** [jackProcessIn] once the port exists: the loop over the events of the
    buffer, each with the time read for it. *)
Fixpoint jackProcessIn (rtData : RtMidiInData) (jData : JackMidiData)
  (events : list (list Z * Z)) : RtMidiInData * JackMidiData * list Event :=
  match events with
  | [] => (rtData, jData, [])
  | (event, time) :: rest =>
      let '(rtData1, jData1, out1) :=
        jackProcessIn_event rtData jData event time in
      let '(rtData2, jData2, out2) := jackProcessIn rtData1 jData1 rest in
      (rtData2, jData2, out1 ++ out2)
  end.

End Jack.

(** ** The queue as a FIFO *)

(** The invariant of the queue: the size is at most the capacity and both
    indices are indices of the array. The capacity is an [unsigned int]. *)
Definition queue_inv (q : MidiQueue) : Prop :=
  0 <= size q <= ringSize q /\
  0 <= front q < ringSize q /\
  0 <= back q < ringSize q /\
  ringSize q < 2 ^ 32.

(** A well-formed queue moreover has as many slots as its capacity, and
    unless the capacity is zero [back] is [size] slots after [front], around
    the end of the array. *)
Definition queue_wf (q : MidiQueue) : Prop :=
  0 <= size q <= ringSize q /\
  ringSize q < 2 ^ 32 /\
  Z.of_nat (length (ring q)) = ringSize q /\
  (ringSize q = 0 \/
   0 <= front q < ringSize q /\
   back q = (front q + size q) mod ringSize q).

(** The slot that holds the [i]-th queued message. *)
Definition slot_index (q : MidiQueue) (i : nat) : nat :=
  Z.to_nat ((front q + Z.of_nat i) mod ringSize q).

(** The queued messages, oldest first. *)
Definition contents (q : MidiQueue) : list MidiMessage :=
  map (fun i => ring q !!! slot_index q i) (seq 0 (Z.to_nat (size q))).

(** Pushing a list of messages one after the other, with the result of each
    push. *)
Fixpoint push_all (who : string) (q : MidiQueue) (ms : list MidiMessage)
  : MidiQueue * list bool :=
  match ms with
  | [] => (q, [])
  | m :: rest =>
      let '(q1, ok, _) := queue_push who q m in
      let '(q2, oks) := push_all who q1 rest in
      (q2, ok :: oks)
  end.

(** [n] calls of [getMessage] that all return, with what each returned. *)
Fixpoint getMessage_n (debug : bool) (fuel : nat) (n : nat) (self : MidiInApi)
  : option (MidiInApi * list (float * list Z)) :=
  match n with
  | O => Some (self, [])
  | S n' =>
      match getMessage debug fuel self with
      | Some (self1, r, _, Returns) =>
          match getMessage_n debug fuel n' self1 with
          | Some (self2, rs) => Some (self2, r :: rs)
          | None => None
          end
      | _ => None
      end
  end.

(** What a poll returns for a queued message. *)
Definition polled (m : MidiMessage) : float * list Z := (timeStamp m, bytes m).

(** The object with another queue. *)
Definition with_queue (q : MidiQueue) (self : MidiInApi) : MidiInApi :=
  mkMidiInApi (base self) (set_queue q (inputData_ self)).

(** ** The rest of [MidiInApi]: callback registration and ignore flags *)

Definition set_usingCallback (b : bool) (d : RtMidiInData) : RtMidiInData :=
  mkRtMidiInData (queue d) (ignoreFlags d) (doInput d) (firstMessage d) b
    (continueSysex d).

Definition set_ignoreFlags (flags : Z) (d : RtMidiInData) : RtMidiInData :=
  mkRtMidiInData (queue d) flags (doInput d) (firstMessage d)
    (usingCallback d) (continueSysex d).

(** The lines [errorString_ = s; error( type, errorString_ ); return;] that
    end the failing branches of the member functions. *)
Definition report (debug : bool) (fuel : nat) (self : MidiInApi)
  (type : RtMidiErrorType) (errorString : string)
  : option (MidiInApi * list Event * Completion) :=
  match error debug fuel (set_errorString errorString (base self))
          type errorString with
  | None => None
  | Some (base', out, c) => Some (mkMidiInApi base' (inputData_ self), out, c)
  end.

(** [MidiInApi::setCallback]. The callback pointer is [true] when it is not
    null; the pointers themselves are not part of [RtMidiInData] here. *)
Definition setCallback (debug : bool) (fuel : nat) (callback : bool)
  (self : MidiInApi) : option (MidiInApi * list Event * Completion) :=
  if usingCallback (inputData_ self) then
    report debug fuel self WARNING
      "MidiInApi::setCallback: a callback function is already set!"
  else if negb callback then
    report debug fuel self WARNING
      "RtMidiIn::setCallback: callback function value is invalid!"
  else
    Some (mkMidiInApi (base self) (set_usingCallback true (inputData_ self)),
          [], Returns).

(** [MidiInApi::cancelCallback]. *)
Definition cancelCallback (debug : bool) (fuel : nat) (self : MidiInApi)
  : option (MidiInApi * list Event * Completion) :=
  if negb (usingCallback (inputData_ self)) then
    report debug fuel self WARNING
      "RtMidiIn::cancelCallback: no callback function was set!"
  else
    Some (mkMidiInApi (base self) (set_usingCallback false (inputData_ self)),
          [], Returns).

(** [MidiInApi::ignoreTypes]; [ignoreFlags] is an [unsigned char]. *)
Definition ignoreTypes (midiSysex midiTime midiSense : bool)
  (self : MidiInApi) : MidiInApi :=
  let flags0 := 0 in
  let flags1 := if midiSysex then 1 else flags0 in
  let flags2 := if midiTime then Z.lor flags1 2 else flags1 in
  let flags3 := if midiSense then Z.lor flags2 4 else flags2 in
  mkMidiInApi (base self) (set_ignoreFlags flags3 (inputData_ self)).

(** ** Sequences of queue operations *)

(** What the producer and the consumer do to the queue: a handler delivers a
    message, the application polls. *)
Inductive QueueOp :=
  | Deliver (m : MidiMessage)
  | Poll.

(** What each operation shows to the outside: the diagnostics of a delivery,
    the delta-time and bytes of a poll. *)
Inductive QueueResult :=
  | Delivered (out : list Event)
  | Polled (r : float * list Z).

(** A sequence of deliveries (the end of a handler) and polls
    ([getMessage]) on one object, as long as every poll returns. *)
Fixpoint run_queue_ops (who : string) (debug : bool) (fuel : nat)
  (self : MidiInApi) (ops : list QueueOp)
  : option (MidiInApi * list QueueResult) :=
  match ops with
  | [] => Some (self, [])
  | Deliver m :: rest =>
      let '(data, out) := deliver who (inputData_ self) m in
      match run_queue_ops who debug fuel (mkMidiInApi (base self) data) rest with
      | Some (self', rs) => Some (self', Delivered out :: rs)
      | None => None
      end
  | Poll :: rest =>
      match getMessage debug fuel self with
      | Some (self1, r, _, Returns) =>
          match run_queue_ops who debug fuel self1 rest with
          | Some (self', rs) => Some (self', Polled r :: rs)
          | None => None
          end
      | _ => None
      end
  end.

(** The diagnostic of a delivery that finds the queue full. *)
Definition queue_limit_reached (who : string) : list Event :=
  [Cerr (nl ++ who ++ ": message queue limit reached!!" ++ nl ++ nl)%string].

(** The same operations on a list of at most [capacity] messages, oldest
    first: the reference the ring buffer is compared with. *)
Fixpoint fifo_ops (who : string) (capacity : Z) (l : list MidiMessage)
  (ops : list QueueOp) : list MidiMessage * list QueueResult :=
  match ops with
  | [] => (l, [])
  | Deliver m :: rest =>
      if Z.of_nat (length l) <? capacity then
        let '(l', rs) := fifo_ops who capacity (l ++ [m]) rest in
        (l', Delivered [] :: rs)
      else
        let '(l', rs) := fifo_ops who capacity l rest in
        (l', Delivered (queue_limit_reached who) :: rs)
  | Poll :: rest =>
      match l with
      | [] =>
          let '(l', rs) := fifo_ops who capacity [] rest in
          (l', Polled (0%float, []) :: rs)
      | m :: l1 =>
          let '(l', rs) := fifo_ops who capacity l1 rest in
          (l', Polled (timeStamp m, bytes m) :: rs)
      end
  end.

(** ** ALSA: enumerating ports with [portInfo] *)

Module AlsaPorts.

(** What the queries on a port info return: the client and port numbers,
    the type bits and the capability bits. *)
Record snd_seq_port_info := mk_snd_seq_port_info {
  get_client : Z;
  get_port : Z;
  get_type : Z;
  get_capability : Z
}.

(** What the sequencer answers: the clients in the order in which
    [snd_seq_query_next_client] returns them, each with its number and with
    its ports in the order in which [snd_seq_query_next_port] returns
    them. *)
Definition sequencer : Type := list (Z * list snd_seq_port_info).

(** The cast [(int)] of an [unsigned int]. *)
Definition int_of_unsigned (z : Z) : Z :=
  if z <? 2 ^ 31 then z else z - 2 ^ 32.

Section PortInfo.

(** The masks [SND_SEQ_PORT_TYPE_MIDI_GENERIC] and [SND_SEQ_PORT_TYPE_SYNTH]
    of the ALSA headers. *)
Variables MIDI_GENERIC SYNTH : Z.

(** The two tests that let a port count. *)
Definition counts (type : Z) (pinfo : snd_seq_port_info) : bool :=
  let atyp := get_type pinfo in
  if (Z.land atyp MIDI_GENERIC =? 0) && (Z.land atyp SYNTH =? 0) then false
  else
    let caps := get_capability pinfo in
    if negb (Z.land caps type =? type) then false else true.

(** The inner loop of [portInfo] over the ports of one client: the port at
    which the function returns 1, or the count at the end of the loop. The
    counter is an [int] that stays far below 2^31. *)
Fixpoint portInfo_ports (type portNumber count : Z)
  (ports : list snd_seq_port_info) : Z + snd_seq_port_info :=
  match ports with
  | [] => inl count
  | pinfo :: rest =>
      if negb (counts type pinfo) then
        portInfo_ports type portNumber count rest
      else if count =? portNumber then inr pinfo
      else portInfo_ports type portNumber (count + 1) rest
  end.

(** The outer loop over the clients; client 0 is skipped. *)
Fixpoint portInfo_clients (type portNumber count : Z) (seq : sequencer)
  : Z + snd_seq_port_info :=
  match seq with
  | [] => inl count
  | (client, ports) :: rest =>
      if client =? 0 then portInfo_clients type portNumber count rest
      else
        match portInfo_ports type portNumber count ports with
        | inr pinfo => inr pinfo
        | inl count' => portInfo_clients type portNumber count' rest
        end
  end.

(** [portInfo]: the returned [unsigned int], and the port info that [pinfo]
    holds when the port was found. *)
Definition portInfo (seq : sequencer) (type portNumber : Z)
  : Z * option snd_seq_port_info :=
  match portInfo_clients type portNumber 0 seq with
  | inr pinfo => (1, Some pinfo)
  | inl count => (if portNumber <? 0 then wrap32 count else 0, None)
  end.

(** [MidiInAlsa::getPortCount] and [MidiOutAlsa::getPortCount], for the
    capability bits [type] that each of them asks for. *)
Definition getPortCount (seq : sequencer) (type : Z) : Z :=
  (portInfo seq type (-1)).1.

(** The ports that count, in the order of the enumeration. *)
Definition counted (seq : sequencer) (type : Z) : list snd_seq_port_info :=
  List.concat
    (List.map (fun c : Z * list snd_seq_port_info =>
                 if c.1 =? 0 then [] else List.filter (counts type) c.2) seq).

End PortInfo.

End AlsaPorts.

(** A byte as an [unsigned char] value. *)
Definition is_byte (b : Z) : Prop := 0 <= b < 256.

(** ** Windows MM: a sequence of inputs *)

(** The callback invoked for one input after the other, with the native time
    of each, and what each invocation hands over. *)
Fixpoint midiInputCallback_feed (data : RtMidiInData)
  (apiData : WinMM.WinMidiData) (inputs : list (WinMM.Input * Z))
  : RtMidiInData * WinMM.WinMidiData * list (option MidiMessage) :=
  match inputs with
  | [] => (data, apiData, [])
  | (input, timestamp) :: rest =>
      let r := (WinMM.midiInputCallback_assemble data apiData input timestamp).2 in
      let '(data1, apiData1, _) :=
        WinMM.midiInputCallback data apiData input timestamp in
      let '(data2, apiData2, rs) := midiInputCallback_feed data1 apiData1 rest in
      (data2, apiData2, r :: rs)
  end.

(** ** Windows MM: [MidiOutWinMM::sendMessage] *)

Module WinMMOut.

(** The calls [sendMessage] makes to the allocator and to the driver. *)
Inductive Call :=
  | malloc (nBytes : Z)
  | free
  | midiOutPrepareHeader (lpData : list Z) (dwBufferLength : Z)
  | midiOutLongMsg (lpData : list Z) (dwBufferLength : Z)
  | midiOutUnprepareHeader
  | Sleep (ms : Z)
  | midiOutShortMsg (packet : Z).

(** What the environment answers to them: whether the allocation succeeds,
    the results of the driver calls, how many times
    [midiOutUnprepareHeader] answers [MIDIERR_STILLPLAYING] before it
    answers something else, and the four bytes that the uninitialised
    [DWORD packet] holds. *)
Record Answers := mkAnswers {
  malloc_ok : bool;
  prepareHeader_result : Z;
  longMsg_result : Z;
  stillPlaying : nat;
  shortMsg_result : Z;
  packet_memory : list Z
}.

(** The value of a [DWORD] whose bytes in memory are [mem]
    (little-endian). *)
Definition DWORD_of_bytes (mem : list Z) : Z :=
  fold_right (fun b acc => b + 256 * acc) 0 mem.

(** "Pack MIDI bytes into double word": the loop that writes the bytes of
    the message through [ptr]. *)
Definition pack (message : list Z) (nBytes : nat) (mem : list Z) : list Z :=
  fold_left (fun mem i => <[i := message !!! i]> mem) (seq 0 nBytes) mem.

(** The lines [errorString_ = s; error( type, errorString_ );]. *)
Definition report (debug : bool) (fuel : nat) (self : MidiApi)
  (type : RtMidiErrorType) (errorString : string)
  : option (MidiApi * list Event * Completion) :=
  error debug fuel (set_errorString errorString self) type errorString.

(** The wait for the driver to release the header. *)
Definition unprepare_wait (n : nat) : list Call :=
  List.concat (repeat [midiOutUnprepareHeader; Sleep 1] n)
    ++ [midiOutUnprepareHeader].

(** [MidiOutWinMM::sendMessage]: the object, what is written to [cerr] or
    handed to the error callback, the calls made, and how the call ends. *)
Definition sendMessage (debug : bool) (fuel : nat) (env : Answers)
  (self : MidiApi) (message : list Z)
  : option (MidiApi * list Event * list Call * Completion) :=
  let with_calls (calls : list Call)
        (r : option (MidiApi * list Event * Completion)) :=
    match r with
    | None => None
    | Some (self', out, c) => Some (self', out, calls, c)
    end in
  if negb (connected_ self) then Some (self, [], [], Returns)
  else
    let nBytes := wrap32 (Z.of_nat (length message)) in
    if nBytes =? 0 then
      with_calls []
        (report debug fuel self WARNING
           "MidiOutWinMM::sendMessage: message argument is empty!")
    else if message !!! 0%nat =? 240 then
      if negb (malloc_ok env) then
        with_calls [malloc nBytes]
          (report debug fuel self MEMORY_ERROR
             "MidiOutWinMM::sendMessage: error allocating sysex message memory!")
      else
        let buffer := take (Z.to_nat nBytes) message in
        let prepare := [malloc nBytes; midiOutPrepareHeader buffer nBytes] in
        if negb (prepareHeader_result env =? WinMM.MMSYSERR_NOERROR) then
          with_calls (prepare ++ [free])
            (report debug fuel self DRIVER_ERROR
               "MidiOutWinMM::sendMessage: error preparing sysex header.")
        else
          let send := prepare ++ [midiOutLongMsg buffer nBytes] in
          if negb (longMsg_result env =? WinMM.MMSYSERR_NOERROR) then
            with_calls (send ++ [free])
              (report debug fuel self DRIVER_ERROR
                 "MidiOutWinMM::sendMessage: error sending sysex message.")
          else
            Some (self, [],
                  send ++ unprepare_wait (stillPlaying env) ++ [free],
                  Returns)
    else if 3 <? nBytes then
      with_calls []
        (report debug fuel self WARNING
           "MidiOutWinMM::sendMessage: message size is greater than 3 bytes (and not sysex)!")
    else
      let packet :=
        DWORD_of_bytes (pack message (Z.to_nat nBytes) (packet_memory env)) in
      if negb (shortMsg_result env =? WinMM.MMSYSERR_NOERROR) then
        with_calls [midiOutShortMsg packet]
          (report debug fuel self DRIVER_ERROR
             "MidiOutWinMM::sendMessage: error sending MIDI message.")
      else Some (self, [], [midiOutShortMsg packet], Returns).

End WinMMOut.

(** ** Delta-times along a run *)

(** The delta-times of messages stamped one after the other at the native
    times [times] by a handler that counts 64-bit microseconds: 0.0 for the
    first message of the connection, otherwise the unsigned difference to
    the time of the message before. *)
Fixpoint delta_times (first : bool) (last : Z) (times : list Z) : list float :=
  match times with
  | [] => []
  | t :: rest =>
      (if first then 0%float
       else (double_of_Z (wrap64 (t - last)) * 0.000001)%float)
        :: delta_times false t rest
  end.

(** The events of a run of the ALSA loop that handed a message over, each
    with its message. *)
Fixpoint handed_over (evs : list Alsa.snd_seq_event)
  (rs : list (option MidiMessage)) : list (Alsa.snd_seq_event * MidiMessage) :=
  match evs, rs with
  | ev :: evs', Some m :: rs' => (ev, m) :: handed_over evs' rs'
  | _ :: evs', None :: rs' => handed_over evs' rs'
  | _, _ => []
  end.

(** The messages that carry the bytes of the events of a JACK buffer and the
    delta-times of the times read for them. *)
Definition jack_messages (first : bool) (last : Z) (events : list (list Z * Z))
  : list MidiMessage :=
  zip_with mkMidiMessage (map fst events)
    (delta_times first last (map snd events)).

(** ** Choosing the backend: the constructors of [RtMidiIn] and [RtMidiOut] *)

(** The exception of a constructor that finds no backend compiled in; its
    type is [RtMidiError::UNSPECIFIED]. *)
Definition no_compiled_api (who : string) : RtMidiError :=
  mkRtMidiError
    (who ++ ": no compiled API support found ... critical error!!")
    UNSPECIFIED.

Module RtMidi.

(** [RtMidi::Api]. *)
Inductive Api :=
  | UNSPECIFIED | MACOSX_CORE | LINUX_ALSA | UNIX_JACK | WINDOWS_MM
  | RTMIDI_DUMMY.

Definition Api_eqb (a b : Api) : bool :=
  match a, b with
  | UNSPECIFIED, UNSPECIFIED | MACOSX_CORE, MACOSX_CORE
  | LINUX_ALSA, LINUX_ALSA | UNIX_JACK, UNIX_JACK
  | WINDOWS_MM, WINDOWS_MM | RTMIDI_DUMMY, RTMIDI_DUMMY => true
  | _, _ => false
  end.

(** Which of the macros [__MACOSX_CORE__], [__LINUX_ALSA__], [__UNIX_JACK__],
    [__WINDOWS_MM__] and [__RTMIDI_DUMMY__] are defined. *)
Record Build := mkBuild {
  defined_MACOSX_CORE : bool;
  defined_LINUX_ALSA : bool;
  defined_UNIX_JACK : bool;
  defined_WINDOWS_MM : bool;
  defined_RTMIDI_DUMMY : bool
}.

(** What the backends do when they are asked: how the constructor of the
    backend class ends (its [initialize] may report an error that throws),
    and what [getPortCount] returns on the object. *)
Record Backends := mkBackends {
  construct : Api -> Completion;
  portCount : Api -> Z
}.

(** [RtMidi::getCompiledApi]. *)
Definition getCompiledApi (b : Build) : list Api :=
  (if defined_MACOSX_CORE b then [MACOSX_CORE] else []) ++
  (if defined_LINUX_ALSA b then [LINUX_ALSA] else []) ++
  (if defined_UNIX_JACK b then [UNIX_JACK] else []) ++
  (if defined_WINDOWS_MM b then [WINDOWS_MM] else []) ++
  (if defined_RTMIDI_DUMMY b then [RTMIDI_DUMMY] else []).

(** One of the blocks [#if defined(X) if ( api == X ) rtapi_ = new ...;
    #endif] of [openMidiApi]; [rtapi_] is the API of the object it points
    to, or [None] for the null pointer. *)
Definition openMidiApi_case (env : Backends) (api : Api) (defined : bool)
  (X : Api) (st : option Api * Completion) : option Api * Completion :=
  match st with
  | (_, Throws _) => st
  | (rtapi_, Returns) =>
      if defined && Api_eqb api X then
        match construct env X with
        | Returns => (Some X, Returns)
        | Throws e => (rtapi_, Throws e)
        end
      else st
  end.

(** [RtMidiIn::openMidiApi] and [RtMidiOut::openMidiApi]: [rtapi_]
    afterwards and how the call ends. *)
Definition openMidiApi (b : Build) (env : Backends) (api : Api)
  : option Api * Completion :=
  let st0 : option Api * Completion := (None, Returns) in
  let st1 := openMidiApi_case env api (defined_UNIX_JACK b) UNIX_JACK st0 in
  let st2 := openMidiApi_case env api (defined_LINUX_ALSA b) LINUX_ALSA st1 in
  let st3 := openMidiApi_case env api (defined_WINDOWS_MM b) WINDOWS_MM st2 in
  let st4 := openMidiApi_case env api (defined_MACOSX_CORE b) MACOSX_CORE st3 in
  openMidiApi_case env api (defined_RTMIDI_DUMMY b) RTMIDI_DUMMY st4.

(** How a constructor of [RtMidiIn] or [RtMidiOut] ends: with an object of
    a backend, with an exception, or by calling [getPortCount] through a
    null [rtapi_]. *)
Inductive Constructed :=
  | Object (api : Api)
  | Exception (e : RtMidiError)
  | NullPointer.

(** The loop over the compiled APIs: [rtapi_] at the end of the loop. *)
Fixpoint search (b : Build) (env : Backends) (apis : list Api)
  (rtapi_ : option Api) : option Api + Constructed :=
  match apis with
  | [] => inl rtapi_
  | api :: rest =>
      match openMidiApi b env api with
      | (_, Throws e) => inr (Exception e)
      | (None, Returns) => inr NullPointer
      | (Some X, Returns) =>
          if negb (portCount env X =? 0) then inl (Some X)
          else search b env rest (Some X)
      end
  end.

(** [RtMidiIn::RtMidiIn] and [RtMidiOut::RtMidiOut] ([who] is the name of
    the class): what is written to [cerr] and how the constructor ends. *)
Definition RtMidi_new (who : string) (b : Build) (env : Backends) (api : Api)
  : list Event * Constructed :=
  let warning :=
    [Cerr (nl ++ who ++ ": no compiled support for specified API argument!"
             ++ nl ++ nl ++ nl)%string] in
  let fallback (out : list Event) :=
    match search b env (getCompiledApi b) None with
    | inr c => (out, c)
    | inl (Some X) => (out, Object X)
    | inl None => (out, Exception (no_compiled_api who))
    end in
  if negb (Api_eqb api UNSPECIFIED) then
    match openMidiApi b env api with
    | (_, Throws e) => ([], Exception e)
    | (Some X, Returns) => ([], Object X)
    | (None, Returns) => fallback warning
    end
  else fallback [].

(** Whether the macro of an API is defined. *)
Definition compiled (b : Build) (api : Api) : bool :=
  match api with
  | UNSPECIFIED => false
  | MACOSX_CORE => defined_MACOSX_CORE b
  | LINUX_ALSA => defined_LINUX_ALSA b
  | UNIX_JACK => defined_UNIX_JACK b
  | WINDOWS_MM => defined_WINDOWS_MM b
  | RTMIDI_DUMMY => defined_RTMIDI_DUMMY b
  end.

End RtMidi.

(** ** Windows MM: ports *)

(** What [ostream << n] writes for an [unsigned int]: the decimal digits of
    [n]. *)
Definition ostream_unsigned (n : Z) : string :=
  NilEmpty.string_of_uint (N.to_uint (Z.to_N n)).

Module WinMMPort.

(** The calls of [MidiInWinMM] to the driver and to the critical section. *)
Inductive Call :=
  | midiInOpen (portNumber : Z)
  | midiInPrepareHeader (i : nat)
  | midiInAddBuffer (i : nat)
  | midiInStart
  | midiInClose
  | midiInReset
  | midiInStop
  | midiInUnprepareHeader (i : nat)
  | EnterCriticalSection
  | LeaveCriticalSection.

(** What the driver answers: the number of devices, the name in the
    capabilities of each device, and the results of the calls (those on a
    sysex buffer by the index of the buffer). *)
Record Driver := mkDriver {
  midiInGetNumDevs : Z;
  szPname : Z -> string;
  midiInOpen_result : Z;
  midiInPrepareHeader_result : nat -> Z;
  midiInAddBuffer_result : nat -> Z;
  midiInStart_result : Z;
  midiInUnprepareHeader_result : nat -> Z
}.

Definition RT_SYSEX_BUFFER_COUNT : nat := 4.

Definition MMSYSERR_NOERROR : Z := 0.

(** A member function that ends by [errorString_ = s; error( type,
    errorString_ ); return;] after the calls [calls]. *)
Definition fail (debug : bool) (fuel : nat) (self : MidiApi)
  (calls : list Call) (type : RtMidiErrorType) (errorString : string)
  : option (MidiApi * list Event * list Call * Completion) :=
  match error debug fuel (set_errorString errorString self) type errorString with
  | None => None
  | Some (self', out, c) => Some (self', out, calls, c)
  end.

Definition set_connected (b : bool) (self : MidiApi) : MidiApi :=
  mkMidiApi b (errorString_ self) (errorCallback_ self)
    (firstErrorOccurred_ self).

(** [MidiInWinMM::getPortName]: the object, the returned name, what is
    reported and how the call ends. *)
Definition getPortName (debug : bool) (fuel : nat) (env : Driver)
  (self : MidiApi) (portNumber : Z)
  : option (MidiApi * string * list Event * Completion) :=
  let stringName := EmptyString in
  let nDevices := midiInGetNumDevs env in
  if nDevices <=? portNumber then
    let errorString :=
      ("MidiInWinMM::getPortName: the 'portNumber' argument ("
         ++ ostream_unsigned portNumber ++ ") is invalid.")%string in
    match error debug fuel (set_errorString errorString self)
            WARNING errorString with
    | None => None
    | Some (self', out, c) => Some (self', stringName, out, c)
    end
  else
    let stringName := szPname env portNumber in
    let stringName :=
      (stringName ++ (" " ++ ostream_unsigned portNumber))%string in
    Some (self, stringName, [], Returns).

(** The loop of [openPort] over the sysex buffers [buffers]: the calls it makes
    and, when it leaves the function, the error it reports. *)
Fixpoint openPort_buffers (env : Driver) (buffers : list nat)
  : list Call * option string :=
  match buffers with
  | [] => ([], None)
  | i :: rest =>
      if negb (midiInPrepareHeader_result env i =? MMSYSERR_NOERROR) then
        ([midiInPrepareHeader i; midiInClose],
         Some "MidiInWinMM::openPort: error starting Windows MM MIDI input port (PrepareHeader)."%string)
      else if negb (midiInAddBuffer_result env i =? MMSYSERR_NOERROR) then
        ([midiInPrepareHeader i; midiInAddBuffer i; midiInClose],
         Some "MidiInWinMM::openPort: error starting Windows MM MIDI input port (AddBuffer)."%string)
      else
        let '(calls, r) := openPort_buffers env rest in
        (midiInPrepareHeader i :: midiInAddBuffer i :: calls, r)
  end.

(** [MidiInWinMM::openPort]. *)
Definition openPort (debug : bool) (fuel : nat) (env : Driver)
  (self : MidiApi) (portNumber : Z)
  : option (MidiApi * list Event * list Call * Completion) :=
  if connected_ self then
    fail debug fuel self [] WARNING
      "MidiInWinMM::openPort: a valid connection already exists!"
  else
    let nDevices := midiInGetNumDevs env in
    if nDevices =? 0 then
      fail debug fuel self [] NO_DEVICES_FOUND
        "MidiInWinMM::openPort: no MIDI input sources found!"
    else if nDevices <=? portNumber then
      fail debug fuel self [] INVALID_PARAMETER
        ("MidiInWinMM::openPort: the 'portNumber' argument ("
           ++ ostream_unsigned portNumber ++ ") is invalid.")
    else if negb (midiInOpen_result env =? MMSYSERR_NOERROR) then
      fail debug fuel self [midiInOpen portNumber] DRIVER_ERROR
        "MidiInWinMM::openPort: error creating Windows MM MIDI input port."
    else
      match openPort_buffers env (seq 0 RT_SYSEX_BUFFER_COUNT) with
      | (calls, Some errorString) =>
          fail debug fuel self (midiInOpen portNumber :: calls) DRIVER_ERROR
            errorString
      | (calls, None) =>
          if negb (midiInStart_result env =? MMSYSERR_NOERROR) then
            fail debug fuel self
              (midiInOpen portNumber :: calls ++ [midiInStart; midiInClose])
              DRIVER_ERROR
              "MidiInWinMM::openPort: error starting Windows MM MIDI input port."
          else
            Some (set_connected true self, [],
                  midiInOpen portNumber :: calls ++ [midiInStart], Returns)
      end.

(** The loop of [closePort] over the sysex buffers: the calls, and whether
    the loop left the function. *)
Fixpoint closePort_buffers (env : Driver) (buffers : list nat)
  : list Call * bool :=
  match buffers with
  | [] => ([], false)
  | i :: rest =>
      if negb (midiInUnprepareHeader_result env i =? MMSYSERR_NOERROR) then
        ([midiInUnprepareHeader i; midiInClose], true)
      else
        let '(calls, r) := closePort_buffers env rest in
        (midiInUnprepareHeader i :: calls, r)
  end.

(** [MidiInWinMM::closePort]. *)
Definition closePort (debug : bool) (fuel : nat) (env : Driver)
  (self : MidiApi) : option (MidiApi * list Event * list Call * Completion) :=
  if connected_ self then
    let enter := [EnterCriticalSection; midiInReset; midiInStop] in
    match closePort_buffers env (seq 0 RT_SYSEX_BUFFER_COUNT) with
    | (calls, true) =>
        fail debug fuel self (enter ++ calls) DRIVER_ERROR
          "MidiInWinMM::openPort: error closing Windows MM MIDI input port (midiInUnprepareHeader)."
    | (calls, false) =>
        Some (set_connected false self, [],
              enter ++ calls ++ [midiInClose; LeaveCriticalSection], Returns)
    end
  else Some (self, [], [], Returns).

End WinMMPort.

(** ** ALSA: [MidiOutAlsa::sendMessage] *)

Module AlsaOut.

(** The calls [sendMessage] makes to the coder, the allocator and the
    sequencer; the encoder is called with what the first [count] bytes of
    the block at [data->buffer] hold ([None] for the null pointer). *)
Inductive Call :=
  | snd_midi_event_resize_buffer (bufsize : Z)
  | free
  | malloc (size : Z)
  | snd_midi_event_encode (buf : option (list Z)) (count : Z)
  | snd_seq_event_output
  | snd_seq_drain_output.

(** What the environment answers: the results of the calls, and for an
    allocation the block it returns ([None] for the null pointer). *)
Record Sequencer := mkSequencer {
  resize_buffer_result : Z;
  malloc_result : Z -> option (list Z);
  encode_result : Z;
  event_output_result : Z
}.

(** The fields of [AlsaMidiData] that [sendMessage] uses: [buffer] is the
    block that the pointer refers to, or [None] for the null pointer. *)
Record AlsaMidiData := mkAlsaMidiData {
  bufferSize : Z;
  buffer : option (list Z)
}.

(** How a call ends: it runs to its end, or it stores through
    [data->buffer[i]] outside the block. *)
Inductive Outcome :=
  | Finished (self : MidiApi) (data : AlsaMidiData) (out : list Event)
      (calls : list Call) (c : Completion)
  | OutOfBounds (i : nat).

(** The loop [for ( i=0; i<nBytes; ++i ) data->buffer[i] = message->at(i);]
    over the indices [indices]: the block afterwards, or the index of the
    first store outside it. *)
Fixpoint store (message : list Z) (indices : list nat)
  (block : option (list Z)) : option (list Z) + nat :=
  match indices with
  | [] => inl block
  | i :: rest =>
      match block with
      | Some mem =>
          if (i <? length mem)%nat then
            store message rest (Some (<[i := message !!! i]> mem))
          else inr i
      | None => inr i
      end
  end.

Definition finish (debug : bool) (fuel : nat) (self : MidiApi)
  (data : AlsaMidiData) (calls : list Call) (type : RtMidiErrorType)
  (errorString : string) : option Outcome :=
  match error debug fuel (set_errorString errorString self) type errorString with
  | None => None
  | Some (self', out, c) => Some (Finished self' data out calls c)
  end.

(** [sendMessage] from [snd_seq_event_t ev;] on. *)
Definition sendMessage_event (debug : bool) (fuel : nat) (env : Sequencer)
  (self : MidiApi) (data : AlsaMidiData) (calls : list Call)
  (message : list Z) (nBytes : Z) : option Outcome :=
  match store message (seq 0 (Z.to_nat nBytes)) (buffer data) with
  | inr i => Some (OutOfBounds i)
  | inl block =>
      let data := mkAlsaMidiData (bufferSize data) block in
      let calls :=
        calls ++ [snd_midi_event_encode
                    (option_map (take (Z.to_nat nBytes)) block) nBytes] in
      if encode_result env <? AlsaPorts.int_of_unsigned nBytes then
        finish debug fuel self data calls WARNING
          "MidiOutAlsa::sendMessage: event parsing error!"
      else
        let calls := calls ++ [snd_seq_event_output] in
        if event_output_result env <? 0 then
          finish debug fuel self data calls WARNING
            "MidiOutAlsa::sendMessage: error sending MIDI message to port."
        else
          Some (Finished self data [] (calls ++ [snd_seq_drain_output])
                  Returns)
  end.

(** [MidiOutAlsa::sendMessage]. *)
Definition sendMessage (debug : bool) (fuel : nat) (env : Sequencer)
  (self : MidiApi) (data : AlsaMidiData) (message : list Z)
  : option Outcome :=
  let nBytes := wrap32 (Z.of_nat (length message)) in
  if bufferSize data <? nBytes then
    let data := mkAlsaMidiData nBytes (buffer data) in
    let calls := [snd_midi_event_resize_buffer nBytes] in
    if negb (resize_buffer_result env =? 0) then
      finish debug fuel self data calls DRIVER_ERROR
        "MidiOutAlsa::sendMessage: ALSA error resizing MIDI event buffer."
    else
      let calls := calls ++ [free; malloc (bufferSize data)] in
      let data :=
        mkAlsaMidiData (bufferSize data) (malloc_result env (bufferSize data)) in
      match buffer data with
      | None =>
          finish debug fuel self data calls MEMORY_ERROR
            ("MidiOutAlsa::initialize: error allocating buffer memory!"
               ++ nl ++ nl)%string
      | Some _ =>
          sendMessage_event debug fuel env self data calls message nBytes
      end
  else sendMessage_event debug fuel env self data [] message nBytes.

(** A block of [bufferSize] bytes is behind [buffer], as after
    [data->bufferSize = 32; ... data->buffer = malloc( data->bufferSize )]
    in [MidiOutAlsa::initialize]. *)
Definition buffer_ok (data : AlsaMidiData) : bool :=
  match buffer data with
  | Some mem => bufferSize data =? Z.of_nat (length mem)
  | None => false
  end.

(** An allocation that succeeds gives a block of the size asked for. *)
Definition malloc_sized (env : Sequencer) : Prop :=
  forall size mem,
    malloc_result env size = Some mem -> Z.of_nat (length mem) = size.

End AlsaOut.


(** * Properties *)

(** ** The input queue *)

Section InputQueue.

Variable who : string.
Variable debug : bool.

Lemma wrap32_small (z : Z) : 0 <= z < 2 ^ 32 -> wrap32 z = z.
Proof. intros H. unfold wrap32. apply Z.mod_small. exact H. Qed.

(** In queue mode [getMessage] needs no fuel: it does not report. *)
Lemma getMessage_empty (fuel : nat) (self : MidiInApi) :
  usingCallback (inputData_ self) = false ->
  size (queue (inputData_ self)) = 0 ->
  getMessage debug fuel self = Some (self, (0%float, []), [], Returns).
Proof.
  intros Hcb Hsz. unfold getMessage. rewrite Hcb, Hsz. reflexivity.
Qed.

(** While the callback runs a further report is dropped. *)
Lemma error_suppressed (fuel : nat) (self : MidiApi)
  (type : RtMidiErrorType) (errorString : string) :
  errorCallback_ self <> None ->
  firstErrorOccurred_ self = true ->
  error debug (S fuel) self type errorString = Some (self, [], Returns).
Proof.
  intros Hcb Hfirst. cbn [error].
  destruct (errorCallback_ self) as [cb|]; [|congruence].
  rewrite Hfirst. reflexivity.
Qed.

Lemma run_callback_suppressed (fuel : nat) (self : MidiApi)
  (calls : list (RtMidiErrorType * string)) :
  errorCallback_ self <> None ->
  firstErrorOccurred_ self = true ->
  run_callback (error debug (S fuel)) self calls = Some (self, [], Returns).
Proof.
  intros Hcb Hfirst. induction calls as [|[type errorString] rest IH].
  - reflexivity.
  - cbn [run_callback]. rewrite error_suppressed by assumption.
    rewrite IH. reflexivity.
Qed.

(** One unfolding of [error]. *)
Lemma error_step (fuel : nat) (self : MidiApi) (type : RtMidiErrorType)
  (errorString : string) (cb : RtMidiErrorCallback) :
  errorCallback_ self = Some cb ->
  firstErrorOccurred_ self = false ->
  error debug (S fuel) self type errorString =
    match run_callback (error debug fuel) (set_firstErrorOccurred true self)
            (cb type errorString) with
    | None => None
    | Some (self2, out, Throws e) =>
        Some (self2, ErrorCallback type errorString :: out, Throws e)
    | Some (self2, out, Returns) =>
        Some (set_firstErrorOccurred false self2,
              ErrorCallback type errorString :: out, Returns)
    end.
Proof. intros Hcb Hfirst. simpl. rewrite Hcb, Hfirst. reflexivity. Qed.

Lemma set_firstErrorOccurred_id (self : MidiApi) :
  set_firstErrorOccurred (firstErrorOccurred_ self)
    (set_firstErrorOccurred true self) = self.
Proof. destruct self. reflexivity. Qed.

(** With a callback set, two levels of fuel settle every report. *)
Lemma error_with_callback (fuel : nat) (self : MidiApi)
  (cb : RtMidiErrorCallback) (type : RtMidiErrorType) (errorString : string) :
  errorCallback_ self = Some cb ->
  error debug (S (S fuel)) self type errorString =
    if firstErrorOccurred_ self then Some (self, [], Returns)
    else Some (self, [ErrorCallback type errorString], Returns).
Proof.
  intros Hcb.
  destruct (firstErrorOccurred_ self) eqn:Hfirst.
  - apply error_suppressed; congruence.
  - rewrite (error_step _ _ _ _ cb) by assumption.
    rewrite run_callback_suppressed; [| cbn; congruence | reflexivity].
    rewrite <- Hfirst at 1. rewrite set_firstErrorOccurred_id. reflexivity.
Qed.

Lemma set_queue_id (data : RtMidiInData) : set_queue (queue data) data = data.
Proof. destruct data. reflexivity. Qed.

(** A warning never throws: with two levels of fuel the report returns and
    leaves the object as it was. *)
Lemma error_warning (fuel : nat) (self : MidiApi) (errorString : string) :
  exists out,
    error debug (S (S fuel)) self WARNING errorString =
      Some (self, out, Returns).
Proof.
  destruct (errorCallback_ self) as [cb|] eqn:Hcb.
  - rewrite (error_with_callback _ _ cb) by assumption.
    destruct (firstErrorOccurred_ self); eauto.
  - simpl. rewrite Hcb. eauto.
Qed.

(** C2. A push on a queue whose size equals its capacity is refused: the
    push returns [false] and writes the queue-limit diagnostic, and the
    queue (size, front, back and every slot) is as before. The same holds
    for the end of a handler that delivers to the queue. *)
Theorem push_full_refused (q : MidiQueue) (data : RtMidiInData)
  (m : MidiMessage) :
  size q = ringSize q ->
  queue_push who q m =
    (q, false,
     [Cerr (nl ++ who ++ ": message queue limit reached!!" ++ nl ++ nl)%string])
  /\ (usingCallback data = false -> queue data = q ->
      deliver who data m =
        (data,
         [Cerr (nl ++ who ++ ": message queue limit reached!!" ++ nl ++ nl)%string])).
Proof.
  intros Hfull.
  assert (Hpush : queue_push who q m =
    (q, false,
     [Cerr (nl ++ who ++ ": message queue limit reached!!" ++ nl ++ nl)%string])).
  { unfold queue_push. rewrite Hfull, Z.ltb_irrefl. reflexivity. }
  split; [exact Hpush|].
  intros Hcb Hq. unfold deliver. rewrite Hcb, Hq, Hpush.
  rewrite <- Hq, set_queue_id. reflexivity.
Qed.

(** With a user callback set the poll reports a warning and returns no
    data, whatever the queue holds. *)
Lemma pop_empty_or_callback (fuel : nat) (self : MidiInApi) :
  usingCallback (inputData_ self) = true ->
  exists base' out,
    getMessage debug (S (S fuel)) self =
      Some (mkMidiInApi base' (inputData_ self), (0%float, []), out, Returns).
Proof.
  intros Hcb. unfold getMessage. rewrite Hcb.
  match goal with
  | |- context [error debug _ ?b WARNING ?s] =>
      destruct (error_warning fuel b s) as [out Hout]
  end.
  rewrite Hout. eauto.
Qed.

(** C3. A poll of a queue of size 0 returns at once with no data (an empty
    message and 0.0) and leaves the input data, the queue in it included,
    as they were; in queue mode nothing else changes and nothing is
    written. *)
Theorem pop_empty (fuel : nat) (self : MidiInApi) :
  size (queue (inputData_ self)) = 0 ->
  (exists base' out,
     getMessage debug (S (S fuel)) self =
       Some (mkMidiInApi base' (inputData_ self), (0%float, []), out, Returns))
  /\ (usingCallback (inputData_ self) = false ->
      forall n, getMessage debug n self =
                  Some (self, (0%float, []), [], Returns)).
Proof.
  intros Hsz. split.
  - destruct (usingCallback (inputData_ self)) eqn:Hcb.
    + apply pop_empty_or_callback. exact Hcb.
    + rewrite getMessage_empty by assumption.
      exists (base self), []. destruct self; reflexivity.
  - intros Hcb n. apply getMessage_empty; assumption.
Qed.

End InputQueue.

(** ** The queue is a FIFO *)

Section Fifo.

Variable who : string.
Variable debug : bool.

(** Two offsets from [front] that differ by less than the capacity name
    different slots. *)
Lemma mod_offsets_differ (f i s c : Z) :
  0 <= i < s -> s < c ->
  (f + i) mod c <> (f + s) mod c.
Proof.
  intros Hi Hs Heq.
  assert (Hc : 0 < c) by lia.
  pose proof (Z.div_mod (f + i) c ltac:(lia)) as E1.
  pose proof (Z.div_mod (f + s) c ltac:(lia)) as E2.
  rewrite Heq in E1.
  assert (E : s - i = c * ((f + s) / c - (f + i) / c)) by lia.
  assert (0 < (f + s) / c - (f + i) / c) by nia.
  nia.
Qed.

(** Stepping an index as the code does is stepping it modulo the
    capacity. *)
Lemma step_index (i c : Z) :
  0 <= i < c -> c < 2 ^ 32 ->
  (if wrap32 (i + 1) =? c then 0 else wrap32 (i + 1)) = (i + 1) mod c.
Proof.
  intros Hi Hc. rewrite wrap32_small by lia.
  destruct (Z.eqb_spec (i + 1) c) as [E|E].
  - rewrite E, Z.mod_same by lia. reflexivity.
  - rewrite Z.mod_small by lia. reflexivity.
Qed.

(** A push on a well-formed queue with room stores the message behind the
    queued ones. *)
Lemma push_contents (q : MidiQueue) (m : MidiMessage) :
  queue_wf q -> size q < ringSize q ->
  exists q', queue_push who q m = (q', true, []) /\
             queue_wf q' /\
             ringSize q' = ringSize q /\
             size q' = size q + 1 /\
             contents q' = contents q ++ [m].
Proof.
  intros (Hsz & Hcap & Hlen & Hpos) Hroom.
  destruct Hpos as [Hzero | [Hfront Hback]]; [lia|].
  assert (Hb : 0 <= back q < ringSize q).
  { rewrite Hback. apply Z.mod_pos_bound. lia. }
  unfold queue_push. apply Z.ltb_lt in Hroom as Hlt. rewrite Hlt.
  eexists. split; [reflexivity|].
  rewrite step_index by lia. rewrite wrap32_small by lia.
  split; [|split; [reflexivity|split; [reflexivity|]]].
  - unfold queue_wf; cbn. rewrite length_insert.
    repeat split; try lia. right. split; [lia|].
    rewrite Hback, Zplus_mod_idemp_l. f_equal. lia.
  - unfold contents, slot_index; cbn.
    replace (Z.to_nat (size q + 1)) with (S (Z.to_nat (size q))) by lia.
    rewrite seq_S, map_app. cbn. f_equal.
    + apply map_ext_in. intros i Hi. apply in_seq in Hi.
      apply list_lookup_total_insert_ne.
      intros E. apply Z2Nat.inj in E.
      * rewrite Hback in E. symmetry in E. revert E.
        apply mod_offsets_differ; lia.
      * lia.
      * apply Z.mod_pos_bound. lia.
    + f_equal. rewrite Z2Nat.id by lia. rewrite <- Hback.
      apply list_lookup_total_insert_eq. lia.
Qed.

(** A poll of a well-formed queue that is not empty returns the oldest
    message and leaves the others. *)
Lemma pop_contents (fuel : nat) (self : MidiInApi) :
  let q := queue (inputData_ self) in
  usingCallback (inputData_ self) = false ->
  queue_wf q -> 0 < size q ->
  exists q' m rest,
    getMessage debug fuel self =
      Some (with_queue q' self, polled m, [], Returns) /\
    contents q = m :: rest /\
    queue_wf q' /\
    ringSize q' = ringSize q /\
    size q' = size q - 1 /\
    contents q' = rest.
Proof.
  intros q Hcb (Hsz & Hcap & Hlen & Hpos) Hne.
  destruct Hpos as [Hzero | [Hfront Hback]]; [lia|].
  unfold getMessage. rewrite Hcb. fold q.
  destruct (Z.eqb_spec (size q) 0) as [E|_]; [lia|].
  rewrite step_index by lia. rewrite wrap32_small by lia.
  eexists _, (ring q !!! Z.to_nat (front q)), _.
  split; [reflexivity|].
  assert (Hn : Z.to_nat (size q) = S (Z.to_nat (size q - 1))) by lia.
  split; [|split; [|split; [reflexivity|split; [reflexivity|reflexivity]]]].
  - unfold contents. rewrite Hn. cbn [seq map]. f_equal.
    + unfold slot_index. rewrite Z.add_0_r, Z.mod_small by lia. reflexivity.
    + rewrite <- seq_shift, map_map. cbn.
      apply map_ext. intros i. unfold slot_index; cbn.
      rewrite Zplus_mod_idemp_l. do 3 f_equal. lia.
  - unfold queue_wf; cbn. repeat split; try lia.
    right. split; [apply Z.mod_pos_bound; lia|].
    rewrite Zplus_mod_idemp_l, Hback. f_equal. lia.
Qed.

Lemma push_all_contents (msgs : list MidiMessage) :
  forall q : MidiQueue,
  queue_wf q -> size q + Z.of_nat (length msgs) <= ringSize q ->
  exists q', push_all who q msgs = (q', replicate (length msgs) true) /\
             queue_wf q' /\
             ringSize q' = ringSize q /\
             size q' = size q + Z.of_nat (length msgs) /\
             contents q' = contents q ++ msgs.
Proof.
  induction msgs as [|m msgs IH]; intros q Hwf Hroom.
  - exists q. cbn. rewrite app_nil_r. split_and!; [done | done | done | lia | done].
  - cbn [length] in Hroom.
    destruct (push_contents q m Hwf ltac:(lia))
      as (q1 & Hpush & Hwf1 & Hcap1 & Hsz1 & Hc1).
    destruct (IH q1 Hwf1 ltac:(lia)) as (q2 & Hall & Hwf2 & Hcap2 & Hsz2 & Hc2).
    exists q2. cbn [push_all length replicate]. rewrite Hpush, Hall.
    split_and!; [done | done | congruence | lia |].
    rewrite Hc2, Hc1, <- app_assoc. reflexivity.
Qed.

Lemma with_queue_twice (q1 q2 : MidiQueue) (self : MidiInApi) :
  with_queue q2 (with_queue q1 self) = with_queue q2 self.
Proof. reflexivity. Qed.

Lemma with_queue_same (self : MidiInApi) :
  with_queue (queue (inputData_ self)) self = self.
Proof. destruct self as [b d]. unfold with_queue; cbn.
  rewrite set_queue_id. reflexivity. Qed.

Lemma getMessage_n_contents (fuel : nat) (msgs : list MidiMessage) :
  forall self : MidiInApi,
  usingCallback (inputData_ self) = false ->
  queue_wf (queue (inputData_ self)) ->
  contents (queue (inputData_ self)) = msgs ->
  exists q',
    getMessage_n debug fuel (length msgs) self =
      Some (with_queue q' self, map polled msgs) /\
    size q' = 0.
Proof.
  induction msgs as [|m msgs IH]; intros self Hcb Hwf Hc.
  - exists (queue (inputData_ self)). cbn. rewrite with_queue_same.
    split; [reflexivity|].
    apply (f_equal (@length _)) in Hc. unfold contents in Hc.
    rewrite length_map, length_seq in Hc. cbn in Hc.
    destruct Hwf as (? & _). lia.
  - assert (Hpos : 0 < size (queue (inputData_ self))).
    { apply (f_equal (@length _)) in Hc. unfold contents in Hc.
      rewrite length_map, length_seq in Hc. cbn in Hc. lia. }
    destruct (pop_contents fuel self Hcb Hwf Hpos)
      as (q1 & m' & rest & Hpop & Hc1 & Hwf1 & _ & _ & Hrest).
    rewrite Hc in Hc1. injection Hc1 as <- <-.
    destruct (IH (with_queue q1 self)) as (q2 & Hn & Hsz2);
      [exact Hcb | exact Hwf1 | exact Hrest |].
    exists q2. cbn [length getMessage_n map]. rewrite Hpop, Hn.
    rewrite with_queue_twice. split; [reflexivity | exact Hsz2].
Qed.

Lemma contents_empty (q : MidiQueue) : size q = 0 -> contents q = [].
Proof. intros E. unfold contents. rewrite E. reflexivity. Qed.

(** C1. Pushing N messages, N at most the capacity, into an empty queue
    stores every one of them, and N polls then return exactly these
    messages, oldest first, each with the bytes and the delta-time that was
    pushed; the queue is empty again. *)
Theorem push_pop_roundtrip (fuel : nat) (self : MidiInApi)
  (msgs : list MidiMessage) :
  usingCallback (inputData_ self) = false ->
  queue_wf (queue (inputData_ self)) ->
  size (queue (inputData_ self)) = 0 ->
  Z.of_nat (length msgs) <= ringSize (queue (inputData_ self)) ->
  exists q1 q2,
    push_all who (queue (inputData_ self)) msgs =
      (q1, replicate (length msgs) true) /\
    getMessage_n debug fuel (length msgs) (with_queue q1 self) =
      Some (with_queue q2 self, map polled msgs) /\
    size q2 = 0.
Proof.
  intros Hcb Hwf Hempty Hn.
  destruct (push_all_contents msgs _ Hwf ltac:(lia))
    as (q1 & Hall & Hwf1 & _ & _ & Hc1).
  rewrite (contents_empty _ Hempty) in Hc1. cbn in Hc1.
  destruct (getMessage_n_contents fuel msgs (with_queue q1 self))
    as (q2 & Hpops & Hsz2); [exact Hcb | exact Hwf1 | exact Hc1 |].
  exists q1, q2. rewrite with_queue_twice in Hpops. auto.
Qed.

(** The queue a new [MidiInApi] starts with is well-formed and empty. *)
Lemma MidiQueue_new_wf (queueSizeLimit : Z) :
  0 <= queueSizeLimit < 2 ^ 32 -> queue_wf (MidiQueue_new queueSizeLimit).
Proof.
  intros H. unfold queue_wf, MidiQueue_new; cbn.
  rewrite length_replicate.
  repeat split; try lia.
  destruct (Z.eq_dec queueSizeLimit 0); [left; assumption|right].
  split; [lia|]. rewrite Z.mod_small by lia. reflexivity.
Qed.

(** A push keeps the invariant. *)
Lemma queue_push_inv (q : MidiQueue) (m : MidiMessage) :
  queue_inv q -> queue_inv (queue_push who q m).1.1.
Proof.
  intros Hinv. pose proof Hinv as (Hsz & Hf & Hb & Hcap).
  unfold queue_push.
  destruct (Z.ltb_spec (size q) (ringSize q)) as [Hlt|Hge]; cbn.
  - rewrite step_index by lia. rewrite wrap32_small by lia.
    unfold queue_inv; cbn.
    pose proof (Z.mod_pos_bound (back q + 1) (ringSize q) ltac:(lia)).
    lia.
  - exact Hinv.
Qed.

(** C4. A push and a poll each preserve the invariant of the queue (the
    size is between 0 and the capacity, [front] and [back] are indices
    below the capacity), the poll returns, and a push on a full queue
    leaves every slot as it was. *)
Theorem queue_inv_preserved (fuel : nat) (self : MidiInApi)
  (m : MidiMessage) :
  queue_inv (queue (inputData_ self)) ->
  (queue_inv (queue_push who (queue (inputData_ self)) m).1.1 /\
   (size (queue (inputData_ self)) = ringSize (queue (inputData_ self)) ->
    ring (queue_push who (queue (inputData_ self)) m).1.1 =
      ring (queue (inputData_ self))))
  /\ (exists self' r out,
        getMessage debug (S (S fuel)) self = Some (self', r, out, Returns) /\
        queue_inv (queue (inputData_ self'))).
Proof.
  intros Hinv. pose proof Hinv as (Hsz & Hf & Hb & Hcap).
  set (q := queue (inputData_ self)) in *.
  split; [split|].
  - apply queue_push_inv. exact Hinv.
  - intros Hfull. unfold queue_push. rewrite Hfull, Z.ltb_irrefl.
    reflexivity.
  - destruct (usingCallback (inputData_ self)) eqn:Hcb.
    + destruct (pop_empty_or_callback debug fuel self Hcb) as (b & out & E).
      rewrite E. eexists _, _, _. split; [reflexivity|]. exact Hinv.
    + unfold getMessage. rewrite Hcb. fold q.
      destruct (Z.eqb_spec (size q) 0) as [E|E].
      * eexists _, _, _. split; [reflexivity|]. exact Hinv.
      * eexists _, _, _. split; [reflexivity|].
        rewrite step_index by lia. rewrite wrap32_small by lia.
        unfold queue_inv; cbn.
        pose proof (Z.mod_pos_bound (front q + 1) (ringSize q) ltac:(lia)).
        lia.
Qed.

(** So does the end of every handler. *)
Lemma deliver_queue_inv (data : RtMidiInData) (m : MidiMessage) :
  queue_inv (queue data) -> queue_inv (queue (deliver who data m).1).
Proof.
  intros Hinv. unfold deliver. destruct (usingCallback data); [exact Hinv|].
  pose proof (queue_push_inv (queue data) m Hinv) as H.
  destruct (queue_push who (queue data) m) as [[q ok] out]. exact H.
Qed.

End Fifo.

(** ** Error reporting *)

Section ErrorReporting.

Variable debug : bool.

(** C10. With an error callback registered, a report made outside the
    callback is delivered to it exactly once and the call returns: whatever
    reports the callback makes while it runs are dropped, and a report made
    while the callback runs returns without delivering. With no callback,
    a [WARNING] or [DEBUG_WARNING] returns, and every other type throws an
    [RtMidiError] that carries the error string and the type. *)
Theorem error_delivery (fuel : nat) (self : MidiApi)
  (type : RtMidiErrorType) (errorString : string) :
  (forall cb, errorCallback_ self = Some cb ->
     (firstErrorOccurred_ self = false ->
      error debug (S (S fuel)) self type errorString =
        Some (self, [ErrorCallback type errorString], Returns)) /\
     (firstErrorOccurred_ self = true ->
      error debug (S fuel) self type errorString =
        Some (self, [], Returns))) /\
  (errorCallback_ self = None ->
     (type = WARNING \/ type = DEBUG_WARNING ->
      exists out,
        error debug (S fuel) self type errorString =
          Some (self, out, Returns)) /\
     (type <> WARNING -> type <> DEBUG_WARNING ->
      exists out,
        error debug (S fuel) self type errorString =
          Some (self, out, Throws (mkRtMidiError errorString type)))).
Proof.
  split.
  - intros cb Hcb. split; intros Hfirst.
    + rewrite (error_with_callback _ _ _ cb) by assumption.
      rewrite Hfirst. reflexivity.
    + apply error_suppressed; congruence.
  - intros Hnone. split.
    + intros [-> | ->]; simpl; rewrite Hnone; eauto.
    + intros Hw Hd. simpl. rewrite Hnone.
      destruct type; try congruence; eauto.
Qed.

End ErrorReporting.

(** ** Delivery *)

Section Delivery.

Lemma deliver_callback (who : string) (data : RtMidiInData) (m : MidiMessage) :
  usingCallback data = true ->
  deliver who data m = (data, [UserCallback (timeStamp m) (bytes m)]).
Proof. intros H. unfold deliver. rewrite H. reflexivity. Qed.

(** In callback mode the message a handler has assembled is the one the user
    callback receives, with its delta-time. *)
Lemma winmm_callback_receives data apiData input t data' apiData' out m :
  WinMM.midiInputCallback_assemble data apiData input t =
    (data', apiData', out, Some m) ->
  usingCallback data' = true ->
  WinMM.midiInputCallback data apiData input t =
    (data', WinMM.set_message (WinMM.clear m) apiData',
     out ++ [UserCallback (timeStamp m) (bytes m)]).
Proof.
  intros H Hcb. unfold WinMM.midiInputCallback. rewrite H.
  rewrite deliver_callback by assumption. reflexivity.
Qed.

Lemma alsa_callback_receives data apiData loc ev data' apiData' loc' m :
  Alsa.alsaMidiHandler_assemble data apiData loc ev =
    (data', apiData', loc', Some m) ->
  usingCallback data' = true ->
  Alsa.alsaMidiHandler_event data apiData loc ev =
    (data', apiData', loc', [UserCallback (timeStamp m) (bytes m)]).
Proof.
  intros H Hcb. unfold Alsa.alsaMidiHandler_event. rewrite H.
  rewrite deliver_callback by assumption. reflexivity.
Qed.

Lemma jack_callback_receives rtData jData event t rtData' jData' m :
  Jack.jackProcessIn_assemble rtData jData event t = (rtData', jData', m) ->
  usingCallback rtData' = true -> continueSysex rtData' = false ->
  Jack.jackProcessIn_event rtData jData event t =
    (rtData', jData', [UserCallback (timeStamp m) (bytes m)]).
Proof.
  intros H Hcb Hcont. unfold Jack.jackProcessIn_event. rewrite H, Hcont.
  cbn. rewrite deliver_callback by assumption. reflexivity.
Qed.

End Delivery.

(** ** Stamping in the handlers *)

(** Case analysis on the tests of a handler that is unfolded in [H] or in the
    goal. *)
Ltac branches_in H :=
  repeat match type of H with
         | context [if ?c then _ else _] => destruct c
         | context [match ?c with Some _ => _ | None => _ end] => destruct c
         end.

Ltac branches :=
  repeat match goal with
         | |- context [if ?c then _ else _] => destruct c
         | |- context [match ?c with Some _ => _ | None => _ end] => destruct c
         end.

Section Stamping.

Lemma wrap32_diff (t1 t2 : Z) :
  0 <= t1 < 2 ^ 32 -> 0 <= t2 < 2 ^ 32 ->
  wrap32 (t2 - t1) = if t1 <=? t2 then t2 - t1 else 2 ^ 32 + t2 - t1.
Proof.
  intros H1 H2. unfold wrap32. destruct (Z.leb_spec t1 t2).
  - apply Z.mod_small. lia.
  - symmetry. apply (Z.mod_unique _ _ (-1)); lia.
Qed.

Lemma wrap64_diff (t1 t2 : Z) :
  0 <= t1 < 2 ^ 64 -> 0 <= t2 < 2 ^ 64 ->
  wrap64 (t2 - t1) = if t1 <=? t2 then t2 - t1 else 2 ^ 64 + t2 - t1.
Proof.
  intros H1 H2. unfold wrap64. destruct (Z.leb_spec t1 t2).
  - apply Z.mod_small. lia.
  - symmetry. apply (Z.mod_unique _ _ (-1)); lia.
Qed.

(** What the stamp of the Windows MM callback changes. *)
Lemma winmm_stamp_frame data apiData t :
  WinMM.lastTime (WinMM.stamp data apiData t).2 = t /\
  firstMessage (WinMM.stamp data apiData t).1 = false /\
  ignoreFlags (WinMM.stamp data apiData t).1 = ignoreFlags data /\
  queue (WinMM.stamp data apiData t).1 = queue data /\
  bytes (WinMM.message (WinMM.stamp data apiData t).2) =
    bytes (WinMM.message apiData).
Proof.
  unfold WinMM.stamp. destruct (firstMessage data) eqn:E; cbn; auto.
Qed.

(** The Windows MM callback stamps before it looks at the input: the message
    it hands over carries that stamp. *)
Lemma winmm_assemble_stamped data apiData input t data' apiData' out m :
  WinMM.midiInputCallback_assemble data apiData input t =
    (data', apiData', out, Some m) ->
  timeStamp m = timeStamp (WinMM.message (WinMM.stamp data apiData t).2).
Proof.
  intros H. unfold WinMM.midiInputCallback_assemble in H.
  destruct (WinMM.stamp data apiData t) as [data1 apiData1].
  destruct input as [mm | sysex r | sysex r |]; cbn in H;
    branches_in H; inversion H; subst; reflexivity.
Qed.

(** Whatever becomes of the input, the stamp has been taken. *)
Lemma winmm_assemble_baseline data apiData input t :
  input <> WinMM.MIM_other ->
  WinMM.lastTime (WinMM.midiInputCallback_assemble data apiData input t).1.1.2
    = t /\
  firstMessage (WinMM.midiInputCallback_assemble data apiData input t).1.1.1
    = false.
Proof.
  intros Hin. unfold WinMM.midiInputCallback_assemble.
  pose proof (winmm_stamp_frame data apiData t) as (Hl & Hf & _).
  destruct (WinMM.stamp data apiData t) as [data1 apiData1]. cbn in Hl, Hf.
  destruct input as [mm | sysex r | sysex r |]; [| | | congruence]; cbn;
    branches; cbn; auto.
Qed.

(** The switch of the ALSA loop leaves the baseline alone. *)
Lemma alsa_select_lastTime flags apiData ev :
  Alsa.lastTime (Alsa.select flags apiData ev).1 = Alsa.lastTime apiData.
Proof.
  unfold Alsa.select.
  destruct (Alsa.type ev); branches; reflexivity.
Qed.

(** The ALSA loop hands a message over only in an iteration that stamped
    it. *)
Lemma alsa_assemble_stamped data apiData loc ev data' apiData' loc' m :
  Alsa.alsaMidiHandler_assemble data apiData loc ev =
    (data', apiData', loc', Some m) ->
  exists apiData1 m1,
    (data', apiData', m) = Alsa.stamp data apiData1 m1 ev /\
    Alsa.lastTime apiData1 = Alsa.lastTime apiData.
Proof.
  intros H. unfold Alsa.alsaMidiHandler_assemble in H.
  pose proof (alsa_select_lastTime (ignoreFlags data) apiData ev) as Hsel.
  destruct (Alsa.select (ignoreFlags data) apiData ev) as [apiData1 doDecode].
  cbn in Hsel.
  destruct (doDecode && (0 <? Z.of_nat (length (Alsa.decoded ev)))) eqn:Hd.
  - match type of H with
    | context [if ?c then (data, apiData1, _) else _] => destruct c eqn:Hc
    end; cbn in H.
    + rewrite orb_true_r in H. inversion H.
    + match type of H with
      | context [Alsa.stamp data apiData1 ?x ev] =>
          exists apiData1, x; destruct (Alsa.stamp data apiData1 x ev)
            as [[d a] m2] eqn:Hs
      end.
      cbn in H. rewrite orb_false_r in H.
      destruct (length (bytes m2) =? 0)%nat; inversion H; subst. auto.
  - cbn in H. destruct (Alsa.continueSysex loc); cbn in H.
    + rewrite orb_true_r in H. inversion H.
    + inversion H.
Qed.

(** An event the ALSA switch does not decode leaves everything but the
    cleared byte vector as it was. *)
Lemma alsa_not_decoded data apiData loc ev :
  (Alsa.select (ignoreFlags data) apiData ev).2 = false ->
  Alsa.alsaMidiHandler_assemble data apiData loc ev =
    (data, apiData,
     Alsa.mkLocals (Alsa.continueSysex loc)
       (if Alsa.continueSysex loc then Alsa.message loc
        else mkMidiMessage [] (timeStamp (Alsa.message loc))),
     None).
Proof.
  intros Hsel. unfold Alsa.alsaMidiHandler_assemble.
  assert (Hapi : (Alsa.select (ignoreFlags data) apiData ev).1 = apiData).
  { revert Hsel. unfold Alsa.select.
    destruct (Alsa.type ev); branches; cbn; congruence. }
  destruct (Alsa.select (ignoreFlags data) apiData ev) as [apiData1 doDecode].
  cbn in Hsel, Hapi. subst. cbn.
  destruct (Alsa.continueSysex loc); cbn.
  - rewrite orb_true_r. reflexivity.
  - reflexivity.
Qed.

End Stamping.

(** ** The delta-time of a message *)

Section DeltaTime.


(** C7 (as the code has it). For a message that is not the first on its
    connection, completed at native time [t2] with baseline [t1], the
    delta-time is the unsigned difference of [t2] and [t1] times the
    conversion factor (0.001 for Windows MM on 32 bits, 0.000001 for ALSA on
    64 bits): [(t2 - t1)] times the factor when [t1 <= t2], and the
    wrapped-around difference [2^w + t2 - t1] times the factor when
    [t2 < t1]; nothing is clamped. *)
Theorem delta_is_wrapped_difference :
  (forall data apiData input t2 data' apiData' out m,
     firstMessage data = false ->
     0 <= WinMM.lastTime apiData < 2 ^ 32 -> 0 <= t2 < 2 ^ 32 ->
     WinMM.midiInputCallback_assemble data apiData input t2 =
       (data', apiData', out, Some m) ->
     let t1 := WinMM.lastTime apiData in
     timeStamp m =
       (double_of_Z (if t1 <=? t2 then t2 - t1 else 2 ^ 32 + t2 - t1)%Z
        * 0.001)%float) /\
  (forall data apiData loc ev data' apiData' loc' m,
     firstMessage data = false ->
     0 <= Alsa.lastTime apiData < 2 ^ 64 -> 0 <= Alsa.time ev < 2 ^ 64 ->
     Alsa.alsaMidiHandler_assemble data apiData loc ev =
       (data', apiData', loc', Some m) ->
     let t1 := Alsa.lastTime apiData in
     let t2 := Alsa.time ev in
     timeStamp m =
       (double_of_Z (if t1 <=? t2 then t2 - t1 else 2 ^ 64 + t2 - t1)%Z
        * 0.000001)%float).
Proof.
  split.
  - intros data apiData input t2 data' apiData' out m Hfirst H1 H2 H t1.
    rewrite (winmm_assemble_stamped _ _ _ _ _ _ _ _ H).
    unfold WinMM.stamp. rewrite Hfirst. cbn.
    rewrite wrap32_diff by assumption. reflexivity.
  - intros data apiData loc ev data' apiData' loc' m Hfirst H1 H2 H t1 t2.
    destruct (alsa_assemble_stamped _ _ _ _ _ _ _ _ H)
      as (apiData1 & m1 & Hs & Hlast).
    unfold Alsa.stamp in Hs. rewrite Hfirst in Hs.
    inversion Hs; subst. cbn. rewrite Hlast.
    rewrite wrap64_diff by assumption. reflexivity.
Qed.

End DeltaTime.

(** ** The baseline and what is dropped *)

Section Baseline.

(** C8 (as the code has it). The Windows MM callback sets the baseline
    [lastTime] to the native time of every input it handles, before it
    looks at the input: also when the message is then dropped by the ignore
    flags. The ALSA loop sets the baseline to the time of the event for
    every message it hands over, but an event that the ignore flags keep
    from being decoded changes neither the baseline nor [firstMessage]
    and produces nothing. *)
Theorem baseline_update :
  (forall data apiData input t,
     input <> WinMM.MIM_other ->
     WinMM.lastTime (WinMM.midiInputCallback data apiData input t).1.2 = t) /\
  (forall data apiData loc ev data' apiData' loc' m,
     Alsa.alsaMidiHandler_assemble data apiData loc ev =
       (data', apiData', loc', Some m) ->
     Alsa.lastTime apiData' = Alsa.time ev) /\
  (forall data apiData loc ev,
     (Alsa.select (ignoreFlags data) apiData ev).2 = false ->
     exists loc',
       Alsa.alsaMidiHandler_event data apiData loc ev =
         (data, apiData, loc', [])).
Proof.
  split; [|split].
  - intros data apiData input t Hin.
    pose proof (winmm_assemble_baseline data apiData input t Hin) as [Hl _].
    unfold WinMM.midiInputCallback.
    destruct (WinMM.midiInputCallback_assemble data apiData input t)
      as [[[data1 apiData1] out] [m|]]; cbn in Hl |- *.
    + destruct (deliver "RtMidiIn" data1 m) as [data2 out2]. exact Hl.
    + exact Hl.
  - intros data apiData loc ev data' apiData' loc' m H.
    destruct (alsa_assemble_stamped _ _ _ _ _ _ _ _ H)
      as (apiData1 & m1 & Hs & _).
    unfold Alsa.stamp in Hs.
    destruct (firstMessage data); inversion Hs; reflexivity.
  - intros data apiData loc ev Hsel. unfold Alsa.alsaMidiHandler_event.
    rewrite alsa_not_decoded by assumption. eauto.
Qed.

(** C9 (as the code has it). A short message whose first byte has the high
    bit clear makes the Windows MM callback return without a message and
    without a diagnostic; the queue, the ignore flags and the byte vector
    are as before. The time stamp has been taken by then: [firstMessage]
    is cleared and [lastTime] is the native time of the fragment. *)
Theorem invalid_status_dropped (data : RtMidiInData)
  (apiData : WinMM.WinMidiData) (midiMessage t : Z) :
  Z.land (Z.land midiMessage 255) 128 = 0 ->
  exists data' apiData',
    WinMM.midiInputCallback data apiData (WinMM.MIM_DATA midiMessage) t =
      (data', apiData', []) /\
    queue data' = queue data /\
    ignoreFlags data' = ignoreFlags data /\
    bytes (WinMM.message apiData') = bytes (WinMM.message apiData) /\
    firstMessage data' = false /\
    WinMM.lastTime apiData' = t.
Proof.
  intros Hstatus.
  pose proof (winmm_stamp_frame data apiData t) as (Hl & Hf & Hi & Hq & Hb).
  unfold WinMM.midiInputCallback, WinMM.midiInputCallback_assemble.
  destruct (WinMM.stamp data apiData t) as [data1 apiData1].
  cbn in Hl, Hf, Hi, Hq, Hb.
  rewrite Hstatus. cbn.
  exists data1, apiData1. auto 10.
Qed.

End Baseline.

(** ** Reassembly of a sysex message in the ALSA loop *)

Section Sysex.

Import Alsa.








End Sysex.

(** * Further properties *)

(** ** The ring buffer against a list *)

Section Refinement.

Variable who : string.
Variable debug : bool.

Lemma contents_length (q : MidiQueue) :
  0 <= size q -> Z.of_nat (length (contents q)) = size q.
Proof.
  intros H. unfold contents. rewrite length_map, length_seq. lia.
Qed.

(** A delivery in queue mode on a well-formed queue. *)
Lemma deliver_contents (data : RtMidiInData) (m : MidiMessage) :
  usingCallback data = false -> queue_wf (queue data) ->
  exists q',
    deliver who data m =
      (set_queue q' data,
       if size (queue data) <? ringSize (queue data) then []
       else queue_limit_reached who) /\
    queue_wf q' /\ ringSize q' = ringSize (queue data) /\
    contents q' =
      if size (queue data) <? ringSize (queue data)
      then contents (queue data) ++ [m] else contents (queue data).
Proof.
  intros Hcb Hwf. unfold deliver. rewrite Hcb.
  destruct (Z.ltb_spec (size (queue data)) (ringSize (queue data))) as [Hlt|Hge].
  - destruct (push_contents who (queue data) m Hwf Hlt)
      as (q' & Hpush & Hwf' & Hcap & _ & Hc).
    exists q'. rewrite Hpush. auto.
  - exists (queue data). unfold queue_push.
    destruct (Z.ltb_spec (size (queue data)) (ringSize (queue data)));
      [lia|]. auto.
Qed.

(** X1. In queue mode, any sequence of deliveries and polls on a well-formed
    queue gives the results that the same sequence gives on a list of at
    most [ringSize] messages, and leaves in the ring the messages that are
    left in the list. *)
Theorem queue_refines_fifo (fuel : nat) (ops : list QueueOp) :
  forall self : MidiInApi,
  usingCallback (inputData_ self) = false ->
  queue_wf (queue (inputData_ self)) ->
  let q := queue (inputData_ self) in
  exists self',
    run_queue_ops who debug fuel self ops =
      Some (self', (fifo_ops who (ringSize q) (contents q) ops).2) /\
    contents (queue (inputData_ self')) =
      (fifo_ops who (ringSize q) (contents q) ops).1 /\
    queue_wf (queue (inputData_ self')).
Proof.
  induction ops as [|op ops IH]; intros self Hcb Hwf q.
  - exists self. cbn. auto.
  - pose proof Hwf as [Hsz _]. subst q.
    set (q := queue (inputData_ self)) in *.
    destruct op as [m|].
    + destruct (deliver_contents (inputData_ self) m Hcb Hwf)
        as (q' & Hdel & Hwf' & Hcap & Hc). fold q in Hdel, Hcap, Hc.
      cbn [run_queue_ops fifo_ops]. rewrite Hdel.
      destruct (IH (mkMidiInApi (base self) (set_queue q' (inputData_ self))))
        as (self' & Hrun & Hcont & Hwf2); [exact Hcb | exact Hwf' |].
      cbn in Hrun, Hcont. rewrite Hcap, Hc in Hrun, Hcont.
      exists self'. rewrite Hrun.
      rewrite contents_length by lia.
      destruct (size q <? ringSize q);
        destruct (fifo_ops who (ringSize q) _ ops) as [l' rs];
        cbn in *; auto.
    + cbn [run_queue_ops fifo_ops].
      destruct (Z.eq_dec (size q) 0) as [Hz|Hnz].
      * rewrite (getMessage_empty debug fuel self Hcb Hz).
        destruct (IH self Hcb Hwf) as (self' & Hrun & Hcont & Hwf2).
        fold q in Hrun, Hcont.
        rewrite (contents_empty q Hz) in *.
        exists self'. rewrite Hrun.
        destruct (fifo_ops who (ringSize q) [] ops) as [l' rs]; cbn in *; auto.
      * destruct (pop_contents debug fuel self Hcb Hwf)
          as (q' & m & rest & Hpop & Hc & Hwf' & Hcap & _ & Hrest).
        { fold q. lia. }
        rewrite Hpop. fold q in Hc, Hcap. rewrite Hc.
        destruct (IH (with_queue q' self)) as (self' & Hrun & Hcont & Hwf2);
          [exact Hcb | exact Hwf' |].
        cbn in Hrun, Hcont. rewrite Hcap, Hrest in Hrun, Hcont.
        exists self'. rewrite Hrun.
        destruct (fifo_ops who (ringSize q) rest ops) as [l' rs];
          cbn in *; auto.
Qed.

End Refinement.

(** ** Overflow *)

Section Overflow.

Variable who : string.

Lemma push_all_full (msgs : list MidiMessage) (q : MidiQueue) :
  size q = ringSize q ->
  push_all who q msgs = (q, replicate (length msgs) false).
Proof.
  intros Hfull. induction msgs as [|m msgs IH]; [reflexivity|].
  cbn [push_all length replicate]. unfold queue_push at 1.
  rewrite Hfull, Z.ltb_irrefl, IH. reflexivity.
Qed.

(** X2. When more messages are pushed than the queue has room for, the
    first [ringSize - size] of them are stored behind the queued ones and
    every later push is refused: the queue keeps the oldest messages and
    drops the newest. *)
Theorem push_all_overflow (msgs : list MidiMessage) :
  forall q : MidiQueue,
  queue_wf q ->
  let k := Nat.min (length msgs) (Z.to_nat (ringSize q - size q)) in
  exists q',
    push_all who q msgs =
      (q', replicate k true ++ replicate (length msgs - k) false) /\
    contents q' = contents q ++ take k msgs /\
    size q' = size q + Z.of_nat k /\
    queue_wf q'.
Proof.
  induction msgs as [|m msgs IH]; intros q Hwf k.
  - exists q. subst k. cbn. rewrite app_nil_r. split_and!; [done | done | lia | done].
  - pose proof Hwf as ([Hs0 Hs1] & _).
    destruct (Z.ltb_spec (size q) (ringSize q)) as [Hlt|Hge].
    + destruct (push_contents who q m Hwf Hlt)
        as (q1 & Hpush & Hwf1 & Hcap1 & Hsz1 & Hc1).
      destruct (IH q1 Hwf1) as (q2 & Hall & Hc2 & Hsz2 & Hwf2).
      exists q2. cbn [push_all]. rewrite Hpush, Hall.
      assert (Hk : k = S (Nat.min (length msgs)
                            (Z.to_nat (ringSize q1 - size q1)))).
      { subst k. cbn [length]. rewrite Hcap1, Hsz1. lia. }
      rewrite Hk. cbn [replicate app take length Nat.sub].
      split_and!; [done | | lia | done].
      rewrite Hc2, Hc1, <- app_assoc. reflexivity.
    + assert (Hfull : size q = ringSize q) by lia.
      exists q. rewrite (push_all_full _ _ Hfull).
      assert (Hk : k = 0%nat) by (subst k; lia).
      rewrite Hk. cbn. rewrite app_nil_r.
      split_and!; [done | done | lia | done].
Qed.

End Overflow.

(** ** Callback registration and the ignore flags *)

Section Registration.

Variable debug : bool.



(** X4. Messages that are queued when a callback is registered are not
    lost: while the callback is set every delivery goes to the callback and
    every poll returns no data, and once the callback is cancelled the
    object is as it was and the polls return the queued messages, oldest
    first. *)
Theorem callback_mode_keeps_queue (who : string) (fuel : nat)
  (self : MidiInApi) (msgs : list MidiMessage) :
  usingCallback (inputData_ self) = false ->
  queue_wf (queue (inputData_ self)) ->
  contents (queue (inputData_ self)) = msgs ->
  exists self1,
    setCallback debug fuel true self = Some (self1, [], Returns) /\
    (forall m,
       deliver who (inputData_ self1) m =
         (inputData_ self1, [UserCallback (timeStamp m) (bytes m)])) /\
    (exists base' out,
       getMessage debug (S (S fuel)) self1 =
         Some (mkMidiInApi base' (inputData_ self1), (0%float, []), out,
               Returns)) /\
    cancelCallback debug fuel self1 = Some (self, [], Returns) /\
    exists q',
      getMessage_n debug fuel (length msgs) self =
        Some (with_queue q' self, map polled msgs) /\ size q' = 0.
Proof.
  intros Hcb Hwf Hc.
  eexists. split.
  { unfold setCallback. rewrite Hcb. cbn [negb]. reflexivity. }
  split; [|split; [|split]].
  - intros m. apply deliver_callback. reflexivity.
  - apply pop_empty_or_callback. reflexivity.
  - unfold cancelCallback. cbn.
    destruct self as [b [q f d fm cb cs]]. cbn in Hcb. subst cb. reflexivity.
  - apply getMessage_n_contents; assumption.
Qed.

Lemma ignoreTypes_bits (midiSysex midiTime midiSense : bool)
  (self : MidiInApi) :
  let flags := ignoreFlags (inputData_ (ignoreTypes midiSysex midiTime midiSense self)) in
  truthy (Z.land flags 1) = midiSysex /\
  truthy (Z.land flags 2) = midiTime /\
  truthy (Z.land flags 4) = midiSense /\
  0 <= flags < 8.
Proof.
  destruct midiSysex, midiTime, midiSense; cbv zeta; cbn;
    repeat match goal with
           | |- context [Z.lor ?a ?b] =>
               let v := eval vm_compute in (Z.lor a b) in
               change (Z.lor a b) with v
           end;
    split_and!; try reflexivity; lia.
Qed.

(** X5. After [ignoreTypes( midiSysex, midiTime, midiSense )] the Windows MM
    callback hands over a short message with a status byte unless
    [midiTime] is set and the status is 0xF1 or 0xF8, or [midiSense] is set
    and the status is 0xFE; [midiSysex] has no effect on short messages. *)
Theorem ignoreTypes_winmm_short (midiSysex midiTime midiSense : bool)
  (self : MidiInApi) (apiData : WinMM.WinMidiData) (midiMessage t : Z) :
  let data := inputData_ (ignoreTypes midiSysex midiTime midiSense self) in
  let status := Z.land midiMessage 255 in
  Z.land status 128 <> 0 ->
  is_Some (WinMM.midiInputCallback_assemble data apiData
             (WinMM.MIM_DATA midiMessage) t).2 <->
  (midiTime && ((status =? 241) || (status =? 248))
   || midiSense && (status =? 254)) = false.
Proof.
  intros data status Hstatus.
  pose proof (ignoreTypes_bits midiSysex midiTime midiSense self)
    as (_ & Ht & He & _). fold data in Ht, He.
  unfold WinMM.midiInputCallback_assemble.
  pose proof (winmm_stamp_frame data apiData t) as (_ & _ & Hflags & _).
  destruct (WinMM.stamp data apiData t) as [data1 apiData1].
  cbn [fst] in Hflags.
  fold status. unfold truthy at 1.
  destruct (Z.eqb_spec (Z.land status 128) 0) as [E|_]; [contradiction|].
  cbn [negb]. unfold WinMM.short_length. rewrite Hflags, Ht, He.
  repeat match goal with
         | |- context [?a <? ?b] => destruct (Z.ltb_spec a b)
         | |- context [?a =? ?b] => destruct (Z.eqb_spec a b)
         end;
    destruct midiTime, midiSense; cbn; split;
    try (intros _; (reflexivity || (eexists; reflexivity)));
    try (intros [? ?]; discriminate); try discriminate; try lia.
Qed.


End Registration.

(** ** ALSA port enumeration *)

Section PortEnumeration.

Import AlsaPorts.

Variables MIDI_GENERIC SYNTH : Z.
Variable type : Z.

Lemma portInfo_ports_spec (portNumber : Z) (ports : list snd_seq_port_info) :
  forall count,
  portInfo_ports MIDI_GENERIC SYNTH type portNumber count ports =
    let l := List.filter (counts MIDI_GENERIC SYNTH type) ports in
    if count <=? portNumber then
      match l !! Z.to_nat (portNumber - count) with
      | Some pinfo => inr pinfo
      | None => inl (count + Z.of_nat (length l))
      end
    else inl (count + Z.of_nat (length l)).
Proof.
  induction ports as [|p ports IH]; intros count; cbn [portInfo_ports List.filter].
  - cbn. rewrite Z.add_0_r. destruct (count <=? portNumber); reflexivity.
  - destruct (counts MIDI_GENERIC SYNTH type p) eqn:Hp; cbn [negb].
    + rewrite IH. cbv zeta. cbn [length].
      destruct (Z.eqb_spec count portNumber) as [->|Hne].
      * rewrite Z.leb_refl, Z.sub_diag. reflexivity.
      * destruct (Z.leb_spec count portNumber) as [Hle|Hgt].
        -- destruct (Z.leb_spec (count + 1) portNumber); [|lia].
           replace (Z.to_nat (portNumber - count))
             with (S (Z.to_nat (portNumber - (count + 1)))) by lia.
           cbn [lookup list_lookup].
           destruct (List.filter (counts MIDI_GENERIC SYNTH type) ports !! _); [reflexivity|].
           f_equal. lia.
        -- destruct (Z.leb_spec (count + 1) portNumber); [lia|].
           f_equal. lia.
    + apply IH.
Qed.

Lemma portInfo_clients_spec (portNumber : Z) (seq : sequencer) :
  forall count,
  portInfo_clients MIDI_GENERIC SYNTH type portNumber count seq =
    let l := counted MIDI_GENERIC SYNTH seq type in
    if count <=? portNumber then
      match l !! Z.to_nat (portNumber - count) with
      | Some pinfo => inr pinfo
      | None => inl (count + Z.of_nat (length l))
      end
    else inl (count + Z.of_nat (length l)).
Proof.
  induction seq as [|[client ports] seq IH]; intros count;
    cbn [portInfo_clients].
  - cbn. rewrite Z.add_0_r. destruct (count <=? portNumber); reflexivity.
  - unfold counted. cbn [List.map List.concat fst snd].
    fold (counted MIDI_GENERIC SYNTH seq type).
    destruct (client =? 0); [apply IH|].
    rewrite portInfo_ports_spec. cbv zeta.
    set (l1 := List.filter (counts MIDI_GENERIC SYNTH type) ports).
    set (l2 := counted MIDI_GENERIC SYNTH seq type).
    rewrite length_app.
    destruct (Z.leb_spec count portNumber) as [Hle|Hgt].
    + destruct (l1 !! Z.to_nat (portNumber - count)) as [p|] eqn:Hl1.
      * rewrite (lookup_app_l_Some _ _ _ _ Hl1). reflexivity.
      * apply lookup_ge_None in Hl1.
        rewrite IH. cbv zeta. fold l2.
        rewrite lookup_app_r by lia.
        destruct (Z.leb_spec (count + Z.of_nat (length l1)) portNumber);
          [|lia].
        replace (Z.to_nat (portNumber - (count + Z.of_nat (length l1))))
          with (Z.to_nat (portNumber - count) - length l1)%nat by lia.
        destruct (l2 !! _); [reflexivity|]. f_equal. lia.
    + rewrite IH. cbv zeta. fold l2.
      destruct (Z.leb_spec (count + Z.of_nat (length l1)) portNumber); [lia|].
      f_equal. lia.
Qed.

(** X7. Called with a negative port number, [portInfo] returns the number
    of ports that count: the ports of every client but client 0 that have
    one of the two MIDI type bits and all the capability bits asked for.
    This is what [getPortCount] returns. No port is reported as found. *)
Theorem portInfo_counts (seq : sequencer) (portNumber : Z) :
  portNumber < 0 ->
  portInfo MIDI_GENERIC SYNTH seq type portNumber =
    (wrap32 (Z.of_nat (length (counted MIDI_GENERIC SYNTH seq type))), None).
Proof.
  intros Hneg. unfold portInfo. rewrite portInfo_clients_spec. cbv zeta.
  destruct (Z.leb_spec 0 portNumber); [lia|].
  destruct (Z.ltb_spec portNumber 0); [|lia]. reflexivity.
Qed.

(** X8. Called with a port number that is not negative, [portInfo] returns
    1 and leaves in [pinfo] the port with that index among the ports that
    count, in the order of the enumeration, when the number is below
    [getPortCount()]; otherwise it returns 0. *)
Theorem portInfo_finds (seq : sequencer) (portNumber : Z) :
  0 <= portNumber ->
  Z.of_nat (length (counted MIDI_GENERIC SYNTH seq type)) < 2 ^ 32 ->
  (portNumber < getPortCount MIDI_GENERIC SYNTH seq type ->
   exists pinfo,
     counted MIDI_GENERIC SYNTH seq type !! Z.to_nat portNumber = Some pinfo /\
     portInfo MIDI_GENERIC SYNTH seq type portNumber = (1, Some pinfo)) /\
  (getPortCount MIDI_GENERIC SYNTH seq type <= portNumber ->
   portInfo MIDI_GENERIC SYNTH seq type portNumber = (0, None)).
Proof.
  intros Hpos Hlen.
  assert (Hcount : getPortCount MIDI_GENERIC SYNTH seq type =
                   Z.of_nat (length (counted MIDI_GENERIC SYNTH seq type))).
  { unfold getPortCount. rewrite portInfo_counts by lia. cbn.
    apply wrap32_small. lia. }
  rewrite Hcount. unfold portInfo. rewrite portInfo_clients_spec. cbv zeta.
  destruct (Z.leb_spec 0 portNumber); [|lia]. rewrite Z.sub_0_r.
  destruct (Z.ltb_spec portNumber 0); [lia|].
  split; intros Hn.
  - destruct (lookup_lt_is_Some_2 (counted MIDI_GENERIC SYNTH seq type)
                (Z.to_nat portNumber) ltac:(lia)) as [p Hp].
    rewrite Hp. eauto.
  - rewrite (lookup_ge_None_2 _ (Z.to_nat portNumber)) by lia. reflexivity.
Qed.

End PortEnumeration.

(** ** Windows MM: sending *)

Section Sending.

Import WinMMOut.

Variable debug : bool.

Lemma byte_at_0 (b acc : Z) :
  is_byte b -> WinMM.byte_at (b + 256 * acc) 0 = b.
Proof.
  intros Hb. unfold WinMM.byte_at. cbn [Z.of_nat Z.mul].
  rewrite Z.shiftr_0_r. change 255 with (Z.ones 8).
  rewrite Z.land_ones by lia. change (2 ^ 8) with 256.
  replace (b + 256 * acc) with (b + acc * 256) by lia.
  rewrite Z.mod_add by lia.
  apply Z.mod_small. exact Hb.
Qed.

Lemma byte_at_S (b acc : Z) (i : nat) :
  is_byte b ->
  WinMM.byte_at (b + 256 * acc) (S i) = WinMM.byte_at acc i.
Proof.
  intros Hb. unfold WinMM.byte_at.
  replace (8 * Z.of_nat (S i)) with (8 + 8 * Z.of_nat i) by lia.
  rewrite <- Z.shiftr_shiftr by lia. f_equal. f_equal.
  rewrite Z.shiftr_div_pow2 by lia. change (2 ^ 8) with 256.
  replace (b + 256 * acc) with (b + acc * 256) by lia.
  rewrite Z.div_add by lia.
  rewrite Z.div_small by exact Hb. lia.
Qed.

(** Byte [i] of a double word is the [i]-th byte of its memory. *)
Lemma byte_at_DWORD (mem : list Z) :
  Forall is_byte mem ->
  forall i b, mem !! i = Some b -> WinMM.byte_at (DWORD_of_bytes mem) i = b.
Proof.
  induction 1 as [|b0 mem Hb0 Hmem IH]; intros i b Hi; [discriminate|].
  cbn [DWORD_of_bytes fold_right]. fold (DWORD_of_bytes mem).
  destruct i as [|i]; cbn in Hi.
  - injection Hi as <-. apply byte_at_0. exact Hb0.
  - rewrite byte_at_S by exact Hb0. apply IH. exact Hi.
Qed.

Lemma pack_S (message : list Z) (n : nat) (mem : list Z) :
  pack message (S n) mem = <[n := message !!! n]> (pack message n mem).
Proof. unfold pack. rewrite seq_S, fold_left_app. reflexivity. Qed.

Lemma pack_length (message : list Z) (n : nat) (mem : list Z) :
  length (pack message n mem) = length mem.
Proof.
  induction n as [|n IH]; [reflexivity|].
  rewrite pack_S, length_insert. exact IH.
Qed.

(** The loop writes the first [n] bytes and leaves the others. *)
Lemma pack_lookup (message : list Z) (n : nat) (mem : list Z) (i : nat) :
  (n <= length mem)%nat ->
  pack message n mem !! i =
    if decide (i < n)%nat then Some (message !!! i) else mem !! i.
Proof.
  intros Hn. induction n as [|n IH].
  - destruct (decide (i < 0)%nat); [lia | reflexivity].
  - rewrite pack_S.
    destruct (decide (i = n)) as [->|Hne].
    + rewrite list_lookup_insert_eq by (rewrite pack_length; lia).
      destruct (decide (n < S n)%nat); [reflexivity | lia].
    + rewrite list_lookup_insert_ne by congruence.
      rewrite IH by lia.
      destruct (decide (i < n)%nat), (decide (i < S n)%nat);
        try reflexivity; lia.
Qed.

Lemma pack_bytes (message : list Z) (n : nat) (mem : list Z) :
  Forall is_byte message -> Forall is_byte mem -> (n <= length message)%nat ->
  Forall is_byte (pack message n mem).
Proof.
  intros Hmsg Hmem Hn. induction n as [|n IH]; [exact Hmem|].
  rewrite pack_S. apply Forall_insert; [apply IH; lia|].
  destruct (lookup_lt_is_Some_2 message n ltac:(lia)) as [b Hb].
  rewrite (list_lookup_total_correct _ _ _ Hb).
  exact (proj1 (Forall_lookup _ _) Hmsg _ _ Hb).
Qed.

Lemma report_warning_api (fuel : nat) (self : MidiApi) (errorString : string) :
  exists out,
    report debug (S (S fuel)) self WARNING errorString =
      Some (set_errorString errorString self, out, Returns).
Proof. unfold report. apply error_warning. Qed.

(** X9. [sendMessage] makes no call to the driver when the port is not
    connected, when the message is empty, or when the message has more than
    three bytes and does not start with 0xF0; on a port that is not connected
    it does nothing at all, and in the other two cases it reports a warning
    and returns. *)
Theorem sendMessage_refused (fuel : nat) (env : Answers) (self : MidiApi)
  (message : list Z) :
  Z.of_nat (length message) < 2 ^ 32 ->
  (connected_ self = false ->
   sendMessage debug fuel env self message = Some (self, [], [], Returns)) /\
  (connected_ self = true ->
   message = [] \/ (3 < length message)%nat /\ message !!! 0%nat <> 240 ->
   exists self' out,
     sendMessage debug (S (S fuel)) env self message =
       Some (self', out, [], Returns) /\
     connected_ self' = true).
Proof.
  intros Hlen. split.
  - intros Hc. unfold sendMessage. rewrite Hc. reflexivity.
  - intros Hc Hcase. unfold sendMessage. rewrite Hc. cbn [negb].
    rewrite wrap32_small by lia.
    destruct Hcase as [-> | [Hlong Hhead]].
    + change (Z.of_nat (length (@nil Z)) =? 0) with true. cbv iota.
      destruct (report_warning_api fuel self
        "MidiOutWinMM::sendMessage: message argument is empty!") as [out ->].
      eexists _, _. split; [reflexivity|]. exact Hc.
    + destruct (Z.eqb_spec (Z.of_nat (length message)) 0); [lia|].
      destruct (Z.eqb_spec (message !!! 0%nat) 240); [contradiction|].
      destruct (Z.ltb_spec 3 (Z.of_nat (length message))); [|lia].
      destruct (report_warning_api fuel self
        "MidiOutWinMM::sendMessage: message size is greater than 3 bytes (and not sysex)!")
        as [out ->].
      eexists _, _. split; [reflexivity|]. exact Hc.
Qed.

(** X10. A short message that [sendMessage] packs and that the input
    callback receives as [MIM_DATA] comes out as it went in: for a message of
    one to three bytes whose first byte is a status byte other than 0xF0 and
    whose length is the one the callback derives from that status byte, the
    packet passed to [midiOutShortMsg] makes [midiInputCallback] hand over
    exactly the bytes of the message, whatever the unused bytes of the
    packet hold. *)
Theorem short_message_roundtrip (fuel : nat) (env : Answers) (self : MidiApi)
  (message : list Z) (data : RtMidiInData) (apiData : WinMM.WinMidiData)
  (t : Z) :
  connected_ self = true ->
  shortMsg_result env = WinMM.MMSYSERR_NOERROR ->
  length (packet_memory env) = 4%nat -> Forall is_byte (packet_memory env) ->
  Forall is_byte message ->
  message !!! 0%nat <> 240 ->
  Z.land (message !!! 0%nat) 128 <> 0 ->
  WinMM.short_length (ignoreFlags data) (message !!! 0%nat) =
    Some (length message) ->
  bytes (WinMM.message apiData) = [] ->
  exists packet m,
    sendMessage debug fuel env self message =
      Some (self, [], [midiOutShortMsg packet], Returns) /\
    (WinMM.midiInputCallback_assemble data apiData (WinMM.MIM_DATA packet) t).2
      = Some m /\
    bytes m = message.
Proof.
  intros Hc Hres Hmemlen Hmem Hmsg Hhead Hstatus Hlen Hbuf.
  assert (Hn : (1 <= length message <= 3)%nat).
  { revert Hlen. unfold WinMM.short_length.
    repeat match goal with
           | |- context [if ?c then _ else _] => destruct c
           end; intros H; inversion H; lia. }
  set (mem := pack message (length message) (packet_memory env)).
  assert (Hmem' : Forall is_byte mem) by (apply pack_bytes; auto).
  assert (Hat : forall i, (i < length message)%nat ->
                WinMM.byte_at (DWORD_of_bytes mem) i = message !!! i).
  { intros i Hi. apply byte_at_DWORD; [exact Hmem'|].
    unfold mem. rewrite pack_lookup by lia.
    destruct (decide (i < length message)%nat); [reflexivity | lia]. }
  exists (DWORD_of_bytes mem),
    (WinMM.push_back
       (map (WinMM.byte_at (DWORD_of_bytes mem)) (seq 0 (length message)))
       (WinMM.message (WinMM.stamp data apiData t).2)).
  split; [|split].
  - unfold sendMessage. rewrite Hc. cbn [negb].
    rewrite wrap32_small by lia.
    destruct (Z.eqb_spec (Z.of_nat (length message)) 0); [lia|].
    destruct (Z.eqb_spec (message !!! 0%nat) 240); [contradiction|].
    destruct (Z.ltb_spec 3 (Z.of_nat (length message))); [lia|].
    rewrite Hres, Z.eqb_refl, Nat2Z.id. reflexivity.
  - unfold WinMM.midiInputCallback_assemble.
    pose proof (winmm_stamp_frame data apiData t) as (_ & _ & Hflags & _).
    destruct (WinMM.stamp data apiData t) as [data1 apiData1].
    cbn [fst] in Hflags.
    assert (Hs : Z.land (DWORD_of_bytes mem) 255 = message !!! 0%nat).
    { rewrite <- (Hat 0%nat) by lia. unfold WinMM.byte_at.
      cbn [Z.of_nat Z.mul]. rewrite Z.shiftr_0_r. reflexivity. }
    rewrite Hs. unfold truthy.
    destruct (Z.eqb_spec (Z.land (message !!! 0%nat) 128) 0); [contradiction|].
    cbn [negb]. rewrite Hflags, Hlen. reflexivity.
  - cbn [bytes WinMM.push_back].
    pose proof (winmm_stamp_frame data apiData t) as (_ & _ & _ & _ & Hb).
    rewrite Hb, Hbuf. cbn [app].
    apply list_eq. intros i.
    destruct (decide (i < length message)%nat) as [Hi|Hi].
    + rewrite list_lookup_fmap, lookup_seq_lt by exact Hi. cbn.
      rewrite Hat by exact Hi.
      destruct (lookup_lt_is_Some_2 message i Hi) as [b Hb'].
      rewrite Hb'. f_equal. apply list_lookup_total_correct. exact Hb'.
    + rewrite (lookup_ge_None_2 message) by lia.
      apply lookup_ge_None_2. rewrite length_map, length_seq. lia.
Qed.

(** X11. A message that starts with 0xF0 is sent whole: when the allocation
    and the driver calls succeed, [midiOutLongMsg] receives exactly the bytes
    of the message with their number as the buffer length, nothing is
    reported, and the buffer is freed after the driver has released the
    header. When the allocation succeeds, the buffer is freed exactly once
    however the call ends. *)
Theorem sysex_sent_whole (fuel : nat) (env : Answers) (self : MidiApi)
  (message : list Z) :
  connected_ self = true ->
  0 < Z.of_nat (length message) < 2 ^ 32 ->
  message !!! 0%nat = 240 ->
  malloc_ok env = true ->
  let n := Z.of_nat (length message) in
  (prepareHeader_result env = WinMM.MMSYSERR_NOERROR ->
   longMsg_result env = WinMM.MMSYSERR_NOERROR ->
   sendMessage debug fuel env self message =
     Some (self, [],
           [malloc n; midiOutPrepareHeader message n; midiOutLongMsg message n]
             ++ unprepare_wait (stillPlaying env) ++ [free],
           Returns)) /\
  (forall self' out calls c,
     sendMessage debug fuel env self message = Some (self', out, calls, c) ->
     length (List.filter (fun call => match call with free => true | _ => false end)
               calls) = 1%nat).
Proof.
  intros Hc Hlen Hhead Hmalloc n.
  assert (Htake : take (Z.to_nat n) message = message).
  { apply firstn_all2. lia. }
  assert (Hwait : forall k,
            List.filter (fun call => match call with free => true | _ => false end)
              (unprepare_wait k) = []).
  { intros k. unfold unprepare_wait. induction k as [|k IH]; [reflexivity|].
    cbn. exact IH. }
  split.
  - intros Hprep Hlong. unfold sendMessage. rewrite Hc. cbn [negb].
    rewrite wrap32_small by lia. fold n.
    destruct (Z.eqb_spec n 0); [lia|].
    rewrite Hhead, Z.eqb_refl, Hmalloc. cbn [negb].
    rewrite Hprep, Hlong, Z.eqb_refl. cbn [negb].
    rewrite Htake. reflexivity.
  - intros self' out calls c. unfold sendMessage. rewrite Hc. cbn [negb].
    rewrite wrap32_small by lia. fold n.
    destruct (Z.eqb_spec n 0); [lia|].
    rewrite Hhead, Z.eqb_refl, Hmalloc. cbn [negb].
    destruct (prepareHeader_result env =? WinMM.MMSYSERR_NOERROR); cbn [negb].
    + destruct (longMsg_result env =? WinMM.MMSYSERR_NOERROR); cbn [negb].
      * intros H. inversion H; subst. cbn.
        rewrite List.filter_app, Hwait. reflexivity.
      * destruct (report _ _ _ _ _) as [[[s o] c']|]; intros H;
          inversion H; subst. reflexivity.
    + destruct (report _ _ _ _ _) as [[[s o] c']|]; intros H;
        inversion H; subst. reflexivity.
Qed.

End Sending.

(** ** Windows MM: what the callback hands over *)

Section WinMMInput.

Lemma byte_at_is_byte (midiMessage : Z) (i : nat) :
  is_byte (WinMM.byte_at midiMessage i).
Proof.
  unfold is_byte, WinMM.byte_at. change 255 with (Z.ones 8).
  rewrite Z.land_ones by lia. apply Z.mod_pos_bound. lia.
Qed.

(** A byte with the bit 0x80 set is at least 0x80. *)
Lemma status_bit (status : Z) :
  is_byte status -> Z.land status 128 <> 0 -> 128 <= status.
Proof.
  intros Hb Hbit. unfold is_byte in Hb.
  destruct (Z.lt_ge_cases status 128) as [Hlt|]; [|assumption].
  exfalso. apply Hbit. apply Z.bits_inj'. intros k Hk.
  rewrite Z.land_spec, Z.bits_0.
  destruct (Z.eq_dec k 7) as [->|Hk7].
  - replace (Z.testbit status 7) with false; [reflexivity|].
    symmetry. apply Z.bits_above_log2; [lia|].
    destruct (Z.eq_dec status 0) as [->|]; [cbn; lia|].
    apply Z.log2_lt_pow2; [lia|]. change (2 ^ 7) with 128. lia.
  - change 128 with (2 ^ 7). rewrite Z.pow2_bits_eqb by lia.
    destruct (Z.eqb_spec 7 k); [lia|]. apply andb_false_r.
Qed.

(** The byte vector is empty again whenever the callback returns. *)
Lemma winmm_buffer_stays_empty data apiData input t :
  bytes (WinMM.message apiData) = [] ->
  bytes (WinMM.message (WinMM.midiInputCallback data apiData input t).1.2) = [].
Proof.
  intros Hbuf. unfold WinMM.midiInputCallback, WinMM.midiInputCallback_assemble.
  pose proof (winmm_stamp_frame data apiData t) as (_ & _ & _ & _ & Hb).
  destruct (WinMM.stamp data apiData t) as [data1 apiData1]. cbn [snd] in Hb.
  rewrite Hbuf in Hb.
  destruct input as [mm | sysex r | sysex r |]; cbn.
  - repeat match goal with
           | |- context [if ?c then _ else _] => destruct c
           | |- context [match ?c with Some _ => _ | None => _ end] =>
               destruct c
           | |- context [let '(_, _) := ?c in _] => destruct c
           end; cbn; auto.
  - destruct (truthy (Z.land (ignoreFlags data1) 1)) eqn:Hi; cbn.
    + destruct (0 <? WinMM.dwBytesRecorded sysex); cbn; exact Hb.
    + destruct (Z.ltb_spec 0 (WinMM.dwBytesRecorded sysex)); cbn.
      * destruct (deliver _ _ _). reflexivity.
      * rewrite Hb. unfold WinMM.int_of_DWORD.
        destruct (WinMM.dwBytesRecorded sysex <? 2 ^ 31);
          replace (Z.to_nat _) with 0%nat by lia; reflexivity.
  - destruct (truthy (Z.land (ignoreFlags data1) 1)) eqn:Hi; cbn.
    + destruct (0 <? WinMM.dwBytesRecorded sysex); cbn; exact Hb.
    + destruct (Z.ltb_spec 0 (WinMM.dwBytesRecorded sysex)); cbn.
      * destruct (deliver _ _ _). reflexivity.
      * exact Hb.
  - exact Hbuf.
Qed.

(** What a short message hands over. *)
Lemma winmm_short_handed_over data apiData midiMessage t m :
  bytes (WinMM.message apiData) = [] ->
  (WinMM.midiInputCallback_assemble data apiData
     (WinMM.MIM_DATA midiMessage) t).2 = Some m ->
  exists nBytes,
    (1 <= nBytes <= 3)%nat /\
    bytes m = map (WinMM.byte_at midiMessage) (seq 0 nBytes) /\
    128 <= WinMM.byte_at midiMessage 0.
Proof.
  intros Hbuf. unfold WinMM.midiInputCallback_assemble.
  pose proof (winmm_stamp_frame data apiData t) as (_ & _ & _ & _ & Hb).
  destruct (WinMM.stamp data apiData t) as [data1 apiData1]. cbn [snd] in Hb.
  rewrite Hbuf in Hb.
  assert (H0 : WinMM.byte_at midiMessage 0 = Z.land midiMessage 255).
  { unfold WinMM.byte_at. cbn [Z.of_nat Z.mul]. rewrite Z.shiftr_0_r.
    reflexivity. }
  unfold truthy.
  destruct (Z.eqb_spec (Z.land (Z.land midiMessage 255) 128) 0) as [|Hbit];
    cbn [negb]; [discriminate|].
  destruct (WinMM.short_length (ignoreFlags data1) (Z.land midiMessage 255))
    as [n|] eqn:Hn; cbn; [|discriminate].
  intros H. injection H as <-. exists n. cbn. rewrite Hb. cbn.
  split; [|split; [reflexivity|]].
  - revert Hn. unfold WinMM.short_length.
    repeat match goal with
           | |- context [if ?c then _ else _] => destruct c
           end; intros H; inversion H; lia.
  - rewrite H0. apply status_bit; [|exact Hbit].
    rewrite <- H0. apply byte_at_is_byte.
Qed.

(** X12. From an empty byte vector, whatever short messages come in, every
    message the callback hands over consists of the first one, two or three
    bytes of the packed message that came in, and its first byte is a status
    byte (0x80 or above); the byte vector is empty again at the end. *)
Theorem winmm_short_messages (inputs : list (WinMM.Input * Z)) :
  forall data apiData,
  bytes (WinMM.message apiData) = [] ->
  Forall (fun it => exists midiMessage, it.1 = WinMM.MIM_DATA midiMessage)
    inputs ->
  Forall2
    (fun it r =>
       forall m, r = Some m ->
       exists midiMessage nBytes,
         it.1 = WinMM.MIM_DATA midiMessage /\ (1 <= nBytes <= 3)%nat /\
         bytes m = map (WinMM.byte_at midiMessage) (seq 0 nBytes) /\
         128 <= WinMM.byte_at midiMessage 0 < 256)
    inputs (midiInputCallback_feed data apiData inputs).2 /\
  bytes (WinMM.message (midiInputCallback_feed data apiData inputs).1.2) = [].
Proof.
  induction inputs as [|[input t] inputs IH]; intros data apiData Hbuf Hall.
  - cbn. split; [constructor | exact Hbuf].
  - inversion Hall as [|? ? [mm Hmm] Hall']; subst. cbn in Hmm. subst input.
    cbn [midiInputCallback_feed].
    pose proof (winmm_buffer_stays_empty data apiData (WinMM.MIM_DATA mm) t Hbuf)
      as Hbuf1.
    destruct (WinMM.midiInputCallback data apiData (WinMM.MIM_DATA mm) t)
      as [[data1 apiData1] out] eqn:Hcall. cbn [fst snd] in Hbuf1.
    destruct (IH data1 apiData1 Hbuf1 Hall') as [Hrs Hend].
    destruct (midiInputCallback_feed data1 apiData1 inputs)
      as [[data2 apiData2] rs]. cbn [fst snd] in *.
    split; [|exact Hend]. constructor; [|exact Hrs].
    intros m Hm.
    destruct (winmm_short_handed_over data apiData mm t m Hbuf Hm)
      as (n & Hn & Hbytes & Hstatus).
    pose proof (byte_at_is_byte mm 0) as Hb0. unfold is_byte in Hb0.
    exists mm, n. split_and!; try done; lia.
Qed.

(** X13. A sysex buffer that comes back with recorded bytes is handed to
    the driver again, whether or not sysex messages are ignored and whether
    or not the driver reports an error for it, and a buffer that comes back
    empty is not. With recorded bytes and sysex not ignored, [MIM_LONGDATA]
    hands over a message that consists of the recorded bytes of this buffer
    alone, and [MIM_LONGERROR] hands over a message with no bytes; in every
    other case nothing is handed over. *)
Theorem winmm_sysex_buffer (data : RtMidiInData) (apiData : WinMM.WinMidiData)
  (sysex : WinMM.MIDIHDR) (result t : Z) :
  bytes (WinMM.message apiData) = [] ->
  0 <= WinMM.dwBytesRecorded sysex < 2 ^ 31 ->
  let n := WinMM.dwBytesRecorded sysex in
  let kept := (0 <? n) && negb (truthy (Z.land (ignoreFlags data) 1)) in
  let long := WinMM.midiInputCallback_assemble data apiData
                (WinMM.MIM_LONGDATA sysex result) t in
  let err := WinMM.midiInputCallback_assemble data apiData
               (WinMM.MIM_LONGERROR sysex result) t in
  (In (AddBuffer (WinMM.dwUser sysex)) long.1.2 <-> 0 < n) /\
  (In (AddBuffer (WinMM.dwUser sysex)) err.1.2 <-> 0 < n) /\
  (if kept then
     exists m m', long.2 = Some m /\ err.2 = Some m' /\
       bytes m = take (Z.to_nat n) (WinMM.lpData sysex) /\ bytes m' = []
   else long.2 = None /\ err.2 = None).
Proof.
  intros Hbuf Hn n kept long err. subst long err kept.
  unfold WinMM.midiInputCallback_assemble.
  pose proof (winmm_stamp_frame data apiData t) as (_ & _ & Hflags & _ & Hb).
  destruct (WinMM.stamp data apiData t) as [data1 apiData1].
  cbn [fst snd] in Hflags, Hb. rewrite Hbuf in Hb. rewrite Hflags.
  assert (Hint : WinMM.int_of_DWORD n = n).
  { unfold WinMM.int_of_DWORD. destruct (Z.ltb_spec n (2 ^ 31)); [reflexivity|].
    subst n. lia. }
  fold n. rewrite Hint.
  destruct (Z.ltb_spec 0 n) as [Hpos|Hzero];
    destruct (truthy (Z.land (ignoreFlags data) 1));
    cbn [andb negb fst snd].
  - split_and!; try reflexivity;
      (split; [intros _; exact Hpos | intros _; left; reflexivity]).
  - split_and!;
      try (split; [intros _; exact Hpos | intros _; left; reflexivity]).
    eexists _, _. split; [reflexivity|]. split; [reflexivity|].
    cbn. rewrite Hb. auto.
  - split_and!; try reflexivity; (split; [intros [] | lia]).
  - split_and!; try reflexivity; (split; [intros [] | lia]).
Qed.

End WinMMInput.

(** ** ALSA: what the loop hands over *)

(** A delivery changes nothing but the queue. *)
Lemma deliver_firstMessage (who : string) (data : RtMidiInData)
  (m : MidiMessage) :
  firstMessage (deliver who data m).1 = firstMessage data /\
  ignoreFlags (deliver who data m).1 = ignoreFlags data /\
  usingCallback (deliver who data m).1 = usingCallback data /\
  continueSysex (deliver who data m).1 = continueSysex data.
Proof.
  unfold deliver. destruct (usingCallback data) eqn:E; [auto|].
  destruct (queue_push who (queue data) m) as [[q ok] out]. cbn. auto.
Qed.

Section AlsaRun.

Import Alsa.

(** An iteration that hands nothing over has not stamped. *)
Lemma alsa_none_frame data apiData loc ev data' apiData' loc' :
  alsaMidiHandler_assemble data apiData loc ev =
    (data', apiData', loc', None) ->
  data' = data /\ lastTime apiData' = lastTime apiData.
Proof.
  intros H. unfold alsaMidiHandler_assemble in H.
  pose proof (alsa_select_lastTime (ignoreFlags data) apiData ev) as Hsel.
  destruct (select (ignoreFlags data) apiData ev) as [apiData1 doDecode].
  cbn [fst] in Hsel.
  destruct (doDecode && (0 <? Z.of_nat (length (decoded ev)))) eqn:Hd.
  - apply andb_true_iff in Hd as [_ Hpos]. apply Z.ltb_lt in Hpos.
    match type of H with
    | context [if ?c then (data, apiData1, _) else _] => destruct c eqn:Hc
    end; cbn in H.
    + rewrite orb_true_r in H. inversion H; subst. auto.
    + match type of H with
      | context [stamp data apiData1 ?x ev] =>
          assert (Hx : bytes x <> []);
          [|destruct (stamp data apiData1 x ev) as [[d a] m2] eqn:Hs;
            assert (Hm2 : bytes m2 = bytes x)]
      end.
      * destruct (continueSysex loc); cbn; destruct (decoded ev);
          cbn in Hpos |- *; try lia; try discriminate.
        intros E. apply app_eq_nil in E as [_ E]. discriminate.
      * unfold stamp in Hs. destruct (firstMessage data); inversion Hs;
          reflexivity.
      * cbn in H. rewrite orb_false_r in H.
        destruct (length (bytes m2) =? 0)%nat eqn:Hlen; [|inversion H].
        apply Nat.eqb_eq in Hlen. rewrite Hm2 in Hlen.
        apply length_zero_iff_nil in Hlen. contradiction.
  - cbn in H. destruct (continueSysex loc); cbn in H;
      rewrite ?orb_true_r in H; inversion H; subst; auto.
Qed.

(** An iteration that hands a message over has stamped it. *)
Lemma alsa_some_frame data apiData loc ev data' apiData' loc' m :
  alsaMidiHandler_assemble data apiData loc ev =
    (data', apiData', loc', Some m) ->
  firstMessage data' = false /\ lastTime apiData' = time ev /\
  timeStamp m =
    (if firstMessage data then 0
     else double_of_Z (wrap64 (time ev - lastTime apiData)) * 0.000001)%float.
Proof.
  intros H.
  destruct (alsa_assemble_stamped _ _ _ _ _ _ _ _ H)
    as (apiData1 & m1 & Hs & Hlast).
  unfold stamp in Hs. rewrite Hlast in Hs.
  destruct (firstMessage data) eqn:Hfm; inversion Hs; subst; cbn;
    split_and!; try reflexivity; exact Hfm.
Qed.

(** X14. In a run of the ALSA loop over any events, the delta-times of the
    messages handed over are 0.0 for the first message of the connection
    and otherwise the unsigned difference between the time of the event
    that completed the message and the time of the event that completed the
    message before: events that are filtered, that are not MIDI events or
    that only continue a sysex message do not count. *)
Theorem alsa_delta_times (evs : list snd_seq_event) :
  forall data apiData loc,
  let done := handed_over evs (alsaMidiHandler_feed data apiData loc evs).2 in
  map (fun em => timeStamp em.2) done =
    delta_times (firstMessage data) (lastTime apiData)
      (map (fun em => time em.1) done).
Proof.
  induction evs as [|ev evs IH]; intros data apiData loc; [reflexivity|].
  cbn [alsaMidiHandler_feed].
  destruct (alsaMidiHandler_assemble data apiData loc ev)
    as [[[data1 apiData1] loc1] [m|]] eqn:Hstep.
  - destruct (alsa_some_frame _ _ _ _ _ _ _ _ Hstep) as (Hf & Hl & Hts).
    specialize (IH (deliver "MidiInAlsa" data1 m).1 apiData1 loc1).
    destruct (deliver_firstMessage "MidiInAlsa" data1 m) as (Hf' & _).
    rewrite Hf', Hf, Hl in IH.
    destruct (alsaMidiHandler_feed _ apiData1 loc1 evs) as [[[d a] l] rs].
    cbn [snd handed_over map delta_times fst] in *.
    rewrite Hts, IH. reflexivity.
  - destruct (alsa_none_frame _ _ _ _ _ _ _ Hstep) as (-> & Hl).
    specialize (IH data apiData1 loc1). rewrite Hl in IH.
    destruct (alsaMidiHandler_feed data apiData1 loc1 evs) as [[[d a] l] rs].
    cbn [snd handed_over] in *. exact IH.
Qed.

(** X15. An event that is decoded to at least one byte and is not a sysex
    event always completes a message: the message handed over consists of
    the bytes of the event, preceded by the bytes of the sysex message that
    was under way if there was one, and no sysex message is under way
    afterwards. *)
Theorem alsa_event_completes (data : RtMidiInData) (apiData : AlsaMidiData)
  (loc : Locals) (ev : snd_seq_event) :
  (select (ignoreFlags data) apiData ev).2 = true ->
  type ev <> SND_SEQ_EVENT_SYSEX ->
  decoded ev <> [] ->
  exists data' apiData' m,
    alsaMidiHandler_assemble data apiData loc ev =
      (data', apiData', mkLocals false m, Some m) /\
    bytes m =
      (if continueSysex loc then bytes (message loc) else []) ++ decoded ev.
Proof.
  intros Hsel Htype Hdec. unfold alsaMidiHandler_assemble.
  destruct (select (ignoreFlags data) apiData ev) as [apiData1 doDecode].
  cbn [snd] in Hsel. subst doDecode. cbn [andb].
  assert (Hpos : (0 <? Z.of_nat (length (decoded ev))) = true).
  { apply Z.ltb_lt. destruct (decoded ev); [congruence | cbn [length]; lia]. }
  rewrite Hpos.
  assert (Hcont : match type ev with
                  | SND_SEQ_EVENT_SYSEX => true | _ => false end = false)
    by (destruct (type ev); congruence).
  assert (Hlen : forall l : list Z, (length (l ++ decoded ev) =? 0)%nat = false).
  { intros l. apply Nat.eqb_neq. rewrite length_app.
    destruct (decoded ev); [congruence | cbn [length]; lia]. }
  assert (Hlen0 : (length (decoded ev) =? 0)%nat = false) by exact (Hlen []).
  unfold stamp.
  destruct (type ev); try congruence;
    destruct (continueSysex loc), (firstMessage data); cbn;
    rewrite ?Hlen, ?Hlen0; cbn;
    eexists _, _, _; (split; [reflexivity|]); reflexivity.
Qed.

(** X16. The decoding buffer never shrinks, and whenever a sysex event is
    decoded the buffer is at least as large as the event. *)
Theorem alsa_buffer_size (evs : list snd_seq_event) :
  forall data apiData loc,
  bufferSize apiData <=
    bufferSize (alsaMidiHandler_feed data apiData loc evs).1.1.2 /\
  Forall (fun ev =>
            type ev = SND_SEQ_EVENT_SYSEX ->
            truthy (Z.land (ignoreFlags data) 1) = false ->
            ext_len ev <=
              bufferSize (alsaMidiHandler_feed data apiData loc evs).1.1.2)
    evs.
Proof.
  assert (Hsel : forall flags a ev,
            bufferSize a <= bufferSize (select flags a ev).1 /\
            (type ev = SND_SEQ_EVENT_SYSEX -> truthy (Z.land flags 1) = false ->
             ext_len ev <= bufferSize (select flags a ev).1)).
  { intros flags a ev. unfold select.
    destruct (type ev); cbn; try (split; [lia | congruence]).
    destruct (truthy (Z.land flags 1)); cbn; [split; [lia | congruence]|].
    destruct (Z.ltb_spec (bufferSize a) (ext_len ev)); cbn; split; lia. }
  assert (Hstep : forall data a loc ev,
            bufferSize (alsaMidiHandler_assemble data a loc ev).1.1.2 =
              bufferSize (select (ignoreFlags data) a ev).1 /\
            ignoreFlags (alsaMidiHandler_assemble data a loc ev).1.1.1 =
              ignoreFlags data).
  { intros data a loc ev. unfold alsaMidiHandler_assemble, stamp.
    destruct (select (ignoreFlags data) a ev) as [a1 dd]. cbn [fst].
    repeat match goal with
           | |- context [if ?c then _ else _] => destruct c
           | |- context [match ?c with SND_SEQ_EVENT_SYSEX => _ | _ => _ end] =>
               destruct c
           end; cbn; auto. }
  induction evs as [|ev evs IH]; intros data apiData loc.
  - cbn. split; [lia | constructor].
  - cbn [alsaMidiHandler_feed].
    pose proof (Hstep data apiData loc ev) as [Hb Hf].
    pose proof (Hsel (ignoreFlags data) apiData ev) as [Hmono Hfit].
    destruct (alsaMidiHandler_assemble data apiData loc ev)
      as [[[data1 apiData1] loc1] r]. cbn [fst snd] in Hb, Hf.
    set (data2 := match r with
                  | Some m => (deliver "MidiInAlsa" data1 m).1
                  | None => data1 end).
    assert (Hf2 : ignoreFlags data2 = ignoreFlags data).
    { subst data2. destruct r; [|exact Hf].
      destruct (deliver_firstMessage "MidiInAlsa" data1 m) as (_ & -> & _).
      exact Hf. }
    destruct (IH data2 apiData1 loc1) as [Hmono' Hall].
    destruct (alsaMidiHandler_feed data2 apiData1 loc1 evs)
      as [[[d a] l] rs]. cbn [fst snd] in *.
    split; [lia|]. constructor.
    + intros Ht Hi. specialize (Hfit Ht Hi). lia.
    + rewrite Hf2 in Hall. exact Hall.
Qed.

End AlsaRun.

(** ** JACK: the events of a buffer *)

Section JackRun.

Import Jack.

Lemma deliver_all_queue (who : string) (data : RtMidiInData)
  (m : MidiMessage) :
  usingCallback data = false ->
  queue (deliver who data m).1 = (queue_push who (queue data) m).1.1.
Proof.
  intros Hcb. unfold deliver. rewrite Hcb.
  destruct (queue_push who (queue data) m) as [[q ok] out]. reflexivity.
Qed.

Lemma last_cons_default (l : list Z) :
  forall t d, List.last (t :: l) d = List.last l t.
Proof.
  induction l as [|x l IH]; intros t d; [reflexivity|].
  change (List.last (t :: x :: l) d) with (List.last (x :: l) d).
  rewrite (IH x d), (IH x t). reflexivity.
Qed.

(** X17. [jackProcessIn] handles every event of the buffer: with a user
    callback set, the callback is invoked once for each event, in order,
    with the bytes of the event and its delta-time (0.0 for the first event
    of the connection, else the unsigned difference of the times read for
    it and for the event before); without one, these messages are pushed
    in order. Afterwards the baseline is the time read for the last
    event. *)
Theorem jack_events_delivered (events : list (list Z * Z)) :
  forall rtData jData,
  continueSysex rtData = false ->
  let msgs := jack_messages (firstMessage rtData) (lastTime jData) events in
  let r := jackProcessIn rtData jData events in
  (usingCallback rtData = true ->
   r.2 = map (fun m => UserCallback (timeStamp m) (bytes m)) msgs) /\
  (usingCallback rtData = false ->
   queue r.1.1 = (push_all "MidiInJack" (queue rtData) msgs).1) /\
  lastTime r.1.2 = List.last (map snd events) (lastTime jData) /\
  firstMessage r.1.1 =
    firstMessage rtData && (match events with [] => true | _ => false end).
Proof.
  induction events as [|[event t] events IH]; intros rtData jData Hcont.
  - cbn. rewrite andb_true_r. auto.
  - cbn [jackProcessIn]. unfold jackProcessIn_event.
    destruct (jackProcessIn_assemble rtData jData event t)
      as [[rtData1 jData1] m] eqn:Hasm.
    unfold jackProcessIn_assemble in Hasm.
    assert (Hm : m = mkMidiMessage event
                       (if firstMessage rtData then 0%float
                        else (double_of_Z (wrap64 (t - lastTime jData))
                              * 0.000001)%float)
                 /\ jData1 = mkJackMidiData t
                 /\ rtData1 = (if firstMessage rtData
                               then set_firstMessage false rtData else rtData)).
    { destruct (firstMessage rtData); inversion Hasm; subst; auto. }
    destruct Hm as (-> & -> & Hrt).
    assert (Hflags : firstMessage rtData1 = false /\
                     continueSysex rtData1 = false /\
                     usingCallback rtData1 = usingCallback rtData /\
                     queue rtData1 = queue rtData).
    { rewrite Hrt. destruct (firstMessage rtData) eqn:E; cbn; auto. }
    destruct Hflags as (Hf1 & Hc1 & Hu1 & Hq1).
    rewrite Hc1. cbn [negb].
    set (m := mkMidiMessage event _).
    pose proof (deliver_firstMessage "MidiInJack" rtData1 m)
      as (Hf2 & _ & Hu2 & Hc2).
    pose proof (deliver_all_queue "MidiInJack" rtData1 m) as Hq2.
    destruct (deliver "MidiInJack" rtData1 m) as [rtData2 out] eqn:Hdel.
    cbn [fst] in Hf2, Hu2, Hc2, Hq2.
    specialize (IH rtData2 (mkJackMidiData t) ltac:(congruence)).
    rewrite Hf2, Hf1 in IH. cbn [lastTime] in IH.
    destruct (jackProcessIn rtData2 (mkJackMidiData t) events)
      as [[rtData3 jData3] out3].
    cbn [fst snd] in *.
    destruct IH as (IHcb & IHq & IHl & IHf).
    unfold jack_messages in *.
    cbn [map fst snd delta_times zip_with]. fold m.
    split_and!.
    + intros Hcb. rewrite IHcb by congruence.
      unfold deliver in Hdel. rewrite Hu1, Hcb in Hdel.
      inversion Hdel; subst. reflexivity.
    + intros Hcb. rewrite IHq by congruence.
      cbn [push_all]. rewrite Hq2 by congruence. rewrite Hq1.
      destruct (queue_push "MidiInJack" (queue rtData) m) as [[q1 ok] o].
      cbn [fst].
      destruct (push_all "MidiInJack" q1 _) as [q2 oks]. reflexivity.
    + rewrite IHl. symmetry. apply last_cons_default.
    + rewrite IHf. rewrite andb_false_r. reflexivity.
Qed.

End JackRun.

(** ** Choosing the backend *)

Section Backend.

Import RtMidi.

Variable who : string.
Variable b : Build.
Variable env : Backends.

(** [openMidiApi] constructs the backend asked for when it is compiled in,
    and leaves [rtapi_] null otherwise. *)
Lemma openMidiApi_spec (api : Api) :
  openMidiApi b env api =
    if compiled b api then
      match construct env api with
      | Returns => (Some api, Returns)
      | Throws e => (None, Throws e)
      end
    else (None, Returns).
Proof.
  unfold openMidiApi, openMidiApi_case, compiled.
  destruct b as [c a j w d].
  destruct api, c, a, j, w, d; cbn;
    try match goal with
        | |- context [construct env ?X] => destruct (construct env X)
        end; reflexivity.
Qed.

Lemma getCompiledApi_compiled (api : Api) :
  In api (getCompiledApi b) <-> compiled b api = true.
Proof.
  unfold getCompiledApi, compiled.
  destruct b as [c a j w d]; cbn.
  destruct api, c, a, j, w, d; cbn; intuition congruence.
Qed.


(** X18. A constructor of [RtMidiIn] or [RtMidiOut] never calls through a
    null [rtapi_], and the backend of the object it yields is one that is
    compiled in. *)
Theorem backend_is_compiled (api : Api) :
  (RtMidi_new who b env api).2 <> NullPointer /\
  forall X, (RtMidi_new who b env api).2 = Object X -> compiled b X = true.
Proof.
  assert (Hsearch : forall apis rtapi_,
            Forall (fun a => compiled b a = true) apis ->
            (forall X, rtapi_ = Some X -> compiled b X = true) ->
            match search b env apis rtapi_ with
            | inr NullPointer => False
            | inr (Object _) => False
            | inr (Exception _) => True
            | inl r => forall X, r = Some X -> compiled b X = true
            end).
  { induction apis as [|a apis IH]; intros rtapi_ Hall Hr; [exact Hr|].
    inversion Hall as [|? ? Hc Hall']; subst.
    cbn [search]. rewrite openMidiApi_spec, Hc.
    destruct (construct env a); [|exact I].
    destruct (negb (portCount env a =? 0)).
    - intros X [= <-]. exact Hc.
    - apply IH; [exact Hall'|]. intros X [= <-]. exact Hc. }
  assert (Hall : Forall (fun a => compiled b a = true) (getCompiledApi b)).
  { apply Forall_forall. intros a Ha. apply list_elem_of_In in Ha.
    apply getCompiledApi_compiled. exact Ha. }
  specialize (Hsearch (getCompiledApi b) None Hall ltac:(discriminate)).
  unfold RtMidi_new.
  destruct (negb (Api_eqb api UNSPECIFIED)).
  - rewrite openMidiApi_spec.
    destruct (compiled b api) eqn:Hc.
    + destruct (construct env api); cbn.
      * split; [discriminate|]. intros X [= <-]. exact Hc.
      * split; discriminate.
    + destruct (search b env (getCompiledApi b) None) as [[X|]|[]]; cbn;
        try contradiction; split; try discriminate.
      intros X' [= <-]. apply Hsearch. reflexivity.
  - destruct (search b env (getCompiledApi b) None) as [[X|]|[]]; cbn;
      try contradiction; split; try discriminate.
    intros X' [= <-]. apply Hsearch. reflexivity.
Qed.


End Backend.

(** ** Windows MM: opening and closing the input port *)

Section WinMMPorts.

Import WinMMPort.

Variable debug : bool.

(** A report leaves the object as it is, however it ends. *)
Lemma error_keeps_object (fuel : nat) (self : MidiApi)
  (type : RtMidiErrorType) (errorString : string) :
  exists out c,
    error debug (S (S fuel)) self type errorString = Some (self, out, c).
Proof.
  destruct (errorCallback_ self) as [cb|] eqn:Hcb.
  - rewrite (error_with_callback _ _ _ cb) by assumption.
    destruct (firstErrorOccurred_ self); eauto.
  - simpl. rewrite Hcb. destruct type; eauto.
Qed.

Lemma fail_spec (fuel : nat) (self : MidiApi) (calls : list Call)
  (type : RtMidiErrorType) (errorString : string) :
  exists out c,
    fail debug (S (S fuel)) self calls type errorString =
      Some (set_errorString errorString self, out, calls, c).
Proof.
  unfold fail.
  destruct (error_keeps_object fuel (set_errorString errorString self)
              type errorString) as (out & c & ->).
  eauto.
Qed.

(** The sysex buffers are all prepared and registered, or the loop stops at
    the first failure and closes the device. *)
Lemma openPort_buffers_spec (env : Driver) (buffers : list nat) :
  let ok := forallb (fun i =>
                       (midiInPrepareHeader_result env i =? MMSYSERR_NOERROR)
                       && (midiInAddBuffer_result env i =? MMSYSERR_NOERROR))
              buffers in
  let r := openPort_buffers env buffers in
  (if ok then r.2 = None /\ ~ In midiInClose r.1
   else r.2 <> None /\ last r.1 = Some midiInClose).
Proof.
  induction buffers as [|i buffers IH]; cbn [forallb openPort_buffers].
  - cbn. auto.
  - destruct (midiInPrepareHeader_result env i =? MMSYSERR_NOERROR);
      cbn [negb andb]; [|cbn; split; [discriminate | reflexivity]].
    destruct (midiInAddBuffer_result env i =? MMSYSERR_NOERROR);
      cbn [negb andb]; [|cbn; split; [discriminate | reflexivity]].
    cbv zeta in IH.
    destruct (openPort_buffers env buffers) as [calls r].
    destruct (forallb _ buffers); cbn [fst snd] in *.
    + destruct IH as [-> Hno]. split; [reflexivity|].
      intros [H|[H|H]]; try discriminate; contradiction.
    + destruct IH as [Hr Hlast]. split; [exact Hr|].
      destruct calls as [|c calls]; [discriminate|].
      rewrite !last_cons_cons. exact Hlast.
Qed.

(** X20. [openPort] on a port that is not connected leaves it connected
    exactly when there is a device with that number and the driver accepts
    every step: opening the device, preparing and registering each of the
    four sysex buffers, and starting the input. Then it returns without a
    report and has not closed the device. When it leaves the port
    unconnected after the driver had opened the device, its last call to
    the driver closes the device again. *)
Theorem openPort_connects (fuel : nat) (env : Driver) (self : MidiApi)
  (portNumber : Z) :
  connected_ self = false ->
  0 <= portNumber ->
  let all_ok :=
    (portNumber <? midiInGetNumDevs env)
    && (midiInOpen_result env =? MMSYSERR_NOERROR)
    && forallb (fun i =>
                  (midiInPrepareHeader_result env i =? MMSYSERR_NOERROR)
                  && (midiInAddBuffer_result env i =? MMSYSERR_NOERROR))
         (seq 0 RT_SYSEX_BUFFER_COUNT)
    && (midiInStart_result env =? MMSYSERR_NOERROR) in
  exists self' out calls c,
    openPort debug (S (S fuel)) env self portNumber =
      Some (self', out, calls, c) /\
    connected_ self' = all_ok /\
    (all_ok = true -> c = Returns /\ out = [] /\ ~ In midiInClose calls) /\
    (all_ok = false -> midiInOpen_result env = MMSYSERR_NOERROR ->
     In (midiInOpen portNumber) calls ->
     last calls = Some midiInClose).
Proof.
  intros Hc Hpn all_ok. subst all_ok. unfold openPort. rewrite Hc.
  destruct (Z.eqb_spec (midiInGetNumDevs env) 0) as [H0|H0].
  { destruct (fail_spec fuel self [] NO_DEVICES_FOUND
        "MidiInWinMM::openPort: no MIDI input sources found!")
      as (out & c & ->).
    destruct (Z.ltb_spec portNumber (midiInGetNumDevs env)); [lia|].
    eexists _, _, _, _. split; [reflexivity|]. cbn.
    split_and!; [exact Hc | discriminate | intros _ _ []]. }
  destruct (Z.leb_spec (midiInGetNumDevs env) portNumber) as [Hge|Hlt].
  { destruct (fail_spec fuel self [] INVALID_PARAMETER
        ("MidiInWinMM::openPort: the 'portNumber' argument ("
           ++ ostream_unsigned portNumber ++ ") is invalid."))
      as (out & c & ->).
    destruct (Z.ltb_spec portNumber (midiInGetNumDevs env)); [lia|].
    eexists _, _, _, _. split; [reflexivity|]. cbn.
    split_and!; [exact Hc | discriminate | intros _ _ []]. }
  destruct (Z.ltb_spec portNumber (midiInGetNumDevs env)); [|lia].
  cbn [andb].
  destruct (midiInOpen_result env =? MMSYSERR_NOERROR) eqn:Hopen;
    cbn [negb andb].
  2:{ destruct (fail_spec fuel self [midiInOpen portNumber] DRIVER_ERROR
        "MidiInWinMM::openPort: error creating Windows MM MIDI input port.")
        as (out & c & ->).
      eexists _, _, _, _. split; [reflexivity|]. cbn.
      split_and!; [exact Hc | discriminate |].
      intros _ E. rewrite E in Hopen. discriminate. }
  pose proof (openPort_buffers_spec env (seq 0 RT_SYSEX_BUFFER_COUNT)) as Hb.
  cbv zeta in Hb.
  destruct (openPort_buffers env (seq 0 RT_SYSEX_BUFFER_COUNT)) as [calls r].
  destruct (forallb _ (seq 0 RT_SYSEX_BUFFER_COUNT)); cbn [fst snd andb] in *.
  2:{ destruct Hb as [Hr Hlast]. destruct r as [errorString|]; [|congruence].
      destruct (fail_spec fuel self (midiInOpen portNumber :: calls)
                  DRIVER_ERROR errorString) as (out & c & ->).
      eexists _, _, _, _. split; [reflexivity|]. cbn.
      split_and!; [exact Hc | discriminate |].
      intros _ _ _. destruct calls as [|c0 calls]; [discriminate|].
      rewrite last_cons_cons. exact Hlast. }
  destruct Hb as [-> Hno].
  destruct (midiInStart_result env =? MMSYSERR_NOERROR); cbn [negb].
  - eexists _, _, _, _. split; [reflexivity|]. cbn.
    split_and!; try done.
    intros _. split_and!; try done.
    intros [Hin|Hin]; [discriminate|].
    apply in_app_or in Hin as [Hin|[Hin|[]]]; [contradiction | discriminate].
  - destruct (fail_spec fuel self
        (midiInOpen portNumber :: calls ++ [midiInStart; midiInClose])
        DRIVER_ERROR
        "MidiInWinMM::openPort: error starting Windows MM MIDI input port.")
      as (out & c & ->).
    eexists _, _, _, _. split; [reflexivity|]. cbn.
    split_and!; [exact Hc | discriminate |].
    intros _ _ _.
    replace (midiInOpen portNumber :: calls ++ [midiInStart; midiInClose])
      with ((midiInOpen portNumber :: calls ++ [midiInStart]) ++ [midiInClose])
      by (cbn; rewrite <- app_assoc; reflexivity).
    apply last_snoc.
Qed.

(** The loop of [closePort] closes the device itself exactly when the driver
    refuses to release a buffer, and never leaves the critical section. *)
Lemma closePort_buffers_spec (env : Driver) (buffers : list nat) :
  let ok := forallb (fun i =>
                       midiInUnprepareHeader_result env i =? MMSYSERR_NOERROR)
              buffers in
  let r := closePort_buffers env buffers in
  r.2 = negb ok /\
  length (List.filter (fun call => match call with
                                   | midiInClose => true
                                   | _ => false
                                   end) r.1)
    = (if ok then 0 else 1)%nat /\
  ~ In LeaveCriticalSection r.1.
Proof.
  induction buffers as [|i buffers IH]; cbn [forallb closePort_buffers].
  - cbn. auto.
  - destruct (midiInUnprepareHeader_result env i =? MMSYSERR_NOERROR);
      cbn [negb andb].
    + cbv zeta in IH. destruct (closePort_buffers env buffers) as [calls r].
      cbn [fst snd] in *. destruct IH as (Hr & Hn & Hl).
      split_and!; [exact Hr | exact Hn |].
      intros [Hin|Hin]; [discriminate | contradiction].
    + cbn. split_and!; try reflexivity.
      intros [Hin|[Hin|[]]]; discriminate.
Qed.

(** X21. [closePort] does nothing on a port that is not connected. On a
    connected port it closes the device exactly once; the port is
    unconnected afterwards, and the critical section is left, exactly when
    the driver releases all four sysex buffers: when it refuses one,
    [closePort] reports a driver error with the port still marked
    connected and the critical section still held. *)
Theorem closePort_closes (fuel : nat) (env : Driver) (self : MidiApi) :
  (connected_ self = false ->
   closePort debug fuel env self = Some (self, [], [], Returns)) /\
  (connected_ self = true ->
   let released :=
     forallb (fun i => midiInUnprepareHeader_result env i =? MMSYSERR_NOERROR)
       (seq 0 RT_SYSEX_BUFFER_COUNT) in
   exists self' out calls c,
     closePort debug (S (S fuel)) env self = Some (self', out, calls, c) /\
     length (List.filter (fun call => match call with
                                      | midiInClose => true
                                      | _ => false
                                      end) calls) = 1%nat /\
     connected_ self' = negb released /\
     (In LeaveCriticalSection calls <-> released = true) /\
     (released = true -> c = Returns /\ out = [])).
Proof.
  split.
  - intros Hc. unfold closePort. rewrite Hc. reflexivity.
  - intros Hc released. subst released. unfold closePort. rewrite Hc.
    pose proof (closePort_buffers_spec env (seq 0 RT_SYSEX_BUFFER_COUNT))
      as Hb. cbv zeta in Hb.
    destruct (closePort_buffers env (seq 0 RT_SYSEX_BUFFER_COUNT))
      as [calls r].
    destruct (forallb _ (seq 0 RT_SYSEX_BUFFER_COUNT));
      cbn [fst snd negb] in Hb; destruct Hb as (-> & Hn & Hl).
    + eexists _, _, _, _. split; [reflexivity|].
      split_and!; try done.
      * cbn. rewrite List.filter_app, length_app, Hn. reflexivity.
      * split; [reflexivity|]. intros _. cbn. do 3 right.
        apply in_or_app. right. cbn. auto.
    + destruct (fail_spec fuel self
          ([EnterCriticalSection; midiInReset; midiInStop] ++ calls)
          DRIVER_ERROR
          "MidiInWinMM::openPort: error closing Windows MM MIDI input port (midiInUnprepareHeader).")
        as (out & c & ->).
      eexists _, _, _, _. split; [reflexivity|].
      split_and!; try done.
      split; [|discriminate].
      intros [Hin|[Hin|[Hin|Hin]]]; try discriminate. contradiction.
Qed.

(** A decimal numeral holds no space. *)
Lemma string_of_uint_no_space (d : Decimal.uint) (a b : string) :
  NilEmpty.string_of_uint d <> (a ++ String " " b)%string.
Proof.
  revert a.
  induction d; intros [|c a]; cbn; try discriminate;
    intros E; injection E as _ E; exact (IHd _ E).
Qed.

(** What follows the last space of a string. *)
Lemma after_last_space (s1 s2 d1 d2 : string) :
  (forall a b, d1 <> (a ++ String " " b)%string) ->
  (forall a b, d2 <> (a ++ String " " b)%string) ->
  (s1 ++ String " " d1)%string = (s2 ++ String " " d2)%string ->
  d1 = d2.
Proof.
  intros H1 H2. revert s2.
  induction s1 as [|c s1 IH]; intros [|c2 s2]; cbn; intros E.
  - congruence.
  - injection E as _ E. destruct (H1 _ _ E).
  - injection E as _ E. symmetry in E. destruct (H2 _ _ E).
  - injection E as _ E. exact (IH _ E).
Qed.

(** Different numbers are printed differently. *)
Lemma ostream_unsigned_inj (p q : Z) :
  0 <= p -> 0 <= q -> ostream_unsigned p = ostream_unsigned q -> p = q.
Proof.
  intros Hp Hq E. unfold ostream_unsigned in E.
  assert (E' : N.to_uint (Z.to_N p) = N.to_uint (Z.to_N q)).
  { pose proof (NilEmpty.usu (N.to_uint (Z.to_N p))) as Ep.
    pose proof (NilEmpty.usu (N.to_uint (Z.to_N q))) as Eq.
    rewrite E in Ep. congruence. }
  apply DecimalN.Unsigned.to_uint_inj in E'.
  apply Z2N.inj; assumption.
Qed.

(** X22. The names [getPortName] returns for two different port numbers of
    existing devices are different, whatever names the driver gives the
    devices; both calls return without a report and leave the object as it
    is. *)
Theorem getPortName_distinct (fuel : nat) (env : Driver) (self : MidiApi)
  (p q : Z) :
  0 <= p < midiInGetNumDevs env ->
  0 <= q < midiInGetNumDevs env ->
  p <> q ->
  exists np nq,
    getPortName debug fuel env self p = Some (self, np, [], Returns) /\
    getPortName debug fuel env self q = Some (self, nq, [], Returns) /\
    np <> nq.
Proof.
  intros Hp Hq Hpq. unfold getPortName.
  destruct (Z.leb_spec (midiInGetNumDevs env) p); [lia|].
  destruct (Z.leb_spec (midiInGetNumDevs env) q); [lia|].
  eexists _, _. split_and!; try reflexivity.
  intros E. apply Hpq. cbn in E.
  apply after_last_space in E.
  - apply ostream_unsigned_inj; [lia | lia | exact E].
  - intros a b. apply string_of_uint_no_space.
  - intros a b. apply string_of_uint_no_space.
Qed.

(** X23. [getPortName] returns the empty string exactly when there is no
    device with the given number; then the object holds the message that
    names the number, and otherwise nothing is reported and the object is
    left as it is. *)
Theorem getPortName_empty_iff (fuel : nat) (env : Driver) (self : MidiApi)
  (portNumber : Z) :
  exists self' name out c,
    getPortName debug (S (S fuel)) env self portNumber =
      Some (self', name, out, c) /\
    (name = EmptyString <-> midiInGetNumDevs env <= portNumber) /\
    (midiInGetNumDevs env <= portNumber ->
     errorString_ self' =
       ("MidiInWinMM::getPortName: the 'portNumber' argument ("
          ++ ostream_unsigned portNumber ++ ") is invalid.")%string) /\
    (portNumber < midiInGetNumDevs env ->
     self' = self /\ out = [] /\ c = Returns).
Proof.
  unfold getPortName.
  destruct (Z.leb_spec (midiInGetNumDevs env) portNumber) as [Hge|Hlt].
  - destruct (error_keeps_object fuel
        (set_errorString
           ("MidiInWinMM::getPortName: the 'portNumber' argument ("
              ++ ostream_unsigned portNumber ++ ") is invalid.") self)
        WARNING
        ("MidiInWinMM::getPortName: the 'portNumber' argument ("
           ++ ostream_unsigned portNumber ++ ") is invalid."))
      as (out & c & ->).
    eexists _, _, _, _. split; [reflexivity|].
    split_and!; [tauto | reflexivity | lia].
  - eexists _, _, _, _. split; [reflexivity|].
    split_and!; [|lia|auto].
    split; [|lia]. intros E.
    destruct (szPname env portNumber); discriminate.
Qed.

End WinMMPorts.

(** ** ALSA: sending *)

Section AlsaSending.

Import AlsaOut.

Variable debug : bool.

(** The store loop inside the block: the bytes of the message are in place,
    the rest of the block and its size are as before. *)
Lemma store_in_block (message : list Z) (n k : nat) (mem : list Z) :
  (k + n <= length mem)%nat ->
  exists mem',
    store message (seq k n) (Some mem) = inl (Some mem') /\
    length mem' = length mem /\
    (forall i, (k <= i < k + n)%nat -> mem' !! i = Some (message !!! i)) /\
    (forall i, (i < k)%nat -> mem' !! i = mem !! i).
Proof.
  revert k mem. induction n as [|n IH]; intros k mem Hlen.
  - exists mem. cbn. split_and!; try reflexivity. intros i Hi. lia.
  - cbn [seq store].
    destruct (Nat.ltb_spec k (length mem)) as [Hk|Hk]; [|lia].
    destruct (IH (S k) (<[k := message !!! k]> mem))
      as (mem' & -> & Hl & Hin & Hout).
    { rewrite length_insert. lia. }
    exists mem'. rewrite length_insert in Hl.
    split_and!; [reflexivity | exact Hl | |].
    + intros i Hi. destruct (decide (i = k)) as [->|Hne].
      * rewrite Hout by lia. apply list_lookup_insert_eq. exact Hk.
      * apply Hin. lia.
    + intros i Hi. rewrite Hout by lia.
      apply list_lookup_insert_ne. lia.
Qed.

(** The store loop running over the end of the block. *)
Lemma store_beyond_block (message : list Z) (n k : nat) (mem : list Z) :
  (k <= length mem < k + n)%nat ->
  store message (seq k n) (Some mem) = inr (length mem).
Proof.
  revert k mem. induction n as [|n IH]; intros k mem Hlen; [lia|].
  cbn [seq store].
  destruct (Nat.ltb_spec k (length mem)) as [Hk|Hk].
  - rewrite IH by (rewrite length_insert; lia).
    rewrite length_insert. reflexivity.
  - f_equal. lia.
Qed.

Lemma finish_spec (fuel : nat) (self : MidiApi) (data : AlsaMidiData)
  (calls : list Call) (type : RtMidiErrorType) (errorString : string) :
  exists out c,
    finish debug (S (S fuel)) self data calls type errorString =
      Some (Finished (set_errorString errorString self) data out calls c).
Proof.
  unfold finish.
  destruct (error_keeps_object debug fuel (set_errorString errorString self)
              type errorString) as (out & c & ->).
  eauto.
Qed.

(** From [snd_seq_event_t ev;] on, with the message fitting the block: the
    call runs to its end, and the encoder gets the bytes of the message. *)
Lemma sendMessage_event_spec (fuel : nat) (env : Sequencer) (self : MidiApi)
  (data : AlsaMidiData) (calls0 : list Call) (message : list Z) (mem : list Z) :
  buffer data = Some mem ->
  (length message <= length mem)%nat ->
  exists self' mem' out calls c,
    sendMessage_event debug (S (S fuel)) env self data calls0 message
      (Z.of_nat (length message)) =
      Some (Finished self' (mkAlsaMidiData (bufferSize data) (Some mem')) out
              (calls0 ++ calls) c) /\
    length mem' = length mem /\
    (In snd_seq_event_output calls ->
     In (snd_midi_event_encode (Some message) (Z.of_nat (length message)))
       calls).
Proof.
  intros Hbuf Hlen. unfold sendMessage_event.
  rewrite Nat2Z.id, Hbuf.
  destruct (store_in_block message (length message) 0 mem)
    as (mem' & -> & Hl & Hin & _); [lia|].
  assert (Htake : take (length message) mem' = message).
  { apply list_eq. intros i.
    destruct (Nat.lt_ge_cases i (length message)) as [Hi|Hi].
    - rewrite lookup_take_lt by exact Hi. rewrite Hin by lia.
      symmetry. apply list_lookup_lookup_total_lt. exact Hi.
    - rewrite lookup_take_ge by exact Hi.
      symmetry. apply lookup_ge_None_2. exact Hi. }
  cbn [option_map]. rewrite Htake.
  destruct (encode_result env <? _).
  { destruct (finish_spec fuel self
        (mkAlsaMidiData (bufferSize data) (Some mem'))
        (calls0 ++ [snd_midi_event_encode (Some message)
                      (Z.of_nat (length message))])
        WARNING "MidiOutAlsa::sendMessage: event parsing error!")
      as (out & c & ->).
    eexists _, mem', _, _, _. split_and!; [reflexivity | exact Hl |].
    intros _. left. reflexivity. }
  destruct (event_output_result env <? 0).
  { destruct (finish_spec fuel self
        (mkAlsaMidiData (bufferSize data) (Some mem'))
        ((calls0 ++ [snd_midi_event_encode (Some message)
                       (Z.of_nat (length message))])
           ++ [snd_seq_event_output])
        WARNING
        "MidiOutAlsa::sendMessage: error sending MIDI message to port.")
      as (out & c & ->).
    rewrite <- app_assoc.
    eexists _, mem', _, _, _. split_and!; [reflexivity | exact Hl |].
    intros _. left. reflexivity. }
  rewrite <- !app_assoc.
  eexists _, mem', _, _, _. split_and!; [reflexivity | exact Hl |].
  intros _. left. reflexivity.
Qed.

(** X24. With a block of [bufferSize] bytes behind [buffer], as
    [initialize] leaves it, and an allocator that gives blocks of the size
    asked for, [sendMessage] stores no byte outside the block and runs to
    its end; [bufferSize] is then the larger of its old value and the
    length of the message; if the event is sent at all, the encoder has
    been given exactly the bytes of the message. Afterwards there is again
    a block of [bufferSize] bytes behind [buffer], except when the message
    was longer than [bufferSize] and resizing the coder or the allocation
    failed. *)
Theorem alsa_sendMessage_in_block (fuel : nat) (env : Sequencer)
  (self : MidiApi) (data : AlsaMidiData) (message : list Z) :
  malloc_sized env ->
  buffer_ok data = true ->
  Z.of_nat (length message) < 2 ^ 32 ->
  let nBytes := Z.of_nat (length message) in
  exists self' data' out calls c,
    sendMessage debug (S (S fuel)) env self data message =
      Some (Finished self' data' out calls c) /\
    bufferSize data' = Z.max (bufferSize data) nBytes /\
    (In snd_seq_event_output calls ->
     In (snd_midi_event_encode (Some message) nBytes) calls) /\
    (buffer_ok data' = false <->
     bufferSize data < nBytes /\
     (resize_buffer_result env <> 0 \/ malloc_result env nBytes = None)).
Proof.
  intros Hmalloc Hok H32 nBytes. subst nBytes.
  unfold buffer_ok in Hok.
  destruct (buffer data) as [mem|] eqn:Hbuf; [|discriminate].
  apply Z.eqb_eq in Hok.
  unfold sendMessage. rewrite (wrap32_small (Z.of_nat (length message))) by lia.
  rewrite ?Hbuf.
  destruct (Z.ltb_spec (bufferSize data) (Z.of_nat (length message)))
    as [Hlt|Hge].
  - cbn [bufferSize buffer].
    destruct (Z.eqb_spec (resize_buffer_result env) 0) as [Hr|Hr];
      cbn [negb].
    + destruct (malloc_result env (Z.of_nat (length message)))
        as [mem1|] eqn:Hm.
      * pose proof (Hmalloc _ _ Hm) as Hl1.
        destruct (sendMessage_event_spec fuel env self
                    (mkAlsaMidiData (Z.of_nat (length message)) (Some mem1))
                    ([snd_midi_event_resize_buffer (Z.of_nat (length message))]
                       ++ [free; malloc (Z.of_nat (length message))])
                    message mem1)
          as (self' & mem' & out & calls & c & -> & Hl & Hin);
          [reflexivity | lia |].
        eexists _, _, _, _, _. split; [reflexivity|].
        cbn [bufferSize buffer]. split_and!.
        -- lia.
        -- intros Hout. apply in_or_app. right. apply Hin.
           apply in_app_or in Hout as [Hout|Hout]; [|exact Hout].
           destruct Hout as [Hout|[Hout|[Hout|[]]]]; discriminate.
        -- unfold buffer_ok. cbn [bufferSize buffer]. split.
           ++ intros Hf. apply Z.eqb_neq in Hf. lia.
           ++ intros [_ [Hne|Hne]]; [contradiction | discriminate].
      * destruct (finish_spec fuel self
            (mkAlsaMidiData (Z.of_nat (length message)) None)
            ([snd_midi_event_resize_buffer (Z.of_nat (length message))]
               ++ [free; malloc (Z.of_nat (length message))])
            MEMORY_ERROR
            ("MidiOutAlsa::initialize: error allocating buffer memory!"
               ++ nl ++ nl)%string)
          as (out & c & ->).
        eexists _, _, _, _, _. split; [reflexivity|].
        cbn [bufferSize buffer]. split_and!.
        -- lia.
        -- intros [Hout|[Hout|[Hout|[]]]]; discriminate.
        -- unfold buffer_ok. cbn [buffer]. split; auto.
    + destruct (finish_spec fuel self
          (mkAlsaMidiData (Z.of_nat (length message)) (Some mem))
          [snd_midi_event_resize_buffer (Z.of_nat (length message))]
          DRIVER_ERROR
          "MidiOutAlsa::sendMessage: ALSA error resizing MIDI event buffer.")
        as (out & c & ->).
      eexists _, _, _, _, _. split; [reflexivity|].
      cbn [bufferSize buffer]. split_and!.
      * lia.
      * intros [Hout|[]]; discriminate.
      * unfold buffer_ok. cbn [bufferSize buffer]. split; [auto|].
        intros _. apply Z.eqb_neq. lia.
  - destruct (sendMessage_event_spec fuel env self data [] message mem)
      as (self' & mem' & out & calls & c & -> & Hl & Hin);
      [exact Hbuf | lia |].
    eexists _, _, _, _, _. split; [reflexivity|].
    cbn [bufferSize buffer app]. split_and!.
    + lia.
    + exact Hin.
    + unfold buffer_ok. cbn [bufferSize buffer]. split.
      * intros Hf. apply Z.eqb_neq in Hf. lia.
      * intros [Hlt _]. lia.
Qed.

(** X25. When the message is longer than [bufferSize] and resizing the
    coder fails, [sendMessage] leaves [bufferSize] at the length of the
    message with the old, shorter block behind [buffer]; when the
    allocation fails, it leaves the null pointer there. Either way the next
    [sendMessage] of that message, whatever the environment then answers,
    skips the resizing and stores outside the block: at the index just
    after the old block, or at index 0 through the null pointer. *)
Theorem alsa_sendMessage_after_failed_resize (fuel : nat) (env : Sequencer)
  (self : MidiApi) (data : AlsaMidiData) (message : list Z) :
  buffer_ok data = true ->
  Z.of_nat (length message) < 2 ^ 32 ->
  bufferSize data < Z.of_nat (length message) ->
  resize_buffer_result env <> 0 \/
  malloc_result env (Z.of_nat (length message)) = None ->
  exists self' data' out calls c,
    sendMessage debug (S (S fuel)) env self data message =
      Some (Finished self' data' out calls c) /\
    ~ In snd_seq_event_output calls /\
    forall fuel' env',
      sendMessage debug fuel' env' self' data' message =
        Some (OutOfBounds (if resize_buffer_result env =? 0 then 0%nat
                           else Z.to_nat (bufferSize data))).
Proof.
  intros Hok H32 Hlt Hfail.
  unfold buffer_ok in Hok.
  destruct (buffer data) as [mem|] eqn:Hbuf; [|discriminate].
  apply Z.eqb_eq in Hok.
  unfold sendMessage. rewrite (wrap32_small (Z.of_nat (length message))) by lia.
  rewrite ?Hbuf.
  destruct (Z.ltb_spec (bufferSize data) (Z.of_nat (length message)));
    [|lia].
  cbn [bufferSize buffer].
  destruct (Z.eqb_spec (resize_buffer_result env) 0) as [Hr|Hr]; cbn [negb].
  - destruct Hfail as [Hne|Hm]; [contradiction|]. rewrite Hm.
    destruct (finish_spec fuel self
        (mkAlsaMidiData (Z.of_nat (length message)) None)
        ([snd_midi_event_resize_buffer (Z.of_nat (length message))]
           ++ [free; malloc (Z.of_nat (length message))])
        MEMORY_ERROR
        ("MidiOutAlsa::initialize: error allocating buffer memory!"
           ++ nl ++ nl)%string)
      as (out & c & ->).
    eexists _, _, _, _, _. split; [reflexivity|].
    cbn [bufferSize buffer]. split.
    + intros [Hout|[Hout|[Hout|[]]]]; discriminate.
    + intros fuel' env'.
      rewrite Z.ltb_irrefl. unfold sendMessage_event. cbn [buffer].
      destruct (Z.to_nat (Z.of_nat (length message))) eqn:Hn; [lia|].
      reflexivity.
  - destruct (finish_spec fuel self
        (mkAlsaMidiData (Z.of_nat (length message)) (Some mem))
        [snd_midi_event_resize_buffer (Z.of_nat (length message))]
        DRIVER_ERROR
        "MidiOutAlsa::sendMessage: ALSA error resizing MIDI event buffer.")
      as (out & c & ->).
    eexists _, _, _, _, _. split; [reflexivity|].
    cbn [bufferSize buffer]. split.
    + intros [Hout|[]]; discriminate.
    + intros fuel' env'.
      rewrite Z.ltb_irrefl. unfold sendMessage_event. cbn [buffer].
      rewrite store_beyond_block by lia.
      rewrite Hok, Nat2Z.id. reflexivity.
Qed.

End AlsaSending.


(** * The properties at concrete inputs *)

Module Examples.

(** The round trip on a new queue of capacity 2 with a note-on and a note-off. *)
Lemma push_pop_roundtrip_witness :
  let self := MidiInApi_new 2 0 in
  let msgs := [mkMidiMessage [144; 60; 100] 0%float;
               mkMidiMessage [128; 60; 0] 0.5%float] in
  (usingCallback (inputData_ self) = false /\
   queue_wf (queue (inputData_ self)) /\
   size (queue (inputData_ self)) = 0 /\
   Z.of_nat (length msgs) <= ringSize (queue (inputData_ self))) /\
  exists q1 q2,
    push_all "RtMidiIn" (queue (inputData_ self)) msgs =
      (q1, replicate (length msgs) true) /\
    getMessage_n false 0 (length msgs) (with_queue q1 self) =
      Some (with_queue q2 self, map polled msgs) /\
    size q2 = 0.
Proof.
  intros self msgs.
  assert (Hwf : queue_wf (queue (inputData_ self))).
  { apply MidiQueue_new_wf. lia. }
  split.
  - split; [reflexivity|]. split; [exact Hwf|].
    split; [reflexivity | cbn; lia].
  - apply (push_pop_roundtrip "RtMidiIn" false 0 self msgs);
      [reflexivity | exact Hwf | reflexivity | cbn; lia].
Defined.

(** A push on a queue of capacity 1 that holds one message. *)
Lemma push_full_refused_witness :
  let m := mkMidiMessage [144; 60; 100] 0%float in
  let q := mkMidiQueue 0 0 1 1 [m] in
  let data := mkRtMidiInData q 0 false false false false in
  size q = ringSize q /\
  queue_push "RtMidiIn" q m =
    (q, false,
     [Cerr (nl ++ "RtMidiIn" ++ ": message queue limit reached!!" ++ nl ++ nl)%string])
  /\ (usingCallback data = false -> queue data = q ->
      deliver "RtMidiIn" data m =
        (data,
         [Cerr (nl ++ "RtMidiIn" ++ ": message queue limit reached!!" ++ nl ++ nl)%string])).
Proof.
  intros m q data. split; [reflexivity|].
  apply (push_full_refused "RtMidiIn" q data m). reflexivity.
Defined.

(** A poll of a new queue of capacity 4. *)
Lemma pop_empty_witness :
  let self := MidiInApi_new 4 0 in
  size (queue (inputData_ self)) = 0 /\
  (exists base' out,
     getMessage false 2 self =
       Some (mkMidiInApi base' (inputData_ self), (0%float, []), out, Returns))
  /\ (usingCallback (inputData_ self) = false ->
      forall n, getMessage false n self =
                  Some (self, (0%float, []), [], Returns)).
Proof.
  intros self. split; [reflexivity|].
  apply (pop_empty false 0 self). reflexivity.
Defined.

(** A push and a poll on a queue of capacity 2 that holds one message in its
    last slot. *)
Lemma queue_inv_preserved_witness :
  let m := mkMidiMessage [144; 60; 100] 0%float in
  let self := with_queue (mkMidiQueue 1 0 1 2 [m; m]) (MidiInApi_new 2 0) in
  queue_inv (queue (inputData_ self)) /\
  (queue_inv (queue_push "RtMidiIn" (queue (inputData_ self)) m).1.1 /\
   (size (queue (inputData_ self)) = ringSize (queue (inputData_ self)) ->
    ring (queue_push "RtMidiIn" (queue (inputData_ self)) m).1.1 =
      ring (queue (inputData_ self))))
  /\ (exists self' r out,
        getMessage false 2 self = Some (self', r, out, Returns) /\
        queue_inv (queue (inputData_ self'))).
Proof.
  intros m self.
  assert (Hinv : queue_inv (queue (inputData_ self))).
  { unfold queue_inv; cbn. lia. }
  split; [exact Hinv|].
  apply (queue_inv_preserved "RtMidiIn" false 0 self m). exact Hinv.
Defined.



(** C7, counterexample. A note-on that the Windows MM callback receives at
    native time 500 when the baseline is 1000 is stamped with the
    wrapped-around difference, more than 4294966 seconds, not with 0.0. *)
Lemma negative_delta_not_clamped :
  let data := mkRtMidiInData (MidiQueue_new 4) 0 false false false false in
  let apiData := WinMM.mkWinMidiData 1000 MidiMessage_new in
  exists data' apiData' out m,
    WinMM.midiInputCallback_assemble data apiData (WinMM.MIM_DATA 8338576) 500
      = (data', apiData', out, Some m) /\
    timeStamp m <> 0%float /\
    PrimFloat.ltb 4294966 (timeStamp m) = true.
Proof.
  intros data apiData. eexists _, _, _, _. split; [reflexivity|].
  split.
  - intros H. apply (f_equal (PrimFloat.ltb 0)) in H.
    vm_compute in H. discriminate.
  - vm_compute. reflexivity.
Defined.

(** A note-on with baseline 1000, at native time 1500 and at native time
    500. *)
Lemma delta_is_wrapped_difference_witness :
  let data := mkRtMidiInData (MidiQueue_new 4) 0 false false false false in
  (firstMessage data = false /\ 0 <= 1000 < 2 ^ 32 /\ 0 <= 500 < 2 ^ 32 /\
   0 <= 1500 < 2 ^ 64) /\
  (exists data' apiData' out m,
     WinMM.midiInputCallback_assemble data
       (WinMM.mkWinMidiData 1000 MidiMessage_new) (WinMM.MIM_DATA 8338576) 1500
       = (data', apiData', out, Some m) /\
     timeStamp m = (double_of_Z 500 * 0.001)%float) /\
  (exists data' apiData' out m,
     WinMM.midiInputCallback_assemble data
       (WinMM.mkWinMidiData 1000 MidiMessage_new) (WinMM.MIM_DATA 8338576) 500
       = (data', apiData', out, Some m) /\
     timeStamp m = (double_of_Z (2 ^ 32 + 500 - 1000) * 0.001)%float) /\
  (exists data' apiData' loc' m,
     Alsa.alsaMidiHandler_assemble data (Alsa.mkAlsaMidiData 32 1000)
       Alsa.Locals_new
       (Alsa.mk_snd_seq_event Alsa.SND_SEQ_EVENT_default 0 1500 [144; 60; 127])
       = (data', apiData', loc', Some m) /\
     timeStamp m = (double_of_Z 500 * 0.000001)%float).
Proof.
  intros data. split; [repeat split; lia|].
  pose proof (proj1 delta_is_wrapped_difference) as Hwin.
  pose proof (proj2 delta_is_wrapped_difference) as Halsa.
  split; [|split].
  - eexists _, _, _, _. split; [reflexivity|].
    eapply (Hwin data (WinMM.mkWinMidiData 1000 MidiMessage_new)
             (WinMM.MIM_DATA 8338576) 1500 _ _ _ _);
      [reflexivity | cbn; lia | lia | reflexivity].
  - eexists _, _, _, _. split; [reflexivity|].
    eapply (Hwin data (WinMM.mkWinMidiData 1000 MidiMessage_new)
             (WinMM.MIM_DATA 8338576) 500 _ _ _ _);
      [reflexivity | cbn; lia | lia | reflexivity].
  - eexists _, _, _, _. split; [reflexivity|].
    eapply (Halsa data (Alsa.mkAlsaMidiData 32 1000) Alsa.Locals_new
             (Alsa.mk_snd_seq_event Alsa.SND_SEQ_EVENT_default 0 1500
                [144; 60; 127]) _ _ _ _);
      [reflexivity | cbn; lia | cbn; lia | reflexivity].
Defined.

(** C8, counterexample. With timing messages ignored, a clock event at time
    2000 leaves the baseline of the ALSA loop at 1000, and the note that
    follows at time 2500 is stamped with 1500 microseconds, measured from the
    message before the clock event, not with 500. *)
Lemma alsa_filtered_event_keeps_baseline :
  let data := mkRtMidiInData (MidiQueue_new 4) 2 false false false false in
  let apiData := Alsa.mkAlsaMidiData 32 1000 in
  let clock := Alsa.mk_snd_seq_event Alsa.SND_SEQ_EVENT_CLOCK 0 2000 [248] in
  let note :=
    Alsa.mk_snd_seq_event Alsa.SND_SEQ_EVENT_default 0 2500 [144; 60; 127] in
  exists data1 apiData1 loc1 data2 apiData2 loc2 m,
    Alsa.alsaMidiHandler_event data apiData Alsa.Locals_new clock =
      (data1, apiData1, loc1, []) /\
    Alsa.lastTime apiData1 = 1000 /\
    Alsa.lastTime apiData1 <> Alsa.time clock /\
    Alsa.alsaMidiHandler_assemble data1 apiData1 loc1 note =
      (data2, apiData2, loc2, Some m) /\
    timeStamp m = (double_of_Z 1500 * 0.000001)%float /\
    timeStamp m <> (double_of_Z 500 * 0.000001)%float.
Proof.
  intros data apiData clock note. eexists _, _, _, _, _, _, _.
  split; [reflexivity|]. split; [reflexivity|].
  split; [cbn; lia|]. split; [reflexivity|]. split; [reflexivity|].
  intros H. apply (f_equal (PrimFloat.ltb 0.001)) in H.
  vm_compute in H. discriminate.
Defined.

(** A clock message with timing ignored, in the Windows MM callback and in the
    ALSA loop, and a note in the ALSA loop. *)
Lemma baseline_update_witness :
  let data := mkRtMidiInData (MidiQueue_new 4) 2 false false false false in
  let apiData := Alsa.mkAlsaMidiData 32 1000 in
  let clock := Alsa.mk_snd_seq_event Alsa.SND_SEQ_EVENT_CLOCK 0 2000 [248] in
  let note :=
    Alsa.mk_snd_seq_event Alsa.SND_SEQ_EVENT_default 0 2500 [144; 60; 127] in
  (WinMM.MIM_DATA 248 <> WinMM.MIM_other /\
   (Alsa.select (ignoreFlags data) apiData clock).2 = false) /\
  WinMM.midiInputCallback data (WinMM.WinMidiData_new 1000)
    (WinMM.MIM_DATA 248) 2000 =
    (data, WinMM.mkWinMidiData 2000 (mkMidiMessage [] (double_of_Z 1000 * 0.001)),
     []) /\
  WinMM.lastTime
    (WinMM.midiInputCallback data (WinMM.WinMidiData_new 1000)
       (WinMM.MIM_DATA 248) 2000).1.2 = 2000 /\
  (exists data' apiData' loc' m,
     Alsa.alsaMidiHandler_assemble data apiData Alsa.Locals_new note =
       (data', apiData', loc', Some m) /\
     Alsa.lastTime apiData' = Alsa.time note) /\
  (exists loc',
     Alsa.alsaMidiHandler_event data apiData Alsa.Locals_new clock =
       (data, apiData, loc', [])).
Proof.
  intros data apiData clock note.
  split; [split; [discriminate | reflexivity]|].
  split; [reflexivity|]. split; [|split].
  - apply (proj1 baseline_update data (WinMM.WinMidiData_new 1000)
             (WinMM.MIM_DATA 248) 2000). discriminate.
  - eexists _, _, _, _. split; [reflexivity|].
    eapply (proj1 (proj2 baseline_update) data apiData Alsa.Locals_new note).
    reflexivity.
  - apply (proj2 (proj2 baseline_update) data apiData Alsa.Locals_new clock).
    reflexivity.
Defined.

(** C9, counterexample. On a new connection a short message whose first byte
    is 0x3C, received by the Windows MM callback at native time 1000, yields
    nothing, yet [firstMessage] goes from set to cleared and [lastTime] from 0
    to 1000. *)
Lemma invalid_status_takes_the_stamp :
  let data := RtMidiInData_new 4 0 in
  let apiData := WinMM.WinMidiData_new 0 in
  exists data' apiData',
    WinMM.midiInputCallback data apiData (WinMM.MIM_DATA 60) 1000 =
      (data', apiData', []) /\
    firstMessage data' <> firstMessage data /\
    WinMM.lastTime apiData' <> WinMM.lastTime apiData.
Proof.
  intros data apiData. eexists _, _. split; [reflexivity|].
  split; cbn; [discriminate | lia].
Defined.

(** A short message that starts with 0x3C on a new connection. *)
Lemma invalid_status_dropped_witness :
  let data := RtMidiInData_new 4 0 in
  let apiData := WinMM.WinMidiData_new 0 in
  Z.land (Z.land 60 255) 128 = 0 /\
  exists data' apiData',
    WinMM.midiInputCallback data apiData (WinMM.MIM_DATA 60) 1000 =
      (data', apiData', []) /\
    queue data' = queue data /\
    ignoreFlags data' = ignoreFlags data /\
    bytes (WinMM.message apiData') = bytes (WinMM.message apiData) /\
    firstMessage data' = false /\
    WinMM.lastTime apiData' = 1000.
Proof.
  intros data apiData. split; [reflexivity|].
  apply (invalid_status_dropped data apiData 60 1000). reflexivity.
Defined.

(** A driver error reported to a callback that itself reports two errors, and
    reports made with no callback set. *)
Lemma error_delivery_witness :
  let cb : RtMidiErrorCallback :=
    fun _ _ => [(DRIVER_ERROR, "nested"%string); (WARNING, "again"%string)] in
  let self := setErrorCallback (Some cb) MidiApi_new in
  (errorCallback_ self = Some cb /\ firstErrorOccurred_ self = false /\
   errorCallback_ MidiApi_new = None /\
   DRIVER_ERROR <> WARNING /\ DRIVER_ERROR <> DEBUG_WARNING) /\
  error false 2 self DRIVER_ERROR "no device" =
    Some (self, [ErrorCallback DRIVER_ERROR "no device"], Returns) /\
  error false 1 (set_firstErrorOccurred true self) DRIVER_ERROR "nested" =
    Some (set_firstErrorOccurred true self, [], Returns) /\
  (exists out,
     error false 1 MidiApi_new WARNING "no device" =
       Some (MidiApi_new, out, Returns)) /\
  (exists out,
     error false 1 MidiApi_new DRIVER_ERROR "no device" =
       Some (MidiApi_new, out, Throws (mkRtMidiError "no device" DRIVER_ERROR))).
Proof.
  intros cb self.
  split; [repeat split; discriminate|].
  split; [|split; [|split]].
  - apply (proj1 (proj1 (error_delivery false 0 self DRIVER_ERROR "no device")
                    cb eq_refl)).
    reflexivity.
  - apply (proj2 (proj1 (error_delivery false 0 (set_firstErrorOccurred true self)
                           DRIVER_ERROR "nested") cb eq_refl)).
    reflexivity.
  - apply (proj1 (proj2 (error_delivery false 0 MidiApi_new WARNING "no device")
                    eq_refl)).
    left. reflexivity.
  - apply (proj2 (proj2 (error_delivery false 0 MidiApi_new DRIVER_ERROR
                           "no device") eq_refl)); discriminate.
Defined.

(** ** The further properties *)

(** Three deliveries and three polls on a new queue of capacity 2: the
    third delivery is refused. *)
Lemma queue_refines_fifo_witness :
  let self := MidiInApi_new 2 0 in
  let m k := mkMidiMessage [144; k; 100] 0%float in
  let ops := [Deliver (m 60); Deliver (m 61); Deliver (m 62);
              Poll; Poll; Poll] in
  let q := queue (inputData_ self) in
  (usingCallback (inputData_ self) = false /\ queue_wf q) /\
  exists self',
    run_queue_ops "RtMidiIn" false 0 self ops =
      Some (self', (fifo_ops "RtMidiIn" (ringSize q) (contents q) ops).2) /\
    contents (queue (inputData_ self')) =
      (fifo_ops "RtMidiIn" (ringSize q) (contents q) ops).1 /\
    queue_wf (queue (inputData_ self')).
Proof.
  intros self m ops q.
  assert (Hwf : queue_wf q) by (apply MidiQueue_new_wf; lia).
  split; [split; [reflexivity | exact Hwf]|].
  apply (queue_refines_fifo "RtMidiIn" false 0 ops self);
    [reflexivity | exact Hwf].
Defined.

(** Three messages pushed on a new queue of capacity 2. *)
Lemma push_all_overflow_witness :
  let m k := mkMidiMessage [144; k; 100] 0%float in
  let msgs := [m 60; m 61; m 62] in
  let q := MidiQueue_new 2 in
  queue_wf q /\
  exists q',
    push_all "RtMidiIn" q msgs = (q', [true; true; false]) /\
    contents q' = contents q ++ [m 60; m 61] /\
    size q' = 2 /\
    queue_wf q'.
Proof.
  intros m msgs q.
  assert (Hwf : queue_wf q) by (apply MidiQueue_new_wf; lia).
  split; [exact Hwf|].
  exact (push_all_overflow "RtMidiIn" msgs q Hwf).
Defined.

(** A callback set and cancelled on an object with one queued message. *)
Lemma callback_mode_keeps_queue_witness :
  let m := mkMidiMessage [144; 60; 100] 0%float in
  let self := with_queue (mkMidiQueue 0 1 1 2 [m; m]) (MidiInApi_new 2 0) in
  let msgs := [m] in
  (usingCallback (inputData_ self) = false /\
   queue_wf (queue (inputData_ self)) /\
   contents (queue (inputData_ self)) = msgs) /\
  exists self1,
    setCallback false 0 true self = Some (self1, [], Returns) /\
    (forall m0,
       deliver "RtMidiIn" (inputData_ self1) m0 =
         (inputData_ self1, [UserCallback (timeStamp m0) (bytes m0)])) /\
    (exists base' out,
       getMessage false 2 self1 =
         Some (mkMidiInApi base' (inputData_ self1), (0%float, []), out,
               Returns)) /\
    cancelCallback false 0 self1 = Some (self, [], Returns) /\
    exists q',
      getMessage_n false 0 (length msgs) self =
        Some (with_queue q' self, map polled msgs) /\ size q' = 0.
Proof.
  intros m self msgs.
  assert (Hwf : queue_wf (queue (inputData_ self))).
  { unfold queue_wf; cbn. split; [lia|]. split; [lia|].
    split; [reflexivity|]. right. split; [lia | reflexivity]. }
  split; [split; [reflexivity | split; [exact Hwf | reflexivity]]|].
  apply (callback_mode_keeps_queue false "RtMidiIn" 0 self msgs);
    [reflexivity | exact Hwf | reflexivity].
Defined.

(** A timing clock on an object that ignores timing messages. *)
Lemma ignoreTypes_winmm_short_witness :
  let self := MidiInApi_new 4 0 in
  let apiData := WinMM.WinMidiData_new 0 in
  let data := inputData_ (ignoreTypes false true false self) in
  let status := Z.land 248 255 in
  Z.land status 128 <> 0 /\
  (is_Some (WinMM.midiInputCallback_assemble data apiData
              (WinMM.MIM_DATA 248) 1000).2 <->
   (true && ((status =? 241) || (status =? 248))
    || false && (status =? 254)) = false).
Proof.
  intros self apiData data status.
  assert (Hs : Z.land status 128 <> 0) by (vm_compute; discriminate).
  split; [exact Hs|].
  exact (ignoreTypes_winmm_short false true false self apiData 248 1000 Hs).
Defined.

Section PortEnumerationExamples.

Import AlsaPorts.

(** A sequencer with the system client, a client with two readable MIDI
    ports and one port that is not MIDI, and a client with a synth port;
    the masks are those of the ALSA headers, the capability bits those of
    [MidiInAlsa]. *)
Lemma portInfo_counts_witness :
  let MIDI_GENERIC := 2 in
  let SYNTH := 1024 in
  let type := 33 in
  let seq : sequencer :=
    [(0, [mk_snd_seq_port_info 0 0 0 33]);
     (14, [mk_snd_seq_port_info 14 0 2 33;
           mk_snd_seq_port_info 14 1 0 33;
           mk_snd_seq_port_info 14 2 2 99]);
     (128, [mk_snd_seq_port_info 128 0 1024 33])] in
  -1 < 0 /\
  portInfo MIDI_GENERIC SYNTH seq type (-1) =
    (wrap32 (Z.of_nat (length (counted MIDI_GENERIC SYNTH seq type))), None).
Proof.
  intros MIDI_GENERIC SYNTH type seq.
  assert (H : -1 < 0) by lia.
  split; [exact H|].
  exact (portInfo_counts MIDI_GENERIC SYNTH type seq (-1) H).
Defined.

(** The second port of the same sequencer. *)
Lemma portInfo_finds_witness :
  let MIDI_GENERIC := 2 in
  let SYNTH := 1024 in
  let type := 33 in
  let seq : sequencer :=
    [(0, [mk_snd_seq_port_info 0 0 0 33]);
     (14, [mk_snd_seq_port_info 14 0 2 33;
           mk_snd_seq_port_info 14 1 0 33;
           mk_snd_seq_port_info 14 2 2 99]);
     (128, [mk_snd_seq_port_info 128 0 1024 33])] in
  (0 <= 1 /\
   Z.of_nat (length (counted MIDI_GENERIC SYNTH seq type)) < 2 ^ 32) /\
  (1 < getPortCount MIDI_GENERIC SYNTH seq type ->
   exists pinfo,
     counted MIDI_GENERIC SYNTH seq type !! Z.to_nat 1 = Some pinfo /\
     portInfo MIDI_GENERIC SYNTH seq type 1 = (1, Some pinfo)) /\
  (getPortCount MIDI_GENERIC SYNTH seq type <= 1 ->
   portInfo MIDI_GENERIC SYNTH seq type 1 = (0, None)).
Proof.
  intros MIDI_GENERIC SYNTH type seq.
  assert (H0 : 0 <= 1) by lia.
  assert (H1 : Z.of_nat (length (counted MIDI_GENERIC SYNTH seq type))
               < 2 ^ 32) by (vm_compute; reflexivity).
  split; [split; [exact H0 | exact H1]|].
  exact (portInfo_finds MIDI_GENERIC SYNTH type seq 1 H0 H1).
Defined.

End PortEnumerationExamples.

Section SendingExamples.

Import WinMMOut.

(** A message of four bytes that is not a sysex message. *)
Lemma sendMessage_refused_witness :
  let env := mkAnswers true 0 0 2 0 [17; 34; 51; 68] in
  let self := mkMidiApi true EmptyString None false in
  let message := [144; 60; 100; 1] in
  Z.of_nat (length message) < 2 ^ 32 /\
  (connected_ self = false ->
   sendMessage false 0 env self message = Some (self, [], [], Returns)) /\
  (connected_ self = true ->
   message = [] \/ (3 < length message)%nat /\ message !!! 0%nat <> 240 ->
   exists self' out,
     sendMessage false 2 env self message = Some (self', out, [], Returns) /\
     connected_ self' = true).
Proof.
  intros env self message.
  assert (H : Z.of_nat (length message) < 2 ^ 32) by (vm_compute; reflexivity).
  split; [exact H|].
  exact (sendMessage_refused false 0 env self message H).
Defined.

(** A note-on sent and received. *)
Lemma short_message_roundtrip_witness :
  let env := mkAnswers true 0 0 2 0 [17; 34; 51; 68] in
  let self := mkMidiApi true EmptyString None false in
  let message := [144; 60; 100] in
  let data := RtMidiInData_new 4 0 in
  let apiData := WinMM.WinMidiData_new 0 in
  (connected_ self = true /\
   shortMsg_result env = WinMM.MMSYSERR_NOERROR /\
   length (packet_memory env) = 4%nat /\
   Forall is_byte (packet_memory env) /\
   Forall is_byte message /\
   message !!! 0%nat <> 240 /\
   Z.land (message !!! 0%nat) 128 <> 0 /\
   WinMM.short_length (ignoreFlags data) (message !!! 0%nat) =
     Some (length message) /\
   bytes (WinMM.message apiData) = []) /\
  exists packet m,
    sendMessage false 0 env self message =
      Some (self, [], [midiOutShortMsg packet], Returns) /\
    (WinMM.midiInputCallback_assemble data apiData (WinMM.MIM_DATA packet)
       1000).2 = Some m /\
    bytes m = message.
Proof.
  intros env self message data apiData.
  assert (H1 : Forall is_byte (packet_memory env)).
  { repeat constructor; unfold is_byte; lia. }
  assert (H2 : Forall is_byte message).
  { repeat constructor; unfold is_byte; lia. }
  assert (H3 : message !!! 0%nat <> 240) by (cbn; discriminate).
  assert (H4 : Z.land (message !!! 0%nat) 128 <> 0)
    by (vm_compute; discriminate).
  split.
  - split_and!; try reflexivity; assumption.
  - apply (short_message_roundtrip false 0 env self message data apiData 1000);
      try reflexivity; assumption.
Defined.

(** A sysex message of four bytes. *)
Lemma sysex_sent_whole_witness :
  let env := mkAnswers true 0 0 2 0 [17; 34; 51; 68] in
  let self := mkMidiApi true EmptyString None false in
  let message := [240; 1; 2; 247] in
  let n := Z.of_nat (length message) in
  (connected_ self = true /\
   0 < Z.of_nat (length message) < 2 ^ 32 /\
   message !!! 0%nat = 240 /\
   malloc_ok env = true) /\
  (prepareHeader_result env = WinMM.MMSYSERR_NOERROR ->
   longMsg_result env = WinMM.MMSYSERR_NOERROR ->
   sendMessage false 0 env self message =
     Some (self, [],
           [malloc n; midiOutPrepareHeader message n; midiOutLongMsg message n]
             ++ unprepare_wait (stillPlaying env) ++ [free],
           Returns)) /\
  (forall self' out calls c,
     sendMessage false 0 env self message = Some (self', out, calls, c) ->
     length (List.filter (fun call => match call with
                                      | free => true
                                      | _ => false
                                      end) calls) = 1%nat).
Proof.
  intros env self message n.
  assert (H : 0 < Z.of_nat (length message) < 2 ^ 32) by (cbn; lia).
  split.
  - split_and!; try reflexivity; exact H.
  - apply (sysex_sent_whole false 0 env self message);
      try reflexivity; exact H.
Defined.

End SendingExamples.

(** A note-on and a timing clock from the driver. *)
Lemma winmm_short_messages_witness :
  let inputs := [(WinMM.MIM_DATA 8338576, 1000); (WinMM.MIM_DATA 248, 1010)] in
  let data := RtMidiInData_new 4 0 in
  let apiData := WinMM.WinMidiData_new 0 in
  (bytes (WinMM.message apiData) = [] /\
   Forall (fun it => exists midiMessage, it.1 = WinMM.MIM_DATA midiMessage)
     inputs) /\
  Forall2
    (fun it r =>
       forall m, r = Some m ->
       exists midiMessage nBytes,
         it.1 = WinMM.MIM_DATA midiMessage /\ (1 <= nBytes <= 3)%nat /\
         bytes m = map (WinMM.byte_at midiMessage) (seq 0 nBytes) /\
         128 <= WinMM.byte_at midiMessage 0 < 256)
    inputs (midiInputCallback_feed data apiData inputs).2 /\
  bytes (WinMM.message (midiInputCallback_feed data apiData inputs).1.2) = [].
Proof.
  intros inputs data apiData.
  assert (H : Forall (fun it : WinMM.Input * Z =>
                        exists midiMessage, it.1 = WinMM.MIM_DATA midiMessage)
                inputs).
  { repeat constructor; eexists; reflexivity. }
  split; [split; [reflexivity | exact H]|].
  apply (winmm_short_messages inputs data apiData); [reflexivity | exact H].
Defined.

(** A sysex buffer with four recorded bytes. *)
Lemma winmm_sysex_buffer_witness :
  let data := RtMidiInData_new 4 0 in
  let apiData := WinMM.WinMidiData_new 0 in
  let sysex := WinMM.mkMIDIHDR [240; 1; 2; 247] 4 2 in
  let n := WinMM.dwBytesRecorded sysex in
  let kept := (0 <? n) && negb (truthy (Z.land (ignoreFlags data) 1)) in
  let long := WinMM.midiInputCallback_assemble data apiData
                (WinMM.MIM_LONGDATA sysex 0) 1000 in
  let err := WinMM.midiInputCallback_assemble data apiData
               (WinMM.MIM_LONGERROR sysex 0) 1000 in
  (bytes (WinMM.message apiData) = [] /\
   0 <= WinMM.dwBytesRecorded sysex < 2 ^ 31) /\
  (In (AddBuffer (WinMM.dwUser sysex)) long.1.2 <-> 0 < n) /\
  (In (AddBuffer (WinMM.dwUser sysex)) err.1.2 <-> 0 < n) /\
  (if kept then
     exists m m', long.2 = Some m /\ err.2 = Some m' /\
       bytes m = take (Z.to_nat n) (WinMM.lpData sysex) /\ bytes m' = []
   else long.2 = None /\ err.2 = None).
Proof.
  intros data apiData sysex n kept long err.
  assert (H : 0 <= WinMM.dwBytesRecorded sysex < 2 ^ 31) by (cbn; lia).
  split; [split; [reflexivity | exact H]|].
  apply (winmm_sysex_buffer data apiData sysex 0 1000); [reflexivity | exact H].
Defined.

Section AlsaExamples.

Import Alsa.

(** A note-on while no sysex message is being assembled. *)
Lemma alsa_event_completes_witness :
  let data := RtMidiInData_new 4 0 in
  let apiData := mkAlsaMidiData 32 0 in
  let ev := mk_snd_seq_event SND_SEQ_EVENT_default 0 1000 [144; 60; 127] in
  ((select (ignoreFlags data) apiData ev).2 = true /\
   type ev <> SND_SEQ_EVENT_SYSEX /\
   decoded ev <> []) /\
  exists data' apiData' m,
    alsaMidiHandler_assemble data apiData Locals_new ev =
      (data', apiData', mkLocals false m, Some m) /\
    bytes m =
      (if continueSysex Locals_new then bytes (message Locals_new) else [])
        ++ decoded ev.
Proof.
  intros data apiData ev.
  assert (H1 : type ev <> SND_SEQ_EVENT_SYSEX) by discriminate.
  assert (H2 : decoded ev <> []) by discriminate.
  split; [split; [reflexivity | split; [exact H1 | exact H2]]|].
  apply (alsa_event_completes data apiData Locals_new ev);
    [reflexivity | exact H1 | exact H2].
Defined.

End AlsaExamples.

Section JackExamples.

Import Jack.

(** Two events of one JACK buffer on a new connection. *)
Lemma jack_events_delivered_witness :
  let rtData := RtMidiInData_new 4 0 in
  let jData := mkJackMidiData 0 in
  let events := [([144; 60; 127], 1000); ([128; 60; 0], 1500)] in
  let msgs := jack_messages (firstMessage rtData) (lastTime jData) events in
  let r := jackProcessIn rtData jData events in
  continueSysex rtData = false /\
  (usingCallback rtData = true ->
   r.2 = map (fun m => UserCallback (timeStamp m) (bytes m)) msgs) /\
  (usingCallback rtData = false ->
   queue r.1.1 = (push_all "MidiInJack" (queue rtData) msgs).1) /\
  lastTime r.1.2 = List.last (map snd events) (lastTime jData) /\
  firstMessage r.1.1 =
    firstMessage rtData && (match events with [] => true | _ => false end).
Proof.
  intros rtData jData events msgs r.
  split; [reflexivity|].
  apply (jack_events_delivered events rtData jData). reflexivity.
Defined.

End JackExamples.

Section BackendExamples.

Import RtMidi.


End BackendExamples.

Section WinMMPortExamples.

Import WinMMPort.

(** A driver with two devices of the same name that refuses to register
    the third sysex buffer. *)
Lemma openPort_connects_witness :
  let env :=
    mkDriver 2 (fun _ => "USB MIDI"%string) 0 (fun _ => 0)
      (fun i => if (i =? 2)%nat then 11 else 0) 0 (fun _ => 0) in
  let self := MidiApi_new in
  let all_ok :=
    (1 <? midiInGetNumDevs env)
    && (midiInOpen_result env =? MMSYSERR_NOERROR)
    && forallb (fun i =>
                  (midiInPrepareHeader_result env i =? MMSYSERR_NOERROR)
                  && (midiInAddBuffer_result env i =? MMSYSERR_NOERROR))
         (seq 0 RT_SYSEX_BUFFER_COUNT)
    && (midiInStart_result env =? MMSYSERR_NOERROR) in
  (connected_ self = false /\ 0 <= 1) /\
  exists self' out calls c,
    openPort false 2 env self 1 = Some (self', out, calls, c) /\
    connected_ self' = all_ok /\
    (all_ok = true -> c = Returns /\ out = [] /\ ~ In midiInClose calls) /\
    (all_ok = false -> midiInOpen_result env = MMSYSERR_NOERROR ->
     In (midiInOpen 1) calls ->
     last calls = Some midiInClose).
Proof.
  intros env self all_ok.
  assert (H : 0 <= 1) by lia.
  split; [split; [reflexivity | exact H]|].
  exact (openPort_connects false 0 env self 1 eq_refl H).
Defined.

(** The names of two devices to which the driver gives the same name. *)
Lemma getPortName_distinct_witness :
  let env :=
    mkDriver 2 (fun _ => "USB MIDI"%string) 0 (fun _ => 0) (fun _ => 0) 0
      (fun _ => 0) in
  (0 <= 0 < midiInGetNumDevs env /\ 0 <= 1 < midiInGetNumDevs env /\
   0 <> 1) /\
  exists np nq,
    getPortName false 0 env MidiApi_new 0 =
      Some (MidiApi_new, np, [], Returns) /\
    getPortName false 0 env MidiApi_new 1 =
      Some (MidiApi_new, nq, [], Returns) /\
    np <> nq.
Proof.
  intros env.
  assert (H0 : 0 <= 0 < midiInGetNumDevs env) by (cbn; lia).
  assert (H1 : 0 <= 1 < midiInGetNumDevs env) by (cbn; lia).
  assert (H2 : 0 <> 1) by discriminate.
  split; [split; [exact H0 | split; [exact H1 | exact H2]]|].
  exact (getPortName_distinct false 0 env MidiApi_new 0 1 H0 H1 H2).
Defined.

End WinMMPortExamples.

Section AlsaOutExamples.

Import AlsaOut.

(** The object as [initialize] leaves it, a sysex message of 40 bytes, and
    an allocator that gives zeroed blocks. *)
Lemma alsa_sendMessage_in_block_witness :
  let data := mkAlsaMidiData 32 (Some (replicate 32 0)) in
  let message := 240 :: replicate 38 1 ++ [247] in
  let blocks (size : Z) :=
    if size <? 0 then None else Some (replicate (Z.to_nat size) 0) in
  let env := mkSequencer 0 blocks 40 0 in
  let nBytes := Z.of_nat (length message) in
  (malloc_sized env /\ buffer_ok data = true /\
   Z.of_nat (length message) < 2 ^ 32) /\
  exists self' data' out calls c,
    sendMessage false 2 env MidiApi_new data message =
      Some (Finished self' data' out calls c) /\
    bufferSize data' = Z.max (bufferSize data) nBytes /\
    (In snd_seq_event_output calls ->
     In (snd_midi_event_encode (Some message) nBytes) calls) /\
    (buffer_ok data' = false <->
     bufferSize data < nBytes /\
     (resize_buffer_result env <> 0 \/ malloc_result env nBytes = None)).
Proof.
  intros data message blocks env nBytes.
  assert (Hm : malloc_sized env).
  { intros size mem. cbn. unfold blocks.
    destruct (Z.ltb_spec size 0); [discriminate|].
    intros [= <-]. rewrite length_replicate. lia. }
  assert (H : Z.of_nat (length message) < 2 ^ 32) by (vm_compute; reflexivity).
  split; [split; [exact Hm | split; [reflexivity | exact H]]|].
  exact (alsa_sendMessage_in_block false 0 env MidiApi_new data message
           Hm eq_refl H).
Defined.

(** The coder refuses to resize; the message is sent again. *)
Lemma alsa_sendMessage_after_failed_resize_witness :
  let data := mkAlsaMidiData 32 (Some (replicate 32 0)) in
  let message := 240 :: replicate 38 1 ++ [247] in
  let blocks (size : Z) :=
    if size <? 0 then None else Some (replicate (Z.to_nat size) 0) in
  let env := mkSequencer (-12) blocks 40 0 in
  (buffer_ok data = true /\
   Z.of_nat (length message) < 2 ^ 32 /\
   bufferSize data < Z.of_nat (length message) /\
   (resize_buffer_result env <> 0 \/
    malloc_result env (Z.of_nat (length message)) = None)) /\
  exists self' data' out calls c,
    sendMessage false 2 env MidiApi_new data message =
      Some (Finished self' data' out calls c) /\
    ~ In snd_seq_event_output calls /\
    forall fuel' env',
      sendMessage false fuel' env' self' data' message =
        Some (OutOfBounds 32).
Proof.
  intros data message blocks env.
  assert (H1 : Z.of_nat (length message) < 2 ^ 32) by (vm_compute; reflexivity).
  assert (H2 : bufferSize data < Z.of_nat (length message))
    by (vm_compute; reflexivity).
  assert (H3 : resize_buffer_result env <> 0 \/
               malloc_result env (Z.of_nat (length message)) = None)
    by (left; discriminate).
  split; [split; [reflexivity | split; [exact H1 | split; [exact H2 | exact H3]]]|].
  exact (alsa_sendMessage_after_failed_resize false 0 env MidiApi_new data
           message eq_refl H1 H2 H3).
Defined.

End AlsaOutExamples.


End Examples.
